(** * pdfe maintenance scripts: a shallow embedding and its properties

    The repository holds two families of one-off Python scripts:
    - the [fix_redactarea_*] patchers, which rewrite [.RedactArea(...)] call
      sites of a C# test suite with Python's [re] module, and
    - the [split-pdf*-spec*] splitters, which cut a large text into wiki
      pages by a table of line numbers.

    A Python [str] is modelled as a Rocq [string].  For the patchers a
    character is a code point below 256 (ASCII and Latin-1), and the
    character classes [\s], [\d] and [.] are Python's classes on that range.
    The splitters only slice and concatenate whole lines, so there the
    characters are opaque. *)

From Stdlib Require Import String Ascii List ListSet Arith ZArith Lia Bool Permutation.
Import ListNotations.
Open Scope string_scope.
Open Scope nat_scope.

(** ** Python string operations *)

Module Str.

(** [needle in hay] *)
Fixpoint contains (needle hay : string) : bool :=
  if prefix needle hay then true
  else match hay with
       | EmptyString => false
       | String _ hay' => contains needle hay'
       end.

(** [s.split(sep)] for a one-character separator *)
Fixpoint split (sep : ascii) (s : string) : list string :=
  match s with
  | EmptyString => [EmptyString]
  | String a s' =>
      if Ascii.eqb a sep then EmptyString :: split sep s'
      else match split sep s' with
           | h :: t => String a h :: t
           | [] => [String a EmptyString]
           end
  end.

(** [sep.join(l)] *)
Fixpoint join (sep : string) (l : list string) : string :=
  match l with
  | [] => EmptyString
  | [x] => x
  | x :: (_ :: _) as t => x ++ sep ++ join sep t
  end.

(** [''.join(l)] *)
Definition concat (l : list string) : string := fold_right append EmptyString l.

(** [s.count(c)] for a one-character argument *)
Fixpoint count (c : ascii) (s : string) : nat :=
  match s with
  | EmptyString => 0
  | String a s' => (if Ascii.eqb a c then 1 else 0) + count c s'
  end.

Definition code (a : ascii) : nat := nat_of_ascii a.

(** [str.isspace] on one character, which is also the class [\s] of [re] *)
Definition is_space (a : ascii) : bool :=
  let n := code a in
  ((9 <=? n) && (n <=? 13)) || ((28 <=? n) && (n <=? 32))
  || (n =? 133) || (n =? 160).

(** the class [\d] of [re]: decimal digits *)
Definition is_digit (a : ascii) : bool :=
  let n := code a in (48 <=? n) && (n <=? 57).

Definition is_upper_ascii (a : ascii) : bool :=
  let n := code a in (65 <=? n) && (n <=? 90).

Definition is_lower_ascii (a : ascii) : bool :=
  let n := code a in (97 <=? n) && (n <=? 122).

(** [c.lower()]: A-Z and the upper-case letters of Latin-1 move up by 32 *)
Definition lower_char (a : ascii) : ascii :=
  let n := code a in
  if ((65 <=? n) && (n <=? 90))
     || ((192 <=? n) && (n <=? 222) && negb (n =? 215))
  then ascii_of_nat (n + 32) else a.

Fixpoint lower (s : string) : string :=
  match s with
  | EmptyString => EmptyString
  | String a s' => String (lower_char a) (lower s')
  end.

Fixpoint lstrip (s : string) : string :=
  match s with
  | EmptyString => EmptyString
  | String a s' => if is_space a then lstrip s' else s
  end.

Fixpoint rstrip (s : string) : string :=
  match s with
  | EmptyString => EmptyString
  | String a s' =>
      match rstrip s' with
      | EmptyString => if is_space a then EmptyString else String a EmptyString
      | t => String a t
      end
  end.

(** [s.strip()] *)
Definition strip (s : string) : string := rstrip (lstrip s).

(** the first [n] characters, [s[:n]] *)
Fixpoint take (n : nat) (s : string) : string :=
  match n, s with
  | S n', String a s' => String a (take n' s')
  | _, _ => EmptyString
  end.

(** [s[n:]] *)
Fixpoint drop (n : nat) (s : string) : string :=
  match n, s with
  | S n', String _ s' => drop n' s'
  | _, _ => s
  end.

(** [s.startswith(p)] *)
Definition startswith (p s : string) : bool := prefix p s.

(** [s.endswith(p)] *)
Definition endswith (p s : string) : bool :=
  (String.length p <=? String.length s)
  && String.eqb (drop (String.length s - String.length p) s) p.

(** Python's truth value of a string: non-empty *)
Definition truthy (s : string) : bool :=
  match s with EmptyString => false | String _ _ => true end.

Fixpoint forallb (p : ascii -> bool) (s : string) : bool :=
  match s with
  | EmptyString => true
  | String a s' => p a && forallb p s'
  end.

End Str.

(** ** Python's [re]: a backtracking matcher

    Patterns are kept as syntax trees; [exec] explores them the way the
    [re] engine does: alternatives left to right, quantifiers greedy, and a
    failure of what follows sends the search back to the last choice.
    Where a comment quotes a pattern of the source, a blank separates a
    star from a closing parenthesis that follows it. *)

Module Re.

Inductive regex : Type :=
| Lit (l : string)                 (* literal text *)
| Cls (p : ascii -> bool)          (* one character of a class *)
| Seq (r1 r2 : regex)
| Alt (r1 r2 : regex)              (* r1|r2 *)
| Star (r : regex)                 (* r*, greedy *)
| Group (n : nat) (r : regex)      (* the n-th capturing group *)
| NegLook (r : regex).             (* (?!r) *)

(** [r+] *)
Definition Plus (r : regex) : regex := Seq r (Star r).

(** a sequence [r1 r2 ... rn] *)
Fixpoint seqs (l : list regex) : regex :=
  match l with
  | [] => Lit EmptyString
  | [r] => r
  | r :: (_ :: _) as t => Seq r (seqs t)
  end.

(** an alternation [r1|r2|...|rn] *)
Fixpoint alts (l : list regex) : regex :=
  match l with
  | [] => Cls (fun _ => false)
  | [r] => r
  | r :: (_ :: _) as t => Alt r (alts t)
  end.

(** [.] matches anything but a newline *)
Definition dot (a : ascii) : bool := negb (Ascii.eqb a "010"%char).
(** [[^c]] *)
Definition not_char (c : ascii) (a : ascii) : bool := negb (Ascii.eqb a c).
(** [[^cd]] *)
Definition not_chars (c d : ascii) (a : ascii) : bool :=
  negb (Ascii.eqb a c) && negb (Ascii.eqb a d).
(** [[a-zA-Z_]] *)
Definition ident_start (a : ascii) : bool :=
  Str.is_lower_ascii a || Str.is_upper_ascii a || Ascii.eqb a "_"%char.
(** [[a-zA-Z0-9_]] *)
Definition ident_char (a : ascii) : bool :=
  ident_start a || Str.is_digit a.

(** [\s*], [\s+], [\d+] and [.*] *)
Definition ws : regex := Star (Cls Str.is_space).
Definition ws1 : regex := Plus (Cls Str.is_space).
Definition digits : regex := Plus (Cls Str.is_digit).
Definition dots : regex := Star (Cls dot).

(** captured groups, the most recent binding of a number first *)
Definition caps : Type := list (nat * string).

Fixpoint group (n : nat) (c : caps) : string :=
  match c with
  | [] => EmptyString
  | (k, v) :: c' => if Nat.eqb k n then v else group n c'
  end.

Definition result : Type := (string * caps)%type.
Definition cont : Type := string -> caps -> option result.

Definition ret : cont := fun s c => Some (s, c).

Definition orelse (a b : option result) : option result :=
  match a with Some x => Some x | None => b end.

(** the text consumed between the input [s] and its suffix [s'] *)
Definition consumed (s s' : string) : string :=
  Str.take (String.length s - String.length s') s.

(** the loop of a greedy [r*]: one more round of [step] first, then the
    rest of the pattern; a round that consumes nothing ends the loop *)
Fixpoint star_loop (step : string -> caps -> cont -> option result)
         (fuel : nat) (s : string) (c : caps) (k : cont) : option result :=
  match fuel with
  | 0 => k s c
  | S fuel' =>
      orelse
        (step s c (fun s' c' =>
           if String.length s' <? String.length s
           then star_loop step fuel' s' c' k else None))
        (k s c)
  end.

Fixpoint strip_prefix (l s : string) : option string :=
  match l, s with
  | EmptyString, _ => Some s
  | String a l', String b s' => if Ascii.eqb a b then strip_prefix l' s' else None
  | String _ _, EmptyString => None
  end.

Fixpoint exec (r : regex) (s : string) (c : caps) (k : cont) : option result :=
  match r with
  | Lit l => match strip_prefix l s with Some s' => k s' c | None => None end
  | Cls p =>
      match s with
      | String a s' => if p a then k s' c else None
      | EmptyString => None
      end
  | Seq r1 r2 => exec r1 s c (fun s1 c1 => exec r2 s1 c1 k)
  | Alt r1 r2 => orelse (exec r1 s c k) (exec r2 s c k)
  | Star r1 => star_loop (exec r1) (String.length s) s c k
  | Group n r1 => exec r1 s c (fun s' c' => k s' ((n, consumed s s') :: c'))
  | NegLook r1 =>
      match exec r1 s c ret with
      | Some _ => None
      | None => k s c
      end
  end.

(** A match object: the text before the match, the match itself (group 0),
    the text after it, and the groups. *)
Record match_obj : Type := MkMatch {
  m_before : string;
  m_text : string;
  m_after : string;
  m_caps : caps
}.

Definition m_group (m : match_obj) (n : nat) : string :=
  match n with 0 => m_text m | _ => group n (m_caps m) end.

(** [re.match] at the head of [s], with [before] the text already passed *)
Definition match_here (r : regex) (before s : string) : option match_obj :=
  match exec r s [] ret with
  | Some (s', c) => Some (MkMatch before (consumed s s') s' c)
  | None => None
  end.

(** scan the start positions left to right *)
Fixpoint search_from (r : regex) (before s : string) : option match_obj :=
  match match_here r before s with
  | Some m => Some m
  | None =>
      match s with
      | EmptyString => None
      | String a s' => search_from r (before ++ String a EmptyString) s'
      end
  end.

(** [re.search(r, s)] *)
Definition search (r : regex) (s : string) : option match_obj :=
  search_from r EmptyString s.

(** [re.finditer(r, s)]: successive non-overlapping matches; [m_before] of
    each is the text between the previous match and this one *)
Fixpoint finditer_fuel (fuel : nat) (r : regex) (s : string) : list match_obj :=
  match fuel with
  | 0 => []
  | S fuel' =>
      match search r s with
      | None => []
      | Some m =>
          match m_text m, m_after m with
          | EmptyString, EmptyString => [m]
          | EmptyString, String a rest =>
              (* an empty match: step over one character *)
              m :: finditer_fuel fuel' r rest
          | _, rest => m :: finditer_fuel fuel' r rest
          end
      end
  end.

Definition finditer (r : regex) (s : string) : list match_obj :=
  finditer_fuel (S (String.length s)) r s.

(** [len(re.findall(r, s))] *)
Definition count_matches (r : regex) (s : string) : nat :=
  List.length (finditer r s).

(** a replacement template: literal text and group references [\n] *)
Inductive piece : Type :=
| TLit (l : string)
| TGrp (n : nat).

Definition template : Type := list piece.

Fixpoint expand (t : template) (m : match_obj) : string :=
  match t with
  | [] => EmptyString
  | TLit l :: t' => l ++ expand t' m
  | TGrp n :: t' => m_group m n ++ expand t' m
  end.

(** [re.sub(r, t, s)] *)
Fixpoint sub_fuel (fuel : nat) (r : regex) (t : template) (s : string) : string :=
  match fuel with
  | 0 => s
  | S fuel' =>
      match search r s with
      | None => s
      | Some m =>
          match m_text m, m_after m with
          | EmptyString, EmptyString => m_before m ++ expand t m
          | EmptyString, String a rest =>
              m_before m ++ expand t m ++ String a (sub_fuel fuel' r t rest)
          | _, rest => m_before m ++ expand t m ++ sub_fuel fuel' r t rest
          end
      end
  end.

Definition sub (r : regex) (t : template) (s : string) : string :=
  sub_fuel (S (String.length s)) r t s.

End Re.

(** ** The file system the scripts read and write

    A file system is a list of (path, content) pairs; [read] is
    [open(p).read()], [write] is [open(p, 'w').write(c)], [remove] is
    [unlink].  A directory listing follows the order of the list; no
    property below depends on that order. *)

Module Fs.

Definition fs : Type := list (string * string).

Fixpoint read (p : string) (f : fs) : option string :=
  match f with
  | [] => None
  | (q, c) :: f' => if String.eqb q p then Some c else read p f'
  end.

Definition remove (p : string) (f : fs) : fs :=
  filter (fun e => negb (String.eqb (fst e) p)) f.

Definition write (p c : string) (f : fs) : fs := (p, c) :: remove p f.

Definition exists_ (p : string) (f : fs) : bool :=
  match read p f with Some _ => true | None => false end.

(** the files below directory [dir], at any depth *)
Definition under (dir p : string) : bool := Str.startswith (dir ++ "/") p.

Definition listing (dir : string) (f : fs) : list string :=
  filter (under dir) (map fst f).

End Fs.

(** ** fix_redactarea_calls.py *)

Module FixRedactAreaCalls.
Import Re.

Definition comma : ascii := ","%char.

(** [(?:var|string)\s+(name)\s*=] *)
Definition decl (name : regex) : regex :=
  seqs [Alt (Lit "var") (Lit "string"); ws1; Group 1 name; ws; Lit "="].

(** [PdfReader\.Open\(\s*([a-zA-Z_][a-zA-Z0-9_]* )\s*,] *)
Definition reader_open : regex :=
  seqs [Lit "PdfReader.Open("; ws;
        Group 1 (Seq (Cls ident_start) (Star (Cls ident_char))); ws; Lit ","].

Definition path_patterns : list regex :=
  [ decl (Lit "pdfPath");
    decl (Lit "inputPath");
    decl (Lit "filePath");
    decl (Lit "testPath");
    seqs [Alt (Lit "var") (Lit "string"); ws1; Group 1 (Lit "path"); ws;
          Lit "="; dots; Lit ".pdf"];
    reader_open ].

(** [(?:var|string)\s+([a-zA-Z_]*[Pp]ath[a-zA-Z_]* )\s*=] *)
Definition fallback_pattern : regex :=
  decl (seqs [Star (Cls ident_start);
              Cls (fun a => Ascii.eqb a "P"%char || Ascii.eqb a "p"%char);
              Lit "ath"; Star (Cls ident_start)]).

Fixpoint first_match (pats : list regex) (content : string) : option string :=
  match pats with
  | [] => None
  | pattern :: rest =>
      match search pattern content with
      | Some m => Some (m_group m 1)
      | None => first_match rest content
      end
  end.

Definition find_path_variable (content : string) : string :=
  match first_match path_patterns content with
  | Some var_name => var_name
  | None =>
      match search fallback_pattern content with
      | Some m => m_group m 1
      | None => "pdfPath"
      end
  end.

(** Pattern 1: [\.RedactArea\(\s*([^,]+),\s*([^,]+),\s*renderDpi:\s*(\d+)\s*\)] *)
Definition pattern1 : regex :=
  seqs [Lit ".RedactArea("; ws; Group 1 (Plus (Cls (not_char comma)));
        Lit ","; ws; Group 2 (Plus (Cls (not_char comma)));
        Lit ","; ws; Lit "renderDpi:"; ws; Group 3 digits; ws; Lit ")"].

(** [.RedactArea(\1, \2, {path_var}, renderDpi: \3)] *)
Definition replacement1 (path_var : string) : template :=
  [TLit ".RedactArea("; TGrp 1; TLit ", "; TGrp 2;
   TLit (", " ++ path_var ++ ", renderDpi: "); TGrp 3; TLit ")"].

(** Pattern 2: [\.RedactArea\(\s*([^,]+),\s*([^,]+),\s*(\d+)\s*\)] *)
Definition pattern2 : regex :=
  seqs [Lit ".RedactArea("; ws; Group 1 (Plus (Cls (not_char comma)));
        Lit ","; ws; Group 2 (Plus (Cls (not_char comma)));
        Lit ","; ws; Group 3 digits; ws; Lit ")"].

(** [.RedactArea(\1, \2, {path_var}, \3)] *)
Definition replacement2 (path_var : string) : template :=
  [TLit ".RedactArea("; TGrp 1; TLit ", "; TGrp 2;
   TLit (", " ++ path_var ++ ", "); TGrp 3; TLit ")"].

Definition patterns (path_var : string) : list (regex * template) :=
  [ (pattern1, replacement1 path_var); (pattern2, replacement2 path_var) ].

(** one round of the loop over [patterns]: the substitution is kept only
    when it lowers the number of matches of its pattern *)
Definition apply_pattern (st : string * nat) (pr : regex * template)
  : string * nat :=
  let '(content, total_fixes) := st in
  let '(pattern, replacement) := pr in
  let matches_before := count_matches pattern content in
  if 0 <? matches_before then
    let content_after := sub pattern replacement content in
    let matches_after := count_matches pattern content_after in
    if matches_after <? matches_before
    then (content_after, total_fixes + (matches_before - matches_after))
    else (content, total_fixes)
  else (content, total_fixes).

(** the content transformation of [fix_redactarea_calls]: new content and
    [total_fixes] *)
Definition fix_content (original_content : string) : string * nat :=
  let path_var := find_path_variable original_content in
  fold_left apply_pattern (patterns path_var) (original_content, 0).

(** [fix_redactarea_calls(file_path)]: the file system after the call and
    the pair (fixes, errors) *)
Definition fix_redactarea_calls (f : Fs.fs) (file_path : string)
  : Fs.fs * (nat * nat) :=
  match Fs.read file_path f with
  | None => (f, (0, 1))
  | Some original_content =>
      let '(content, total_fixes) := fix_content original_content in
      if String.eqb content original_content then (f, (0, 0))
      else
        let backup_path := file_path ++ ".bak" in
        (Fs.write file_path content (Fs.write backup_path original_content f),
         (total_fixes, 0))
  end.

(** what [subprocess.run(['dotnet', 'build'], ..., timeout=120)] did *)
Inductive build_outcome : Type :=
| Exited (returncode : Z) (stderr : string)
| TimeoutExpired
| Raised.

Section Main.
Variable project_root : string.

Definition TEST_DIR : string := project_root ++ "/PdfEditor.Tests".

(** the files [os.walk] finds that end in [.cs] and contain a call *)
Definition cs_files (f : Fs.fs) : list string :=
  filter (fun p =>
            Str.endswith ".cs" p
            && match Fs.read p f with
               | Some c => Str.contains ".RedactArea(" c
               | None => false
               end)
         (Fs.listing TEST_DIR f).

(** [TEST_DIR.rglob('*.cs.bak')] *)
Definition is_backup (p : string) : bool :=
  Fs.under TEST_DIR p && Str.endswith ".cs.bak" p.

Definition remove_backups (f : Fs.fs) : Fs.fs :=
  fold_left (fun g backup => Fs.remove backup g)
            (filter is_backup (map fst f)) f.

(** the body of the loop over [cs_files], on the state
    (file system, total_fixes, total_errors) *)
Definition step (st : Fs.fs * nat * nat) (file_path : string)
  : Fs.fs * nat * nat :=
  let '(g, total_fixes, total_errors) := st in
  let '(g', (fixes, errors)) := fix_redactarea_calls g file_path in
  if 0 <? fixes then (g', total_fixes + fixes, total_errors)
  else if 0 <? errors then (g', total_fixes, total_errors + errors)
  else (g', total_fixes, total_errors).

(** the loop over [cs_files] *)
Definition process_files (files : list string) (f : Fs.fs)
  : Fs.fs * nat * nat :=
  fold_left step files (f, 0, 0).

Record run : Type := MkRun {
  run_fs : Fs.fs;          (* the file system when [main] returns *)
  run_patched : Fs.fs;     (* the file system when the build starts *)
  run_built : bool;        (* whether the build was started *)
  run_exit : nat           (* the value [main] returns *)
}.

Definition main (f : Fs.fs) (build : build_outcome) : run :=
  match cs_files f with
  | [] => MkRun f f false 0
  | files =>
      let '(g, _, total_errors) := process_files files f in
      match build with
      | Exited returncode _ =>
          if Z.eqb returncode 0
          then MkRun (remove_backups g) g true
                     (if total_errors =? 0 then 0 else 1)
          else MkRun g g true (if total_errors =? 0 then 0 else 1)
      | TimeoutExpired => MkRun g g true 1
      | Raised => MkRun g g true 1
      end
  end.

End Main.

End FixRedactAreaCalls.

(** ** fix_redactarea_phase2.py *)

Module Phase2.
Import Re.

Definition comma : ascii := ","%char.
Definition rparen : ascii := ")"%char.

Definition decl := FixRedactAreaCalls.decl.
Definition reader_open := FixRedactAreaCalls.reader_open.

Definition path_patterns : list regex :=
  [ decl (Lit "pdfPath");
    decl (Lit "inputPath");
    decl (Lit "filePath");
    decl (Lit "testPath");
    (* (?:var|string)\s+(redactedPath)\s*=.*Save *)
    seqs [Alt (Lit "var") (Lit "string"); ws1; Group 1 (Lit "redactedPath");
          ws; Lit "="; dots; Lit "Save"];
    reader_open ].

(** the guard on a candidate: it names an output path *)
Definition is_output_name (var_name : string) : bool :=
  Str.contains "redacted" (Str.lower var_name)
  || Str.contains "output" (Str.lower var_name).

(** the loop over the patterns: a pattern that does not match, or whose
    variable names an output path, passes to the next one *)
Fixpoint first_accepted (pats : list regex) (content : string)
  : option string :=
  match pats with
  | [] => None
  | pattern :: rest =>
      match search pattern content with
      | Some m =>
          let var_name := m_group m 1 in
          if is_output_name var_name then first_accepted rest content
          else Some var_name
      | None => first_accepted rest content
      end
  end.

Definition find_path_variable (content : string) : string :=
  match first_accepted path_patterns content with
  | Some var_name => var_name
  | None => "pdfPath"
  end.

(** [\.RedactArea\(\s*([^,]+),\s*([^,)]+)\s*\)(?!,)] *)
Definition pattern : regex :=
  seqs [Lit ".RedactArea("; ws; Group 1 (Plus (Cls (not_char comma)));
        Lit ","; ws; Group 2 (Plus (Cls (not_chars comma rparen)));
        ws; Lit ")"; NegLook (Lit ",")].

(** the spans [(start, end)] of successive matches, from offset [base] *)
Fixpoint spans (base : nat) (ms : list match_obj)
  : list (nat * nat * match_obj) :=
  match ms with
  | [] => []
  | m :: rest =>
      let start := base + String.length (m_before m) in
      let stop := start + String.length (m_text m) in
      (start, stop, m) :: spans stop rest
  end.

(** the replacement built for a match: the two arguments stripped, then
    the path variable *)
Definition replacement (path_var : string) (m : match_obj) : string :=
  let arg1 := Str.strip (m_group m 1) in
  let arg2 := Str.strip (m_group m 2) in
  ".RedactArea(" ++ arg1 ++ ", " ++ arg2 ++ ", " ++ path_var ++ ")".

(** the loop [for match in reversed(matches)] *)
Definition replace_all (path_var : string)
           (matches : list (nat * nat * match_obj)) (content : string)
  : string :=
  fold_left
    (fun content sm =>
       let '(start, stop, m) := sm in
       Str.take start content ++ replacement path_var m
       ++ Str.drop stop content)
    (rev matches) content.

(** [fix_file(file_path)]: the file system after the call and the number
    of fixes *)
Definition fix_file (f : Fs.fs) (file_path : string) : Fs.fs * nat :=
  match Fs.read file_path f with
  | None => (f, 0)
  | Some content =>
      let path_var := find_path_variable content in
      let matches := spans 0 (finditer pattern content) in
      match matches with
      | [] => (f, 0)
      | _ =>
          let backup_path := file_path ++ ".phase2.bak" in
          let g := Fs.write backup_path content f in
          (Fs.write file_path (replace_all path_var matches content) g,
           List.length matches)
      end
  end.

(** [([^:]+\.cs)\(\d+,\d+\):] *)
Definition error_location : regex :=
  seqs [Group 1 (Seq (Plus (Cls (not_char ":"%char))) (Lit ".cs"));
        Lit "("; digits; Lit ","; digits; Lit "):"].

(** the comprehension that keeps the error lines of the build's stderr *)
Definition error_lines (stderr : string) : list string :=
  filter (fun line =>
            Str.contains "error CS7036" line && Str.contains "RedactArea" line)
         (Str.split "010"%char stderr).

(** the file a line of the build names, if the location pattern finds one *)
Definition named_file (line : string) : option string :=
  match search error_location line with
  | Some m => Some (m_group m 1)
  | None => None
  end.

Section Main.

(** [pathlib] is not part of the repository: [TEST_DIR / file_name], the
    order of [sorted] on paths and [relative_to(PROJECT_ROOT)], which
    raises [ValueError] for a path outside the root, are taken as given. *)
Variable test_dir_join : string -> string.
Variable sorted : list string -> list string.
Variable relative_to_root : string -> option string.

(** the body of the loop over the error lines; [error_files] is a set: a
    path is added when it is not yet there *)
Definition add_error_file (files : list string) (line : string)
  : list string :=
  match named_file line with
  | Some file_name =>
      ListSet.set_add string_dec (test_dir_join file_name) files
  | None => files
  end.

Definition error_files (stderr : string) : list string :=
  fold_left add_error_file (error_lines stderr) [].

(** the loop over [sorted(error_files)]: the file system, the paths given
    to [fix_file] in order, and the fixes; [None] when [relative_to]
    raises *)
Fixpoint process (files : list string) (f : Fs.fs)
  : option (Fs.fs * list string * nat) :=
  match files with
  | [] => Some (f, [], 0)
  | file_path :: rest =>
      match relative_to_root file_path with
      | None => None
      | Some _ =>
          let '(g, fixes) := fix_file f file_path in
          match process rest g with
          | Some (h, done, total) => Some (h, file_path :: done, fixes + total)
          | None => None
          end
      end
  end.

(** [main] up to the second build: [stderr] is the captured error output
    of the first [dotnet build] *)
Definition patch_phase (f : Fs.fs) (stderr : string)
  : option (Fs.fs * list string * nat) :=
  process (sorted (error_files stderr)) f.

End Main.

End Phase2.

(** ** fix_redactarea_phase3.py *)

Module Phase3.
Import Re.

Definition comma : ascii := ","%char.
Definition rparen : ascii := ")"%char.

(** [testPdf|pdfPath|inputPath|filePath] *)
Definition names : regex :=
  alts [Lit "testPdf"; Lit "pdfPath"; Lit "inputPath"; Lit "filePath"].

Definition path_patterns : list regex :=
  [ seqs [Lit "var"; ws1; Group 1 names; ws; Lit "="];
    seqs [Lit "string"; ws1; Group 1 names; ws; Lit "="];
    FixRedactAreaCalls.reader_open ].

Fixpoint first_accepted (pats : list regex) (content : string)
  : option string :=
  match pats with
  | [] => None
  | pattern :: rest =>
      match search pattern content with
      | Some m =>
          let var := m_group m 1 in
          if negb (Str.contains "redacted" (Str.lower var))
             && negb (Str.contains "output" (Str.lower var))
          then Some var
          else first_accepted rest content
      | None => first_accepted rest content
      end
  end.

Definition find_path_var (content : string) : string :=
  match first_accepted path_patterns content with
  | Some var => var
  | None => "pdfPath"
  end.

(** [(\.RedactArea\([^,]+,\s*new Rect\([^)]+\))], the group shared by the
    three patterns *)
Definition call_head : regex :=
  Group 1 (seqs [Lit ".RedactArea("; Plus (Cls (not_char comma)); Lit ",";
                 ws; Lit "new Rect("; Plus (Cls (not_char rparen)); Lit ")"]).

(** Pattern 1: [call_head] then [,\s*renderDpi:\s*(\d+)\)] *)
Definition pattern1 : regex :=
  seqs [call_head; Lit ","; ws; Lit "renderDpi:"; ws; Group 2 digits; Lit ")"].
Definition replacement1 (path_var : string) : template :=
  [TGrp 1; TLit (", " ++ path_var ++ ", renderDpi: "); TGrp 2; TLit ")"].

(** Pattern 2: [call_head] then [\);(\s*//)] *)
Definition pattern2 : regex :=
  seqs [call_head; Lit ");"; Group 2 (Seq ws (Lit "//"))].
Definition replacement2 (path_var : string) : template :=
  [TGrp 1; TLit (", " ++ path_var ++ ");"); TGrp 2].

(** Pattern 3: [call_head] then [\);] *)
Definition pattern3 : regex := seqs [call_head; Lit ");"].
Definition replacement3 (path_var : string) : template :=
  [TGrp 1; TLit (", " ++ path_var ++ ");")].

Definition fix_content (content : string) : string :=
  let path_var := find_path_var content in
  let content := sub pattern1 (replacement1 path_var) content in
  let content := sub pattern2 (replacement2 path_var) content in
  let content := sub pattern3 (replacement3 path_var) content in
  content.

(** the body of the loop of [main] for one existing file *)
Definition process_file (f : Fs.fs) (file_path : string) : Fs.fs :=
  match Fs.read file_path f with
  | None => f
  | Some original =>
      let fixed := fix_content original in
      if negb (String.eqb fixed original) then
        Fs.write file_path fixed (Fs.write (file_path ++ ".p3.bak") original f)
      else f
  end.

End Phase3.

(** ** fix_redactarea_phase4.py *)

Module Phase4.
Import Re.

Definition comma : ascii := ","%char.
Definition rparen : ascii := ")"%char.

(** [testPdf|pdfPath|inputPath|filePath|inputPdf] *)
Definition names : regex :=
  alts [Lit "testPdf"; Lit "pdfPath"; Lit "inputPath"; Lit "filePath";
        Lit "inputPdf"].

Definition path_patterns : list regex :=
  [ seqs [Lit "var"; ws1; Group 1 names; ws; Lit "="];
    seqs [Lit "string"; ws1; Group 1 names; ws; Lit "="];
    FixRedactAreaCalls.reader_open ].

Fixpoint first_accepted (pats : list regex) (content : string)
  : option string :=
  match pats with
  | [] => None
  | pattern :: rest =>
      match search pattern content with
      | Some m =>
          let var := m_group m 1 in
          if negb (Str.contains "redacted" (Str.lower var))
             && negb (Str.contains "output" (Str.lower var))
          then Some var
          else first_accepted rest content
      | None => first_accepted rest content
      end
  end.

Definition find_path_var (content : string) : string :=
  match first_accepted path_patterns content with
  | Some var => var
  | None => "testPdf"
  end.

Definition arg (n : nat) : regex := Group n (Plus (Cls (not_char comma))).

(** Pattern 1:
    [(.* )\.RedactArea\(([^,]+),\s*([^,]+),\s*([^,]+),\s*renderDpi:\s*(\d+)\)(.* )] *)
Definition pattern1 : regex :=
  seqs [Group 1 dots; Lit ".RedactArea("; arg 2; Lit ","; ws; arg 3;
        Lit ","; ws; arg 4; Lit ","; ws; Lit "renderDpi:"; ws;
        Group 5 digits; Lit ")"; Group 6 dots].

(** Pattern 2: as Pattern 1 with [,\s*renderDpi:\s*(\d+)] twice *)
Definition pattern2 : regex :=
  seqs [Group 1 dots; Lit ".RedactArea("; arg 2; Lit ","; ws; arg 3;
        Lit ","; ws; arg 4; Lit ","; ws; Lit "renderDpi:"; ws;
        Group 5 digits; Lit ","; ws; Lit "renderDpi:"; ws; Group 6 digits;
        Lit ")"; Group 7 dots].

(** Pattern 3:
    [(.* )\.RedactArea\(([^,]+),\s*([^,]+),\s*([^,]+),\s*renderDpi,\s*(\d+)\)(.* )] *)
Definition pattern3 : regex :=
  seqs [Group 1 dots; Lit ".RedactArea("; arg 2; Lit ","; ws; arg 3;
        Lit ","; ws; arg 4; Lit ","; ws; Lit "renderDpi,"; ws;
        Group 5 digits; Lit ")"; Group 6 dots].

(** Pattern 4: [(.* )\.RedactArea\(([^,]+),\s*([^)]+)\);(.* )] *)
Definition pattern4 : regex :=
  seqs [Group 1 dots; Lit ".RedactArea("; arg 2; Lit ","; ws;
        Group 3 (Plus (Cls (not_char rparen))); Lit ");"; Group 4 dots].

(** Pattern 5: [(.* )\.RedactMatches\(([^,]+),\s*([^,]+),\s*([^)]+)\)(.* )] *)
Definition pattern5 : regex :=
  seqs [Group 1 dots; Lit ".RedactMatches("; arg 2; Lit ","; ws; arg 3;
        Lit ","; ws; Group 4 (Plus (Cls (not_char rparen))); Lit ")";
        Group 5 dots].

(** the body of the loop over the lines: every pattern is tried on the
    original [line], and a later pattern that applies overrides the
    result of an earlier one *)
Definition fix_line (path_var line : string) : string :=
  let fixed_line := line in
  let fixed_line :=
    match search pattern1 line with
    | Some m =>
        m_group m 1 ++ ".RedactArea(" ++ m_group m 2 ++ ", " ++ m_group m 3
        ++ ", " ++ path_var ++ ", renderDpi: " ++ m_group m 5 ++ ")"
        ++ m_group m 6
    | None => fixed_line
    end in
  let fixed_line :=
    match search pattern2 line with
    | Some m =>
        m_group m 1 ++ ".RedactArea(" ++ m_group m 2 ++ ", " ++ m_group m 3
        ++ ", " ++ m_group m 4 ++ ", renderDpi: " ++ m_group m 5 ++ ")"
        ++ m_group m 7
    | None => fixed_line
    end in
  let fixed_line :=
    match search pattern3 line with
    | Some m =>
        m_group m 1 ++ ".RedactArea(" ++ m_group m 2 ++ ", " ++ m_group m 3
        ++ ", " ++ m_group m 4 ++ ", renderDpi: " ++ m_group m 5 ++ ")"
        ++ m_group m 6
    | None => fixed_line
    end in
  let fixed_line :=
    match search pattern4 line with
    | Some m =>
        if negb (Str.contains "renderDpi" line)
           && negb (Str.contains path_var line)
        then
          if Str.count comma (m_group m 3) =? 0
          then m_group m 1 ++ ".RedactArea(" ++ m_group m 2 ++ ", "
               ++ m_group m 3 ++ ", " ++ path_var ++ ");" ++ m_group m 4
          else fixed_line
        else fixed_line
    | None => fixed_line
    end in
  let fixed_line :=
    if Str.contains "BatchRedactService" line
       && Str.contains "RedactMatches" line
       && negb (Str.contains "new RedactionOptions" line)
    then
      match search pattern5 line with
      | Some m =>
          if Str.count comma (m_group m 4) =? 0
          then m_group m 1 ++ ".RedactMatches(" ++ m_group m 2 ++ ", "
               ++ m_group m 3 ++ ", " ++ m_group m 4
               ++ ", new RedactionOptions { UseGlyphLevelRedaction = true })"
               ++ m_group m 5
          else fixed_line
      | None => fixed_line
      end
    else fixed_line in
  fixed_line.

Definition fix_content (content : string) : string :=
  let path_var := find_path_var content in
  let original_lines := Str.split "010"%char content in
  Str.join (String "010"%char EmptyString)
           (map (fix_line path_var) original_lines).

(** the body of the loop of [main] for one existing file *)
Definition process_file (f : Fs.fs) (file_path : string) : Fs.fs :=
  match Fs.read file_path f with
  | None => f
  | Some original =>
      let fixed := fix_content original in
      if negb (String.eqb fixed original) then
        Fs.write file_path fixed (Fs.write (file_path ++ ".p4.bak") original f)
      else f
  end.

End Phase4.

(** ** fix_all_redactarea_final.py *)

Module FixAllFinal.
Import Re.

Definition comma : ascii := ","%char.
Definition rparen : ascii := ")"%char.
Definition dquote : ascii := "034"%char.

(** [pdfPath|inputPath|filePath|testPath|path] *)
Definition names : regex :=
  alts [Lit "pdfPath"; Lit "inputPath"; Lit "filePath"; Lit "testPath";
        Lit "path"].

(** the patterns of [find_path_variables] with their group index *)
Definition path_patterns : list (regex * option nat) :=
  [ (* var\s+(names)\s*=\s*.*\.pdf *)
    (seqs [Lit "var"; ws1; Group 1 names; ws; Lit "="; ws; dots; Lit ".pdf"],
     Some 1);
    (* string\s+(names)\s*=\s*.*\.pdf *)
    (seqs [Lit "string"; ws1; Group 1 names; ws; Lit "="; ws; dots;
           Lit ".pdf"],
     Some 1);
    (* PdfReader\.Open\(\s*, a quoted literal as ([^quote]+), \s*, a comma *)
    (seqs [Lit "PdfReader.Open("; ws; Lit (String dquote EmptyString);
           Group 1 (Plus (Cls (not_char dquote)));
           Lit (String dquote EmptyString); ws; Lit ","],
     None);
    (FixRedactAreaCalls.reader_open, Some 1) ].

Definition mem (x : string) (l : list string) : bool :=
  existsb (String.eqb x) l.

Definition found_vars (content : string) : list string :=
  flat_map
    (fun pg : regex * option nat =>
       let '(pattern, group_idx) := pg in
       match group_idx with
       | Some g =>
           filter (fun var_name =>
                     negb (mem var_name ["redactedPath"; "outputPath"; "output"]))
                  (map (fun m => m_group m g) (finditer pattern content))
       | None => []
       end)
    path_patterns.

Definition find_path_variables (content : string) : string :=
  match found_vars content with
  | [] => "pdfPath"
  | first :: _ as found =>
      match find (fun preferred => mem preferred found)
                 ["pdfPath"; "inputPath"; "filePath"; "testPath"] with
      | Some preferred => preferred
      | None => first
      end
  end.

Definition arg (n : nat) : regex := Group n (Plus (Cls (not_char comma))).

(** [(.* )\.RedactArea\(([^,]+),\s*([^,]+),\s*renderDpi:\s*(\d+)\)(.* )] *)
Definition pattern_renderdpi : regex :=
  seqs [Group 1 dots; Lit ".RedactArea("; arg 2; Lit ","; ws; arg 3;
        Lit ","; ws; Lit "renderDpi:"; ws; Group 4 digits; Lit ")";
        Group 5 dots].

(** [(.* )\.RedactArea\(([^,]+),\s*([^,]+),\s*(\d+)\)(.* )] *)
Definition pattern_positional : regex :=
  seqs [Group 1 dots; Lit ".RedactArea("; arg 2; Lit ","; ws; arg 3;
        Lit ","; ws; Group 4 digits; Lit ")"; Group 5 dots].

(** [(.* )\.RedactArea\(([^,]+),\s*([^)]+)\);(.* )] *)
Definition pattern_two_args : regex :=
  seqs [Group 1 dots; Lit ".RedactArea("; arg 2; Lit ","; ws;
        Group 3 (Plus (Cls (not_char rparen))); Lit ");"; Group 4 dots].

(** the guard that selects the lines to look at *)
Definition is_call_line (line : string) : bool :=
  Str.contains "RedactArea(" line
  && negb (Str.contains "void RedactArea" line)
  && negb (Str.contains "//" line).

(** the line already has the path variable as an argument *)
Definition already_fixed (path_var line : string) : bool :=
  Str.contains (", " ++ path_var ++ ",") line
  || Str.contains (", " ++ path_var ++ ")") line.

(** the body of the loop over the lines: the new line and the number of
    fixes it adds *)
Definition fix_line (path_var line : string) : string * nat :=
  if is_call_line line then
    if already_fixed path_var line then (line, 0)
    else
      match search pattern_renderdpi line with
      | Some m =>
          (m_group m 1 ++ ".RedactArea(" ++ m_group m 2 ++ ", "
           ++ m_group m 3 ++ ", " ++ path_var ++ ", renderDpi: "
           ++ m_group m 4 ++ ")" ++ m_group m 5, 1)
      | None =>
          match search pattern_positional line with
          | Some m =>
              (m_group m 1 ++ ".RedactArea(" ++ m_group m 2 ++ ", "
               ++ m_group m 3 ++ ", " ++ path_var ++ ", " ++ m_group m 4
               ++ ")" ++ m_group m 5, 1)
          | None =>
              match search pattern_two_args line with
              | Some m =>
                  if Str.contains "," (m_group m 3)
                     && (Str.count comma (m_group m 3) =? 0)
                  then
                    (m_group m 1 ++ ".RedactArea(" ++ m_group m 2 ++ ", "
                     ++ m_group m 3 ++ ", " ++ path_var ++ ");"
                     ++ m_group m 4, 1)
                  else (line, 0)
              | None => (line, 0)
              end
          end
      end
  else (line, 0).

(** the loop over the lines: [new_lines] and [fixes] *)
Fixpoint fix_lines (path_var : string) (lines : list string)
  : list string * nat :=
  match lines with
  | [] => ([], 0)
  | line :: rest =>
      let '(new_line, n) := fix_line path_var line in
      let '(new_lines, fixes) := fix_lines path_var rest in
      (new_line :: new_lines, n + fixes)
  end.

Definition newline : string := String "010"%char EmptyString.

(** the line transformation of [fix_file] on a content, for a given path
    variable: the joined new lines and the number of fixes *)
Definition transform (path_var content : string) : string * nat :=
  let '(new_lines, fixes) :=
    fix_lines path_var (Str.split "010"%char content) in
  (Str.join newline new_lines, fixes).

(** [fix_file(file_path)]: the file system after the call and the number
    of fixes *)
Definition fix_file (f : Fs.fs) (file_path : string) : Fs.fs * nat :=
  match Fs.read file_path f with
  | None => (f, 0)
  | Some content =>
      let original_content := content in
      let path_var := find_path_variables content in
      let '(new_content, fixes) := transform path_var content in
      if fixes =? 0 then (f, 0)
      else
        let backup_path := file_path ++ ".final.bak" in
        (Fs.write file_path new_content
                  (Fs.write backup_path original_content f),
         fixes)
  end.

End FixAllFinal.

(** ** The splitters

    The five [split-pdf*] scripts share one shape: a table of
    [(start, end, filename, title)] entries, a loop that cuts the lines
    [lines[start-1:end-1]] out of the document, and [write_wiki_page],
    which frames them by a navigation header and footer.  Their input is
    the list [lines] that [readlines()] returns. *)

Module Wiki.

(** a table entry [(start_line, end_line, filename, title)] *)
Definition entry : Type := (Z * Z * string * string)%type.

Definition e_start (e : entry) : Z := fst (fst (fst e)).
Definition e_end (e : entry) : Z := snd (fst (fst e)).
Definition e_filename (e : entry) : string := snd (fst e).
Definition e_title (e : entry) : string := snd e.

(** Python's [l[lo:hi]] for integers [lo] and [hi]: a negative index
    counts from the end, and both are clamped to the list *)
Definition slice_index {A : Type} (l : list A) (i : Z) : nat :=
  let n := Z.of_nat (List.length l) in
  if (i <? 0)%Z then Z.to_nat (Z.max (i + n) 0) else Z.to_nat (Z.min i n).

Definition slice {A : Type} (l : list A) (lo hi : Z) : list A :=
  let a := slice_index l lo in
  let b := slice_index l hi in
  firstn (b - a) (skipn a l).

(** [sections[i-1][2] if i > 0 else None] *)
Definition prev_page (sections : list entry) (i : nat) : option string :=
  if 0 <? i then option_map e_filename (nth_error sections (i - 1))
  else None.

(** [sections[i+1][2] if i < len(sections) - 1 else None] *)
Definition next_page (sections : list entry) (i : nat) : option string :=
  if (Z.of_nat i <? Z.of_nat (List.length sections) - 1)%Z
  then option_map e_filename (nth_error sections (i + 1))
  else None.

(** the truth value of [prev_page] and [next_page]: [None] and the empty
    string are false *)
Definition link_target (page : option string) : option string :=
  match page with
  | Some p => if Str.truthy p then Some p else None
  | None => None
  end.

(** the two link syntaxes the scripts use *)
Inductive style : Type :=
| Markdown                 (* split-pdf-spec.py: [text](page) *)
| WikiLinks.               (* the others: [[page|text]] *)

Definition prev_link (st : style) (prev : option string) : string :=
  match link_target prev with
  | Some p =>
      match st with
      | Markdown => "[← Previous](" ++ p ++ ")"
      | WikiLinks => "[[" ++ p ++ "|← Previous]]"
      end
  | None => "← Previous"
  end.

Definition index_link (st : style) (index_page : string) : string :=
  match st with
  | Markdown => " | [Index](" ++ index_page ++ ")"
  | WikiLinks => " | [[" ++ index_page ++ "|Index]]"
  end.

Definition next_link (st : style) (next : option string) : string :=
  match link_target next with
  | Some p =>
      match st with
      | Markdown => " | [Next →](" ++ p ++ ")"
      | WikiLinks => " | [[" ++ p ++ "|Next →]]"
      end
  | None => " | Next →"
  end.

Definition nl : string := String "010"%char EmptyString.

(** [nav_header], built by the successive [+=] of the source; [parent] is
    the "Part of" line, which split-pdf-spec.py does not have *)
Definition nav_header (st : style) (index_page : string)
           (parent : option string) (title : string)
           (prev next : option string) : string :=
  let h := "# " ++ title ++ nl ++ nl in
  let h := match parent with
           | Some parent_page =>
               h ++ ("> **Part of**: [[" ++ parent_page ++ "]]" ++ nl ++ nl)
           | None => h
           end in
  let h := h ++ "> **Navigation**: " in
  let h := h ++ prev_link st prev in
  let h := h ++ index_link st index_page in
  let h := h ++ next_link st next in
  h ++ (nl ++ nl ++ "---" ++ nl ++ nl).

Definition nav_footer (st : style) (index_page : string)
           (prev next : option string) : string :=
  let f := nl ++ nl ++ "---" ++ nl ++ nl in
  let f := f ++ "> **Navigation**: " in
  let f := f ++ prev_link st prev in
  let f := f ++ index_link st index_page in
  let f := f ++ next_link st next in
  f ++ nl.

Definition WIKI_DIR : string := "/home/marc/pdfe/wiki".

(** [os.path.join(WIKI_DIR, name)]: an absolute [name] replaces the
    directory *)
Definition wiki_path (name : string) : string :=
  if Str.startswith "/" name then name else WIKI_DIR ++ "/" ++ name.

(** one [write_wiki_page]: the path written and the text written to it,
    [nav_header], then [content], then [nav_footer] *)
Definition write_wiki_page (st : style) (index_page : string)
           (parent : option string) (filename title content : string)
           (prev next : option string) : string * string :=
  (wiki_path (filename ++ ".md"),
   nav_header st index_page parent title prev next
   ++ content
   ++ nav_footer st index_page prev next).

(** the loop [for i, (start, end, filename, title) in enumerate(sections)];
    [clamp] tells whether the script computes [min(end, total_lines)] *)
Definition page_content (clamp : bool) (lines : list string) (e : entry)
  : string :=
  let total_lines := Z.of_nat (List.length lines) in
  let actual_end := if clamp then Z.min (e_end e) total_lines else e_end e in
  Str.concat (slice lines (e_start e - 1) (actual_end - 1)).

Fixpoint split_loop (st : style) (index_page : string)
         (parent : option string) (clamp : bool) (lines : list string)
         (sections : list entry) (i : nat) (rest : list entry)
  : list (string * string) :=
  match rest with
  | [] => []
  | e :: rest' =>
      write_wiki_page st index_page parent (e_filename e) (e_title e)
                      (page_content clamp lines e)
                      (prev_page sections i) (next_page sections i)
      :: split_loop st index_page parent clamp lines sections (S i) rest'
  end.

(** the pages a splitter writes, in order *)
Definition split (st : style) (index_page : string) (parent : option string)
           (clamp : bool) (lines : list string) (sections : list entry)
  : list (string * string) :=
  split_loop st index_page parent clamp lines sections 0 sections.

End Wiki.

(** split-pdf-spec.py: Markdown links, no "Part of" line, no clamping *)
Module SplitPdfSpec.

Definition CHAPTERS : list Wiki.entry :=
  [ (1, 196, "PDF-Spec-Front-Matter", "PDF 1.7 Specification - Front Matter");
    (196, 208, "PDF-Spec-01-Scope", "PDF Spec Chapter 1: Scope");
    (208, 228, "PDF-Spec-02-Conformance", "PDF Spec Chapter 2: Conformance");
    (228, 404, "PDF-Spec-03-Normative-References",
     "PDF Spec Chapter 3: Normative References");
    (404, 700, "PDF-Spec-04-Terms-and-Definitions",
     "PDF Spec Chapter 4: Terms and Definitions");
    (700, 710, "PDF-Spec-05-Notation", "PDF Spec Chapter 5: Notation");
    (710, 714, "PDF-Spec-06-Version-Designations",
     "PDF Spec Chapter 6: Version Designations");
    (714, 3316, "PDF-Spec-07-Syntax", "PDF Spec Chapter 7: Syntax");
    (3316, 6309, "PDF-Spec-08-Graphics", "PDF Spec Chapter 8: Graphics");
    (6309, 7917, "PDF-Spec-09-Text", "PDF Spec Chapter 9: Text");
    (7917, 8482, "PDF-Spec-10-Rendering", "PDF Spec Chapter 10: Rendering");
    (8482, 9591, "PDF-Spec-11-Transparency",
     "PDF Spec Chapter 11: Transparency");
    (9591, 12501, "PDF-Spec-12-Interactive-Features",
     "PDF Spec Chapter 12: Interactive Features");
    (12501, 13876, "PDF-Spec-13-Multimedia-Features",
     "PDF Spec Chapter 13: Multimedia Features");
    (13876, 16141, "PDF-Spec-14-Document-Interchange",
     "PDF Spec Chapter 14: Document Interchange");
    (16141, 18369, "PDF-Spec-Annexes", "PDF Spec Annexes A-L") ]%Z.

Definition write_wiki_page (filename title content : string)
           (prev_page next_page : option string) : string * string :=
  Wiki.write_wiki_page Wiki.Markdown "PDF-Spec-Index" None
                       filename title content prev_page next_page.

(** the chapter loop of [main], for any table *)
Definition split_chapters (lines : list string) (chapters : list Wiki.entry)
  : list (string * string) :=
  Wiki.split Wiki.Markdown "PDF-Spec-Index" None false lines chapters.

Definition main (lines : list string) : list (string * string) :=
  split_chapters lines CHAPTERS.

End SplitPdfSpec.

(** split-pdf-spec-v2.py *)
Module SplitPdfSpecV2.

Definition CHAPTER_9_SECTIONS : list Wiki.entry :=
  [ (9, 142, "PDF-Spec-09-Organization", "9.1-9.2 Organization & Use of Fonts");
    (142, 348, "PDF-Spec-09-Text-State",
     "9.3 Text State Parameters & Operators");
    (348, 507, "PDF-Spec-09-Text-Objects", "9.4 Text Objects");
    (507, 800, "PDF-Spec-09-Fonts",
     "9.5-9.6 Font Data Structures & Simple Fonts");
    (800, 1100, "PDF-Spec-09-CIDFonts", "9.7 CIDFonts & Composite Fonts");
    (1100, 1400, "PDF-Spec-09-Font-Descriptors", "9.8 Font Descriptors");
    (1400, 1608, "PDF-Spec-09-Encoding",
     "9.9-9.10 Encoding & Text Extraction") ]%Z.

Definition write_wiki_page (filename title content : string)
           (prev_page next_page : option string) (parent_page : string)
  : string * string :=
  Wiki.write_wiki_page Wiki.WikiLinks "PDF-Spec-Index" (Some parent_page)
                       filename title content prev_page next_page.

Definition split_chapter_into_sections (lines : list string)
           (sections : list Wiki.entry) (chapter_name : string)
  : list (string * string) :=
  Wiki.split Wiki.WikiLinks "PDF-Spec-Index" (Some chapter_name) true
             lines sections.

End SplitPdfSpecV2.

(** split-pdf-spec-v3.py *)
Module SplitPdfSpecV3.

Definition CHAPTER_10_SECTIONS : list Wiki.entry :=
  [ (9, 52, "PDF-Spec-10-General", "10.1-10.2 General & CIE-Based Color");
    (52, 181, "PDF-Spec-10-Color-Conversions",
     "10.3-10.4 Color Conversions & Transfer Functions");
    (181, 550, "PDF-Spec-10-Halftones", "10.5 Halftones");
    (550, 800, "PDF-Spec-10-Scan-Conversion", "10.6 Scan Conversion") ]%Z.

Definition split_file (lines : list string) (sections : list Wiki.entry)
           (parent_name : string) : list (string * string) :=
  Wiki.split Wiki.WikiLinks "PDF-Spec-Index" (Some parent_name) true
             lines sections.

End SplitPdfSpecV3.

(** split-pdf20-spec.py *)
Module SplitPdf20Spec.

Definition split_chapters (lines : list string)
           (all_sections : list Wiki.entry) : list (string * string) :=
  Wiki.split Wiki.WikiLinks "PDF20-Spec-Index" (Some "PDF20-Spec-Index") true
             lines all_sections.

End SplitPdf20Spec.

(** split-pdf20-spec-v2.py *)
Module SplitPdf20SpecV2.

Definition CHAPTER_9_SECTIONS : list Wiki.entry :=
  [ (21413, 21435, "PDF20-Spec-09-General", "9.1 General");
    (21435, 21783, "PDF20-Spec-09-Organization",
     "9.2 Organization and Use of Fonts");
    (21783, 22143, "PDF20-Spec-09-Text-State", "9.3 Text State Parameters");
    (22143, 22524, "PDF20-Spec-09-Text-Objects", "9.4 Text Objects");
    (22524, 22655, "PDF20-Spec-09-Text-Strings", "9.5 Text Strings");
    (22655, 23759, "PDF20-Spec-09-Simple-Fonts", "9.6 Simple Fonts");
    (23759, 24931, "PDF20-Spec-09-Composite-Fonts", "9.7 Composite Fonts");
    (24931, 25619, "PDF20-Spec-09-Font-Descriptors", "9.8 Font Descriptors");
    (25619, 26177, "PDF20-Spec-09-Embedded-Fonts",
     "9.9-9.10 Embedded Fonts & Extraction") ]%Z.

Definition split_file (lines : list string) (sections : list Wiki.entry)
           (parent_name : string) : list (string * string) :=
  Wiki.split Wiki.WikiLinks "PDF20-Spec-Index" (Some parent_name) true
             lines sections.

End SplitPdf20SpecV2.

(** ** What a match is

    [Matches r u s c c'] reads: the pattern [r] matches the text [u] when
    [s] follows it, and turns the groups [c] into [c']. *)

Module ReSpec.
Import Re.

Inductive Matches : regex -> string -> string -> caps -> caps -> Prop :=
| MLit : forall l s c, Matches (Lit l) l s c c
| MCls : forall p a s c,
    p a = true -> Matches (Cls p) (String a EmptyString) s c c
| MSeq : forall r1 r2 u1 u2 s c c1 c2,
    Matches r1 u1 (u2 ++ s) c c1 ->
    Matches r2 u2 s c1 c2 ->
    Matches (Seq r1 r2) (u1 ++ u2) s c c2
| MAltL : forall r1 r2 u s c c',
    Matches r1 u s c c' -> Matches (Alt r1 r2) u s c c'
| MAltR : forall r1 r2 u s c c',
    Matches r2 u s c c' -> Matches (Alt r1 r2) u s c c'
| MStar0 : forall r s c, Matches (Star r) EmptyString s c c
| MStarS : forall r u1 u2 s c c1 c2,
    u1 <> EmptyString ->
    Matches r u1 (u2 ++ s) c c1 ->
    Matches (Star r) u2 s c1 c2 ->
    Matches (Star r) (u1 ++ u2) s c c2
| MGroup : forall n r u s c c',
    Matches r u s c c' -> Matches (Group n r) u s c ((n, u) :: c')
| MNegLook : forall r s c,
    exec r s c ret = None -> Matches (NegLook r) EmptyString s c c.

(** [r] matches somewhere in [s]: [s = pre ++ u ++ post] *)
Definition occurs (r : regex) (s : string) : Prop :=
  exists pre u post c, s = pre ++ u ++ post /\ Matches r u post [] c.

End ReSpec.

(** ** The words of the specification *)

Module Spec.

(** the lines of a document with their 1-indexed numbers *)
Fixpoint number_from (k : Z) (lines : list string) : list (Z * string) :=
  match lines with
  | [] => []
  | x :: rest => (k, x) :: number_from (k + 1) rest
  end.

(** lines [a] through [b] of the document, 1-indexed, in order *)
Definition source_lines (lines : list string) (a b : Z) : list string :=
  map snd
      (filter (fun p => (a <=? fst p)%Z && (fst p <=? b)%Z)
              (number_from 1 lines)).

(** a sequence of successive regular-expression substitutions *)
Definition successive_subs (subs : list (Re.regex * Re.template))
           (content : string) : string :=
  fold_left (fun c pr => Re.sub (fst pr) (snd pr) c) subs content.

(** an argument of a call: non-empty, without a comma *)
Definition is_arg (s : string) : bool :=
  Str.truthy s && Str.forallb (Re.not_char ","%char) s.

(** white space, possibly none *)
Definition is_ws (s : string) : bool := Str.forallb Str.is_space s.

(** a digit string *)
Definition is_number (s : string) : bool :=
  Str.truthy s && Str.forallb Str.is_digit s.

(** an identifier: a letter or underscore, then letters, digits and
    underscores *)
Definition is_identifier (s : string) : bool :=
  match s with
  | EmptyString => false
  | String a s' => Re.ident_start a && Str.forallb Re.ident_char s'
  end.

(** a call [.RedactArea(arg1, arg2, renderDpi: N)], with the white space
    [w1], [w2], [w3] after the commas and the colon *)
Definition renderdpi_call (arg1 w1 arg2 w2 w3 n : string) : string :=
  ".RedactArea(" ++ arg1 ++ "," ++ w1 ++ arg2 ++ "," ++ w2
  ++ "renderDpi:" ++ w3 ++ n ++ ")".

(** the call [.RedactArea(arg1, arg2, P, renderDpi: N)] *)
Definition fixed_call (arg1 arg2 path_var n : string) : string :=
  ".RedactArea(" ++ arg1 ++ ", " ++ arg2 ++ ", " ++ path_var
  ++ ", renderDpi: " ++ n ++ ")".

(** the last line of a page: the clamping splitters stop before
    [min(end, L)], split-pdf-spec.py stops before [end] or at the last
    line [L] *)
Definition last_line (clamp : bool) (total_lines : Z) (e : Wiki.entry) : Z :=
  if clamp then (Z.min (Wiki.e_end e) total_lines - 1)%Z
  else Z.min (Wiki.e_end e - 1) total_lines.

(** a Previous link that names [page] *)
Definition previous_link (st : Wiki.style) (page : string) : string :=
  match st with
  | Wiki.Markdown => "[← Previous](" ++ page ++ ")"
  | Wiki.WikiLinks => "[[" ++ page ++ "|← Previous]]"
  end.

(** a Next link that names [page], with the separator before it *)
Definition next_link (st : Wiki.style) (page : string) : string :=
  match st with
  | Wiki.Markdown => " | [Next →](" ++ page ++ ")"
  | Wiki.WikiLinks => " | [[" ++ page ++ "|Next →]]"
  end.

(** the "Part of" line of the header, for the scripts that write one *)
Definition part_of (parent : option string) : string :=
  match parent with
  | Some parent_page =>
      "> **Part of**: [[" ++ parent_page ++ "]]" ++ Wiki.nl ++ Wiki.nl
  | None => EmptyString
  end.

(** the rule between the navigation and the body *)
Definition rule : string := Wiki.nl ++ Wiki.nl ++ "---" ++ Wiki.nl ++ Wiki.nl.

End Spec.

(** ** The rest of the scripts: the loops of [main] over a fixed list of
    files, the end of phase 2, and [readlines]

    As above, a file system holds the sources of the project and their
    backups.  The log that a script appends to under [logs/] and the files
    that a build writes are not part of it, and a build is known by its
    outcome only. *)

(** fix_redactarea_phase2.py, [main] after the patching: the second build
    and the backups *)
Module Phase2Main.
Import FixRedactAreaCalls.

Section Main.

(** [TEST_DIR] as a string, and the three operations of [pathlib] that
    [Phase2] takes as given *)
Variable test_dir : string.
Variable test_dir_join : string -> string.
Variable sorted : list string -> list string.
Variable relative_to_root : string -> option string.

(** [TEST_DIR.rglob('*.phase2.bak')] *)
Definition is_backup (p : string) : bool :=
  Fs.under test_dir p && Str.endswith ".phase2.bak" p.

Definition remove_backups (f : Fs.fs) : Fs.fs :=
  fold_left (fun g backup => Fs.remove backup g)
            (filter is_backup (map fst f)) f.

(** [main]: the file system and the value returned; [None] when an
    exception leaves [main], which catches none: the first build cannot be
    run, [relative_to] raises, the second build cannot be run or exceeds
    its timeout *)
Definition main (f : Fs.fs) (first second : build_outcome)
  : option (Fs.fs * nat) :=
  match first with
  | Exited _ stderr =>
      match Phase2.patch_phase test_dir_join sorted relative_to_root
                               f stderr with
      | Some (g, _, _) =>
          match second with
          | Exited returncode _ =>
              if Z.eqb returncode 0 then Some (remove_backups g, 0)
              else Some (g, 1)
          | TimeoutExpired => None
          | Raised => None
          end
      | None => None
      end
  | TimeoutExpired => None
  | Raised => None
  end.

End Main.

End Phase2Main.

(** fix_redactarea_phase3.py, [main] *)
Module Phase3Main.

Section Main.
Variable project_root : string.

Definition TEST_DIR : string := project_root ++ "/PdfEditor.Tests".

Definition files : list string :=
  [ "Security/ContentRemovalVerificationTests.cs";
    "Integration/BlindRedactionVerificationTests.cs";
    "Integration/ContentStreamConsolidationTests.cs";
    "Integration/ExcessiveRedactionTests.cs";
    "Integration/ExternalToolRedactionValidationTests.cs";
    "Integration/ForensicRedactionVerificationTests.cs";
    "Integration/BlackBoxRedactionTests.cs";
    "Integration/VisualCoordinateVerificationTests.cs";
    "Integration/PreciseRedactionTests.cs";
    "Integration/SpecializedRedactionTests.cs";
    "UI/ViewModelIntegrationTests.cs" ].

(** [TEST_DIR / rel_path] for a relative path *)
Definition path_of (rel_path : string) : string :=
  TEST_DIR ++ "/" ++ rel_path.

(** [sum(1 for a, b in zip(original.split('\n'), fixed.split('\n'))
    if a != b)] *)
Definition changes (original fixed : string) : nat :=
  List.length
    (filter (fun ab => negb (String.eqb (fst ab) (snd ab)))
            (combine (Str.split "010"%char original)
                     (Str.split "010"%char fixed))).

(** the body of the loop, on the file system and [total_fixes]: a file
    that does not exist is passed over *)
Definition step (st : Fs.fs * nat) (rel_path : string) : Fs.fs * nat :=
  let '(g, total_fixes) := st in
  let file_path := path_of rel_path in
  if negb (Fs.exists_ file_path g) then (g, total_fixes)
  else
    match Fs.read file_path g with
    | Some original =>
        let fixed := Phase3.fix_content original in
        if negb (String.eqb fixed original)
        then (Fs.write file_path fixed
                       (Fs.write (file_path ++ ".p3.bak") original g),
              total_fixes + changes original fixed)
        else (g, total_fixes)
    | None => (g, total_fixes)
    end.

Definition main (f : Fs.fs) : Fs.fs * nat := fold_left step files (f, 0).

End Main.

End Phase3Main.

(** fix_redactarea_phase4.py, [main] *)
Module Phase4Main.

Section Main.
Variable project_root : string.

Definition TEST_DIR : string := project_root ++ "/PdfEditor.Tests".

Definition files_to_fix : list string :=
  [ "Integration/VisualCoordinateVerificationTests.cs";
    "UI/ViewModelIntegrationTests.cs";
    "Integration/CoordinateConversionTests.cs";
    "Integration/VeraPdfConformanceTests.cs";
    "UI/MouseEventSimulationTests.cs";
    "Integration/ComprehensiveRedactionTests.cs";
    "Integration/TextExtractionAfterRedactionTests.cs";
    "Integration/FormXObjectRedactionTests.cs";
    "Integration/GlyphRemovalVerificationTests.cs";
    "Integration/OriginalFileProtectionTests.cs";
    "Integration/GuiRedactionSimulationTests.cs";
    "Integration/Pdf20SupportTests.cs";
    "Integration/InlineImageRedactionTests.cs";
    "Integration/SelectiveInstanceRedactionTests.cs";
    "Integration/SearchAndRedactTests.cs";
    "Integration/Pdf17SupportTests.cs";
    "Integration/MetadataSanitizationTests.cs" ].

Definition path_of (rel_path : string) : string :=
  TEST_DIR ++ "/" ++ rel_path.

Definition changes := Phase3Main.changes.

Definition step (st : Fs.fs * nat) (rel_path : string) : Fs.fs * nat :=
  let '(g, total_fixes) := st in
  let file_path := path_of rel_path in
  if negb (Fs.exists_ file_path g) then (g, total_fixes)
  else
    match Fs.read file_path g with
    | Some original =>
        let fixed := Phase4.fix_content original in
        if negb (String.eqb fixed original)
        then (Fs.write file_path fixed
                       (Fs.write (file_path ++ ".p4.bak") original g),
              total_fixes + changes original fixed)
        else (g, total_fixes)
    | None => (g, total_fixes)
    end.

Definition main (f : Fs.fs) : Fs.fs * nat :=
  fold_left step files_to_fix (f, 0).

End Main.

End Phase4Main.

(** fix_all_redactarea_final.py, [main]: the file system and
    [total_fixes] *)
Module FixAllFinalMain.

Section Main.
Variable project_root : string.

Definition TEST_DIR : string := project_root ++ "/PdfEditor.Tests".

Definition files_to_fix : list string :=
  [ "Integration/BlackBoxRedactionTests.cs";
    "Integration/BlindRedactionVerificationTests.cs";
    "Integration/CharacterLevelRedactionTests.cs";
    "Integration/ComprehensiveRedactionTests.cs";
    "Integration/ContentStreamConsolidationTests.cs";
    "Integration/CoordinateConversionTests.cs";
    "Integration/ExcessiveRedactionTests.cs";
    "Integration/ExternalToolRedactionValidationTests.cs";
    "Integration/ForensicRedactionVerificationTests.cs";
    "Integration/GlyphRemovalVerificationTests.cs";
    "Integration/GuiRedactionSimulationTests.cs";
    "Integration/InlineImageRedactionTests.cs";
    "Integration/MetadataSanitizationTests.cs";
    "Integration/OriginalFileProtectionTests.cs";
    "Integration/Pdf17SupportTests.cs";
    "Integration/Pdf20SupportTests.cs";
    "Integration/PdfConformanceTests.cs";
    "Integration/PreciseRedactionTests.cs";
    "Integration/RedactionCoordinateSystemTests.cs";
    "Integration/RedactionIntegrationTests.cs";
    "Integration/SelectiveInstanceRedactionTests.cs";
    "Integration/SpecializedRedactionTests.cs";
    "Integration/TextExtractionAfterRedactionTests.cs";
    "Integration/VeraPdfConformanceTests.cs";
    "Integration/VisualCoordinateVerificationTests.cs";
    "Security/ContentRemovalVerificationTests.cs";
    "UI/MouseEventSimulationTests.cs";
    "UI/ViewModelIntegrationTests.cs" ].

Definition path_of (rel_path : string) : string :=
  TEST_DIR ++ "/" ++ rel_path.

Definition step (st : Fs.fs * nat) (rel_path : string) : Fs.fs * nat :=
  let '(g, total_fixes) := st in
  let file_path := path_of rel_path in
  if negb (Fs.exists_ file_path g) then (g, total_fixes)
  else
    let '(g', fixes) := FixAllFinal.fix_file g file_path in
    if 0 <? fixes then (g', total_fixes + fixes) else (g', total_fixes).

Definition main (f : Fs.fs) : Fs.fs * nat :=
  fold_left step files_to_fix (f, 0).

End Main.

End FixAllFinalMain.

(** [read_lines] and [read_file] of the splitters: [f.readlines()] on the
    text of a file as Python reads it, with every line end a newline
    character; every line keeps its newline, the last line has one only
    if the text ends with one *)
Module Lines.

Fixpoint readlines (s : string) : list string :=
  match s with
  | EmptyString => []
  | String a s' =>
      if Ascii.eqb a "010"%char then String a EmptyString :: readlines s'
      else match readlines s' with
           | [] => [String a EmptyString]
           | l :: ls => String a l :: ls
           end
  end.

End Lines.

(** ** Files as bytes

    Above, a file is the text that [read()] returns and [write()]
    receives.  On disk a file is bytes.  [open(p, 'r', encoding='utf-8')]
    reads in text mode with universal newlines: the line ends CR LF and
    CR are translated to LF.  [open(p, 'w', encoding='utf-8')], on a
    system whose line separator is LF, writes the text as it is.  The
    encoding is left aside: a text stands for its bytes. *)
Module OnDisk.

Definition CR : ascii := "013"%char.
Definition LF : ascii := "010"%char.

(** the translation of line ends when a file is read in text mode *)
Fixpoint universal_newlines (bytes : string) : string :=
  match bytes with
  | EmptyString => EmptyString
  | String a rest =>
      if Ascii.eqb a CR then
        match rest with
        | String b rest' =>
            if Ascii.eqb b LF then String LF (universal_newlines rest')
            else String LF (universal_newlines rest)
        | EmptyString => String LF EmptyString
        end
      else String a (universal_newlines rest)
  end.

(** [open(p, 'r', encoding='utf-8').read()] on the files of a disk *)
Definition read_text (p : string) (disk : Fs.fs) : option string :=
  option_map universal_newlines (Fs.read p disk).

(** fix_redactarea_calls.py, [fix_redactarea_calls(file_path)] *)
Definition fix_redactarea_calls (disk : Fs.fs) (file_path : string)
  : Fs.fs * (nat * nat) :=
  match read_text file_path disk with
  | None => (disk, (0, 1))
  | Some original_content =>
      let '(content, total_fixes) :=
        FixRedactAreaCalls.fix_content original_content in
      if String.eqb content original_content then (disk, (0, 0))
      else
        let backup_path := file_path ++ ".bak" in
        (Fs.write file_path content
                  (Fs.write backup_path original_content disk),
         (total_fixes, 0))
  end.

(** fix_redactarea_phase2.py, [fix_file(file_path)] *)
Definition phase2_fix_file (disk : Fs.fs) (file_path : string)
  : Fs.fs * nat :=
  match read_text file_path disk with
  | None => (disk, 0)
  | Some content =>
      let path_var := Phase2.find_path_variable content in
      let matches := Phase2.spans 0 (Re.finditer Phase2.pattern content) in
      match matches with
      | [] => (disk, 0)
      | _ =>
          let backup_path := file_path ++ ".phase2.bak" in
          let g := Fs.write backup_path content disk in
          (Fs.write file_path (Phase2.replace_all path_var matches content) g,
           List.length matches)
      end
  end.

(** fix_redactarea_phase3.py, the body of the loop of [main] for one
    existing file *)
Definition phase3_process_file (disk : Fs.fs) (file_path : string) : Fs.fs :=
  match read_text file_path disk with
  | None => disk
  | Some original =>
      let fixed := Phase3.fix_content original in
      if negb (String.eqb fixed original) then
        Fs.write file_path fixed
                 (Fs.write (file_path ++ ".p3.bak") original disk)
      else disk
  end.

(** fix_redactarea_phase4.py, the body of the loop of [main] for one
    existing file *)
Definition phase4_process_file (disk : Fs.fs) (file_path : string) : Fs.fs :=
  match read_text file_path disk with
  | None => disk
  | Some original =>
      let fixed := Phase4.fix_content original in
      if negb (String.eqb fixed original) then
        Fs.write file_path fixed
                 (Fs.write (file_path ++ ".p4.bak") original disk)
      else disk
  end.

(** fix_all_redactarea_final.py, [fix_file(file_path)] *)
Definition final_fix_file (disk : Fs.fs) (file_path : string)
  : Fs.fs * nat :=
  match read_text file_path disk with
  | None => (disk, 0)
  | Some content =>
      let original_content := content in
      let path_var := FixAllFinal.find_path_variables content in
      let '(new_content, fixes) := FixAllFinal.transform path_var content in
      if fixes =? 0 then (disk, 0)
      else
        let backup_path := file_path ++ ".final.bak" in
        (Fs.write file_path new_content
                  (Fs.write backup_path original_content disk),
         fixes)
  end.

End OnDisk.

(** * Notions used in the statements and their proofs *)

Module ReProps.
Import Re ReSpec.

(** a run of the matcher that ends with a result *)
Definition succeeds (o : option result) : Prop := exists res, o = Some res.

End ReProps.

Module FinderProps.
Import Re ReSpec ReProps.

(** the variable a pattern of the finders captures is an identifier *)
Definition captures_identifier (pattern : regex) : Prop :=
  forall s m, search pattern s = Some m ->
              Spec.is_identifier (m_group m 1) = true.

(** the guard of phases 3 and 4 on a captured name, negated *)
Definition rejected (var : string) : bool :=
  negb (negb (Str.contains "redacted" (Str.lower var))
        && negb (Str.contains "output" (Str.lower var))).

(** a name a finder may return *)
Definition acceptable (v : string) : Prop :=
  Spec.is_identifier v = true
  /\ Str.contains "redacted" (Str.lower v) = false
  /\ Str.contains "output" (Str.lower v) = false.

(** no pattern of the list yields a variable that passes the guard *)
Definition no_candidate (pats : list regex) (content : string) : Prop :=
  forall p m, In p pats -> search p content = Some m ->
              Str.contains "redacted" (Str.lower (m_group m 1))
              || Str.contains "output" (Str.lower (m_group m 1)) = true.

End FinderProps.

Module WikiProps.
Import Wiki.

(** the test of [Spec.source_lines] on a numbered line *)
Definition in_range (a b : Z) (p : Z * string) : bool :=
  ((a <=? fst p)%Z && (fst p <=? b)%Z).

(** a document of four lines and a table of two entries that share the
    boundary 3 *)
Definition abcd : list string := ["a"; "b"; "c"; "d"].
Definition two_pages : list entry :=
  [ (1, 3, "One", "First"); (3, 9, "Two", "Second") ]%Z.

End WikiProps.

Module NavProps.
Import Wiki WikiProps.

(** the navigation of the pages written for a table: the page of entry
    [i] is its title, the line [part], the navigation line, the rule, a
    body, the rule and the same navigation line again; the navigation
    line holds the link [index] between what stands for Previous and what
    stands for Next, which are plain text on the first and on the last
    page and else the links [previous_to] and [next_to] of the file of
    the entry before and of the entry after *)
Definition carries_navigation (pages : list (string * string))
           (sections : list entry) (part : string)
           (previous_to next_to : string -> string) (index : string)
  : Prop :=
  forall (i : nat) (e : entry),
    nth_error sections i = Some e ->
    exists previous next nav body : string,
      nth_error pages i
      = Some (wiki_path (e_filename e ++ ".md"),
              ("# " ++ e_title e ++ nl ++ nl ++ part ++ nav ++ Spec.rule)
              ++ body
              ++ (Spec.rule ++ nav ++ nl))
      /\ nav = "> **Navigation**: " ++ previous ++ index ++ next
      /\ (i = 0 -> previous = "← Previous")
      /\ (forall j p, i = S j -> nth_error sections j = Some p ->
                      previous = previous_to (e_filename p))
      /\ (S i = List.length sections -> next = " | Next →")
      /\ (forall n, nth_error sections (S i) = Some n ->
                    next = next_to (e_filename n)).

(** a table of two sections *)
Definition two_sections : list entry :=
  [ (9, 52, "PDF-Spec-10-General", "General");
    (52, 181, "PDF-Spec-10-Color", "Color") ]%Z.

End NavProps.

Module GreedyProps.
Import Re ReSpec ReProps.

(** the longest prefix of [s] in the class [p] is passed over *)
Fixpoint skip (p : ascii -> bool) (s : string) : string :=
  match s with
  | EmptyString => EmptyString
  | String a s' => if p a then skip p s' else s
  end.

(** a continuation that accepts whatever is left *)
Definition total (k : cont) : Prop := forall s c, k s c <> None.

(** after a final group [(.* )] nothing of its class is left at the head
    of the rest *)
Definition stops (p : ascii -> bool) (s : string) : Prop :=
  match s with
  | EmptyString => True
  | String a _ => p a = false
  end.

(** two continuations that succeed on the same rests, whatever the
    groups *)
Definition same_success (k1 k2 : cont) : Prop :=
  forall s c1 c2, succeeds (k1 s c1) <-> succeeds (k2 s c2).

(** the pattern ends with a group [(.* )] *)
Fixpoint ends_with_dots (r : regex) : Prop :=
  match r with
  | Seq _ r2 => ends_with_dots r2
  | Group _ (Star (Cls p)) => p = dot
  | _ => False
  end.

End GreedyProps.

Module FinalProps.
Import Re ReSpec ReProps GreedyProps FixAllFinal.

(** the newline character *)
Definition nl : ascii := "010"%char.

(** a line holds the call [.RedactArea(arg1, arg2, renderDpi: n)] between
    [pre] and [post] *)
Definition has_renderdpi_call (line pre arg1 arg2 n post : string) : Prop :=
  exists w1 w2 w3,
    line = pre ++ Spec.renderdpi_call arg1 w1 arg2 w2 w3 n ++ post
    /\ Spec.is_arg arg1 = true /\ Spec.is_arg arg2 = true
    /\ Spec.is_ws w1 = true /\ Spec.is_ws w2 = true /\ Spec.is_ws w3 = true
    /\ Spec.is_number n = true.

(** the three ways [fix_line] ends: the line as it is, the call with
    [renderDpi:] rewritten, the call with a positional DPI rewritten *)
Inductive fix_line_case (path_var line : string) : string * nat -> Prop :=
| Untouched : fix_line_case path_var line (line, 0)
| RenderDpi : forall m,
    is_call_line line = true -> already_fixed path_var line = false ->
    search pattern_renderdpi line = Some m ->
    fix_line_case path_var line
      (m_group m 1 ++ ".RedactArea(" ++ m_group m 2 ++ ", " ++ m_group m 3
       ++ ", " ++ path_var ++ ", renderDpi: " ++ m_group m 4 ++ ")"
       ++ m_group m 5, 1)
| Positional : forall m,
    is_call_line line = true -> already_fixed path_var line = false ->
    search pattern_renderdpi line = None ->
    search pattern_positional line = Some m ->
    fix_line_case path_var line
      (m_group m 1 ++ ".RedactArea(" ++ m_group m 2 ++ ", " ++ m_group m 3
       ++ ", " ++ path_var ++ ", " ++ m_group m 4 ++ ")" ++ m_group m 5, 1).

End FinalProps.

Module FrameProps.
Import Re ReSpec ReProps GreedyProps FinalProps.

(** a line that declares a method and calls the patched one: with a call
    of two arguments, with a [renderDpi:] argument, and with an inline
    rectangle *)
Definition declaring_test : string :=
  "public void RedactArea_Works() => svc.RedactArea(page, area);".
Definition declaring_dpi : string :=
  "public void RedactArea(Page p, Rect a) { impl.RedactArea(p, a, renderDpi: 72); }".
Definition declaring_rect : string :=
  "public void RedactArea_Works() => svc.RedactArea(page, new Rect(1, 2, 3, 4));".

(** contents of two lines: a call head on the first line and, on the
    second, a declaration without a dotted call *)
Definition head_then_number : string :=
  "x.RedactArea(a" ++ String "010"%char "void RedactArea(b,c,1)".
Definition head_then_pair : string :=
  "x.RedactArea(a" ++ String "010"%char "void RedactArea(b, c)".
Definition head_then_rect : string :=
  "x.RedactArea(a" ++ String "010"%char "void RedactArea(b, new Rect(1));".

(** the second line of a content *)
Definition second_line (content : string) : string :=
  nth 1 (Str.split "010"%char content) "".

End FrameProps.

Module CallProps.
Import Re ReSpec ReProps GreedyProps FinderProps FinalProps FrameProps
  FixRedactAreaCalls.

(** the head of a call *)
Definition head : string := ".RedactArea(".

(** a call [.RedactArea(arg1, arg2, renderDpi: n)] with the white space
    after its commas and its colon *)
Record call : Type := Call {
  c_arg1 : string;
  c_w1 : string;
  c_arg2 : string;
  c_w2 : string;
  c_w3 : string;
  c_n : string
}.

Definition call_text (c : call) : string :=
  Spec.renderdpi_call (c_arg1 c) (c_w1 c) (c_arg2 c) (c_w2 c) (c_w3 c)
                      (c_n c).

(** the call with the path variable as its third argument *)
Definition call_fixed (path_var : string) (c : call) : string :=
  Spec.fixed_call (c_arg1 c) (c_arg2 c) path_var (c_n c).

(** the two arguments are arguments that start with no white space and
    hold no call head, and the number is a number *)
Definition plain_call (c : call) : Prop :=
  Spec.is_arg (c_arg1 c) = true /\ Spec.is_arg (c_arg2 c) = true
  /\ Spec.is_ws (c_w1 c) = true /\ Spec.is_ws (c_w2 c) = true
  /\ Spec.is_ws (c_w3 c) = true /\ Spec.is_number (c_n c) = true
  /\ Str.lstrip (c_arg1 c) = c_arg1 c /\ Str.lstrip (c_arg2 c) = c_arg2 c
  /\ Str.contains head (c_arg1 c) = false
  /\ Str.contains head (c_arg2 c) = false.

(** the content [text call_1 text_1 ... call_k text_k], each call written
    by [render] *)
Fixpoint with_calls (render : call -> string) (text : string)
         (calls : list (call * string)) : string :=
  match calls with
  | [] => text
  | (c, t) :: rest => text ++ render c ++ with_calls render t rest
  end.

(** every call head of the content is the head of one of the calls *)
Definition no_other_head (text : string) (calls : list (call * string))
  : Prop :=
  Str.contains head text = false
  /\ Forall (fun ct => plain_call (fst ct)
                       /\ Str.contains head (snd ct) = false) calls.

(** three calls in a test *)
Definition three_calls : list (call * string) :=
  [ (Call "page" " " "area" " " " " "150", ";" ++ String "010"%char "a");
    (Call "p" "" "r " "  " "" "72", "; b");
    (Call "page2" " " "new Rect(1)" " " " " "300", ";") ].

(** the pattern [r] matches nothing but texts that start with [l] *)
Definition starts_with (l : string) (r : regex) : Prop :=
  forall s c k, prefix l s = false -> exec r s c k = None.

(** the text of a rewritten call after its first character *)
Definition fixed_tail (path_var : string) (c : call) : string :=
  "RedactArea(" ++ c_arg1 c ++ ", " ++ c_arg2 c ++ ", " ++ path_var
  ++ ", renderDpi: " ++ c_n c ++ ")".

(** the pattern [r] does not match at a rewritten call *)
Definition not_at_fixed (path_var : string) (r : regex) : Prop :=
  forall c post text after cs,
    plain_call c ->
    call_fixed path_var c ++ post = text ++ after ->
    Matches r text after [] cs -> False.

End CallProps.

Module WriteProps.
Import Re ReSpec ReProps GreedyProps FinalProps FrameProps.

(** one of the patterns of a patcher occurs: in the content for the
    patchers that substitute over the content, in one of its lines for
    the patchers that work line by line *)
Definition calls_pattern_occurs (content : string) : Prop :=
  occurs FixRedactAreaCalls.pattern1 content
  \/ occurs FixRedactAreaCalls.pattern2 content.

Definition phase3_pattern_occurs (content : string) : Prop :=
  occurs Phase3.pattern1 content \/ occurs Phase3.pattern2 content
  \/ occurs Phase3.pattern3 content.

Definition final_pattern_occurs (content : string) : Prop :=
  exists line,
    In line (Str.split nl content)
    /\ (occurs FixAllFinal.pattern_renderdpi line
        \/ occurs FixAllFinal.pattern_positional line).

Definition phase4_line_occurs (line : string) : Prop :=
  occurs Phase4.pattern1 line \/ occurs Phase4.pattern2 line
  \/ occurs Phase4.pattern3 line \/ occurs Phase4.pattern4 line
  \/ occurs Phase4.pattern5 line.

Definition phase4_pattern_occurs (content : string) : Prop :=
  exists line, In line (Str.split nl content) /\ phase4_line_occurs line.

End WriteProps.

Module Phase2Props.
Import Re ReSpec ReProps GreedyProps FinderProps FinalProps FrameProps
  WriteProps.

(** the text between the matches, with [f m] in place of each match *)
Fixpoint rebuild (f : match_obj -> string) (ms : list match_obj)
         (tail : string) : string :=
  match ms with
  | [] => tail
  | m :: rest => m_before m ++ f m ++ rebuild f rest tail
  end.

(** the pattern has no empty match *)
Definition never_empty (r : regex) : Prop :=
  forall s m, search r s = Some m -> m_text m <> "".

Definition phase2_pattern_occurs (content : string) : Prop :=
  occurs Phase2.pattern content.

End Phase2Props.

Module PatchProps.
Import Re ReSpec ReProps GreedyProps FinderProps FinalProps FrameProps
  CallProps WriteProps Phase2Props.

(** a patcher writes the source file only with a new content and after a
    backup of the original text, and only when one of its patterns
    occurs: [f] is the disk before the call and [g] the disk after it *)
Definition writes_on_change (suffix : string) (pattern_occurs : string -> Prop)
           (f g : Fs.fs) (file_path original : string) : Prop :=
  (g = f
   \/ exists content,
        content <> original
        /\ pattern_occurs original
        /\ g = Fs.write file_path content
                        (Fs.write (file_path ++ suffix) original f))
  /\ (~ pattern_occurs original -> g = f).

(** a test directory with a file to patch and a file without a call *)
Definition one_test : Fs.fs :=
  [ ("T/A.cs", "svc.RedactArea(page, area, renderDpi: 150);");
    ("T/B.cs", "int x = 1;") ].

(** the same file to patch, with the line ends of another system *)
Definition crlf_test : Fs.fs :=
  [ ("T/A.cs",
     "svc.RedactArea(page, area, renderDpi: 150);"
       ++ String OnDisk.CR (String OnDisk.LF ""));
    ("T/R.cs",
     "svc.RedactArea(page, new Rect(1, 2, 3, 4));"
       ++ String OnDisk.CR (String OnDisk.LF "")) ].

(** no match of [r] in [s] starts before the end of [before] *)
Definition leftmost (r : regex) (before s : string) : Prop :=
  forall pre u post c,
    s = pre ++ u ++ post -> Matches r u post [] c ->
    String.length before <= String.length pre.

(** a regular-expression substitution: from left to right, each match of
    [r] that starts first in the text that remains is replaced by what
    [f] makes of it, and the text between the matches is kept *)
Inductive Substituted (r : regex) (f : match_obj -> string)
  : string -> string -> Prop :=
| Subst_done : forall s, ~ occurs r s -> Substituted r f s s
| Subst_match : forall before text after cs rest,
    Matches r text after [] cs ->
    text <> "" ->
    leftmost r before (before ++ text ++ after) ->
    Substituted r f after rest ->
    Substituted r f (before ++ text ++ after)
                (before ++ f (MkMatch before text after cs) ++ rest).

(** a file with one call of two arguments *)
Definition two_argument_test : Fs.fs :=
  [ ("T/A.cs", "var pdfPath = 1; s.RedactArea(a, b);") ].

End PatchProps.

Module BuildProps.
Import Fs FixRedactAreaCalls.

(** a project with a file to patch and a file without a call *)
Definition two_files : fs :=
  [ ("/p/PdfEditor.Tests/A.cs", "svc.RedactArea(page, area, renderDpi: 150);");
    ("/p/PdfEditor.Tests/B.cs", "int x = 1;") ].

End BuildProps.

Module ErrorFileProps.
Import Re ReSpec ReProps FinderProps CallProps Phase2.

(** the name of a C# source file in the output of the build: it ends with
    '.cs', after a stem that is not empty and has no colon *)
Definition cs_name (name : string) : Prop :=
  exists stem,
    name = stem ++ ".cs" /\ stem <> "" /\ Str.count ":"%char stem = 0.

(** after the text [before], the line holds the location
    [name(row,col):] of a C# source file *)
Definition located (line before name after : string) : Prop :=
  exists row col,
    line = before ++ name ++ "(" ++ row ++ "," ++ col ++ "):" ++ after
    /\ cs_name name
    /\ Spec.is_number row = true /\ Spec.is_number col = true.

(** the file that a line names: the file of the location that starts
    first in the line *)
Definition names (line name : string) : Prop :=
  exists before after,
    located line before name after
    /\ forall before' name' after',
         located line before' name' after' ->
         String.length before <= String.length before'.

(** a line of the captured error output that has both error texts and
    names the file [name] *)
Definition names_file (stderr line name : string) : Prop :=
  In line (Str.split "010"%char stderr)
  /\ Str.contains "error CS7036" line = true
  /\ Str.contains "RedactArea" line = true
  /\ names line name.

(** the calls of [fix_file] on the paths of [done], in order *)
Definition fix_each (done : list string) (f : Fs.fs) : Fs.fs :=
  fold_left (fun g file_path => fst (fix_file g file_path)) done f.

(** stand-ins for [pathlib] in the example *)
Definition join_example (file_name : string) : string :=
  "/p/PdfEditor.Tests/" ++ file_name.
Definition sorted_example (l : list string) : list string := l.
Definition relative_example (file_path : string) : option string :=
  if Str.startswith "/p/" file_path then Some (Str.drop 3 file_path)
  else None.
Definition stderr_example : string :=
  "A.cs(3,9): error CS7036: no argument given for RedactArea" ++ String "010"%char
  "A.cs(7,9): error CS7036: no argument given for RedactArea" ++ String "010"%char
  "B.cs(1,1): error CS0103: the name x does not exist".
Definition tests_example : Fs.fs :=
  [ ("/p/PdfEditor.Tests/A.cs", "svc.RedactArea(page, area);");
    ("/p/PdfEditor.Tests/B.cs", "svc.RedactArea(page, area);") ].

End ErrorFileProps.

Module FinalLineProps.
Import Re ReSpec ReProps GreedyProps FinderProps FinalProps FrameProps
  CallProps WriteProps FixAllFinal.

(** the three names [find_path_variables] refuses *)
Definition refused : list string := ["redactedPath"; "outputPath"; "output"].

End FinalLineProps.

Module Phase2RunProps.
Import Re ReSpec ReProps GreedyProps FinderProps FinalProps FrameProps
  WriteProps Phase2Props Fs.

(** a file system with one test to patch *)
Definition one_call : fs :=
  [ ("/p/PdfEditor.Tests/A.cs",
     "var pdfPath = f; svc.RedactArea(page, area); done();") ].

(** the error output of a first build that names the test *)
Definition one_error : string :=
  "/p/PdfEditor.Tests/A.cs(3,9): error CS7036: no argument for RedactArea".

End Phase2RunProps.

Module LoopProps.
Import Fs.

(** the loop body on the file system: a file that does not exist is
    passed over *)
Definition pass (process : fs -> string -> fs) (g : fs) (file_path : string)
  : fs :=
  if negb (exists_ file_path g) then g else process g file_path.

(** what is counted for a file: [count] of its text, nothing when it
    does not exist *)
Definition counted (count : string -> nat) (g : fs) (q : string) : nat :=
  match read q g with Some c => count c | None => 0 end.

(** the loop body with its counter *)
Definition turn (process : fs -> string -> fs) (count : string -> nat)
           (st : fs * nat) (q : string) : fs * nat :=
  (pass process (fst st) q, snd st + counted count (fst st) q).

(** in a list of relative paths, none is another one followed by the
    suffix of a backup *)
Definition no_backup_listed (suffix : string) (rels : list string) : bool :=
  forallb (fun rel =>
             forallb (fun rel' => negb (String.eqb rel (rel' ++ suffix))) rels)
          rels.

(** no string twice in a list *)
Fixpoint distinct (l : list string) : bool :=
  match l with
  | [] => true
  | x :: l' => negb (existsb (String.eqb x) l') && distinct l'
  end.

(** what [main] leaves of a file system [f] in [h]: a file that is neither
    listed nor the backup of a listed file is as it was, and a listed
    file that does not exist is not created and gets no backup *)
Definition leaves_alone (suffix : string) (paths : list string) (f h : fs)
  : Prop :=
  (forall x,
      (forall q, In q paths -> x <> q /\ x <> q ++ suffix) ->
      read x h = read x f)
  /\ (forall q,
         In q paths -> read q f = None ->
         read q h = None /\ read (q ++ suffix) h = read (q ++ suffix) f).

End LoopProps.

Module MainProps.
Import Fs LoopProps.

(** a project with one test file of the three lists, holding one call
    without a path, and a file of its own *)
Definition listed_test : string :=
  "/p/PdfEditor.Tests/UI/ViewModelIntegrationTests.cs".

Definition listed_project : fs :=
  [ (listed_test, "s.RedactArea(page, new Rect(1, 2, 3, 4));");
    ("/p/PdfEditor.Tests/Notes.txt", "RedactArea(page, area);") ].

(** the same project with a call that the final fixer rewrites *)
Definition dpi_project : fs :=
  [ (listed_test, "s.RedactArea(page, area, renderDpi: 150);");
    ("/p/PdfEditor.Tests/Notes.txt", "RedactArea(page, area);") ].

End MainProps.

Module LinesProps.
Import Lines.

(** a complete line: no newline but the one that ends it *)
Fixpoint is_line (l : string) : bool :=
  match l with
  | EmptyString => false
  | String a rest =>
      if Ascii.eqb a "010"%char
      then match rest with EmptyString => true | String _ _ => false end
      else is_line rest
  end.

(** a text without a newline *)
Definition one_line (s : string) : bool :=
  Str.forallb (fun a => negb (Ascii.eqb a "010"%char)) s.

Definition one_line_opt (o : option string) : bool :=
  match o with Some s => one_line s | None => true end.

End LinesProps.

Module TableProps.
Import Wiki WikiProps Lines LinesProps.

(** from entry [e] on, every entry has [start <= end] and starts where the
    one before it ends *)
Fixpoint chain (e : entry) (rest : list entry) : bool :=
  (e_start e <=? e_end e)%Z
  && match rest with
     | [] => true
     | e' :: rest' => (e_end e =? e_start e')%Z && chain e' rest'
     end.

(** a table whose first line number is at least 1 and whose entries follow
    each other *)
Definition chained (sections : list entry) : bool :=
  match sections with
  | [] => false
  | e :: rest => (1 <=? e_start e)%Z && chain e rest
  end.

(** a document of twelve lines *)
Definition twelve : list string :=
  ["a"; "b"; "c"; "d"; "e"; "f"; "g"; "h"; "i"; "j"; "k"; "l"].

End TableProps.

Module PageProps.
Import Wiki WikiProps Lines LinesProps TableProps.

(** the navigation line of a header and of a footer *)
Definition nav_line (st : style) (index_page : string)
           (prev next : option string) : string :=
  "> **Navigation**: " ++ prev_link st prev ++ index_link st index_page
  ++ next_link st next ++ nl.

(** the lines of [nav_header] *)
Definition header_lines (st : style) (index_page : string)
           (parent : option string) (title : string)
           (prev next : option string) : list string :=
  ["# " ++ title ++ nl; nl]
  ++ match parent with
     | Some parent_page => ["> **Part of**: [[" ++ parent_page ++ "]]" ++ nl; nl]
     | None => []
     end
  ++ [nav_line st index_page prev next; nl; "---" ++ nl; nl].

(** the lines of [nav_footer] *)
Definition footer_lines (st : style) (index_page : string)
           (prev next : option string) : list string :=
  [nl; nl; "---" ++ nl; nl; nav_line st index_page prev next].

(** the chapter page of a body of three lines *)
Definition three_lines : list string := ["x" ++ nl; "y" ++ nl; "z" ++ nl].

Definition chapter_page : string :=
  snd (SplitPdfSpec.write_wiki_page "PDF-Spec-10-Rendering" "Rendering"
         (Str.concat three_lines) (Some "PDF-Spec-09-Text") None).

End PageProps.

(** * Theorems *)

(** * Facts about strings *)

Module StrFacts.

Lemma app_nil_r (s : string) : s ++ "" = s.
Proof. induction s as [|a s IH]; simpl; [reflexivity | now rewrite IH]. Qed.

Lemma app_assoc (s t u : string) : (s ++ t) ++ u = s ++ (t ++ u).
Proof. induction s as [|a s IH]; simpl; [reflexivity | now rewrite IH]. Qed.

Lemma length_app (s t : string) :
  String.length (s ++ t) = String.length s + String.length t.
Proof. induction s as [|a s IH]; simpl; [reflexivity | now rewrite IH]. Qed.

Lemma length_zero (s : string) : String.length s = 0 -> s = "".
Proof. destruct s; simpl; [reflexivity | discriminate]. Qed.

Lemma app_inv_head (s t u : string) : s ++ t = s ++ u -> t = u.
Proof.
  induction s as [|a s IH]; simpl; intros H; [exact H |].
  injection H as H. now apply IH.
Qed.

Lemma app_eq_nil (s t : string) : s ++ t = "" -> s = "" /\ t = "".
Proof. destruct s; simpl; [auto | discriminate]. Qed.

Lemma take_app (s t : string) : Str.take (String.length s) (s ++ t) = s.
Proof. induction s as [|a s IH]; simpl; [now destruct t | now rewrite IH]. Qed.

Lemma drop_app (s t : string) : Str.drop (String.length s) (s ++ t) = t.
Proof. induction s as [|a s IH]; simpl; [now destruct t | exact IH]. Qed.

Lemma take_drop (n : nat) (s : string) : Str.take n s ++ Str.drop n s = s.
Proof.
  revert s; induction n as [|n IH]; intros [|a s]; simpl; try reflexivity.
  now rewrite IH.
Qed.

(** ** prefixes and [contains] *)

Lemma prefix_app (p s : string) : prefix p (p ++ s) = true.
Proof.
  induction p as [|a p IH]; simpl; [now destruct s |].
  destruct (ascii_dec a a) as [_|N]; [exact IH | now elim N].
Qed.

Lemma prefix_inv (p s : string) :
  prefix p s = true -> exists t, s = p ++ t.
Proof.
  revert s; induction p as [|a p IH]; intros s H; simpl in *.
  - now exists s.
  - destruct s as [|b s]; simpl in H; [discriminate |].
    destruct (ascii_dec a b) as [->|N]; [| discriminate].
    destruct (IH _ H) as [t ->]. now exists t.
Qed.

Lemma contains_unfold (n h : string) :
  Str.contains n h =
  if prefix n h then true
  else match h with "" => false | String _ h' => Str.contains n h' end.
Proof. destruct h; reflexivity. Qed.

Lemma contains_app (n pre post : string) :
  Str.contains n (pre ++ n ++ post) = true.
Proof.
  induction pre as [|a pre IH].
  - simpl append. now rewrite contains_unfold, prefix_app.
  - simpl append. rewrite contains_unfold.
    destruct (prefix n (String a (pre ++ n ++ post))); [reflexivity | exact IH].
Qed.

Lemma contains_inv (n s : string) :
  Str.contains n s = true -> exists pre post, s = pre ++ n ++ post.
Proof.
  induction s as [|a s IH]; rewrite contains_unfold.
  - destruct (prefix n "") eqn:E; [| discriminate].
    intros _. destruct (prefix_inv _ _ E) as [t Ht]. now exists "", t.
  - destruct (prefix n (String a s)) eqn:E.
    + intros _. destruct (prefix_inv _ _ E) as [t Ht]. now exists "", t.
    + intros H. destruct (IH H) as (pre & post & ->).
      now exists (String a pre), post.
Qed.

Lemma contains_app_l (n s t : string) :
  Str.contains n s = true -> Str.contains n (s ++ t) = true.
Proof.
  intros H. destruct (contains_inv _ _ H) as (pre & post & ->).
  rewrite !app_assoc. apply contains_app.
Qed.

Lemma contains_app_r (n s t : string) :
  Str.contains n t = true -> Str.contains n (s ++ t) = true.
Proof.
  intros H. destruct (contains_inv _ _ H) as (pre & post & ->).
  rewrite <- app_assoc. apply contains_app.
Qed.

(** ** counting a character *)

Lemma count_app (c : ascii) (s t : string) :
  Str.count c (s ++ t) = Str.count c s + Str.count c t.
Proof. induction s as [|a s IH]; simpl; [reflexivity | rewrite IH; lia]. Qed.

Lemma count_forallb_not (c : ascii) (s : string) :
  Str.forallb (Re.not_char c) s = true -> Str.count c s = 0.
Proof.
  induction s as [|a s IH]; simpl; [reflexivity |].
  unfold Re.not_char at 1. intros H. apply andb_prop in H as [Ha Hs].
  destruct (Ascii.eqb a c); [discriminate | now apply IH].
Qed.

Lemma forallb_app (p : ascii -> bool) (s t : string) :
  Str.forallb p (s ++ t) = Str.forallb p s && Str.forallb p t.
Proof.
  induction s as [|a s IH]; simpl; [reflexivity |].
  now rewrite IH, andb_assoc.
Qed.

Lemma forallb_impl (p q : ascii -> bool) (s : string) :
  (forall a, p a = true -> q a = true) ->
  Str.forallb p s = true -> Str.forallb q s = true.
Proof.
  intros Hpq. induction s as [|a s IH]; simpl; [reflexivity |].
  intros H. apply andb_prop in H as [Ha Hs].
  now rewrite (Hpq _ Ha), IH.
Qed.

(** ** [split] and [join] *)

Lemma split_nonempty (sep : ascii) (s : string) : Str.split sep s <> [].
Proof.
  induction s as [|a s IH]; simpl; [discriminate |].
  destruct (Ascii.eqb a sep); [discriminate |].
  destruct (Str.split sep s); [now elim IH | discriminate].
Qed.

Lemma join_cons (sep x : string) (l : list string) :
  l <> [] -> Str.join sep (x :: l) = x ++ sep ++ Str.join sep l.
Proof. destruct l; [now intros [] | reflexivity]. Qed.

Lemma join_split (sep : ascii) (s : string) :
  Str.join (String sep "") (Str.split sep s) = s.
Proof.
  induction s as [|a s IH]; simpl; [reflexivity |].
  destruct (Ascii.eqb_spec a sep) as [->|N].
  - rewrite join_cons by apply split_nonempty. simpl. now rewrite IH.
  - pose proof (split_nonempty sep s) as NE.
    destruct (Str.split sep s) as [|h t]; [now elim NE |].
    destruct t as [|h' t'].
    + simpl in *. now rewrite IH.
    + change (Str.join (String sep "") (h :: h' :: t'))
        with (h ++ String sep "" ++ Str.join (String sep "") (h' :: t')) in IH.
      change (Str.join (String sep "") (String a h :: h' :: t'))
        with (String a h ++ String sep "" ++ Str.join (String sep "") (h' :: t')).
      simpl. simpl in IH. now rewrite IH.
Qed.

Lemma split_no_sep (sep : ascii) (s : string) :
  Forall (fun l => Str.count sep l = 0) (Str.split sep s).
Proof.
  induction s as [|a s IH]; simpl; [now constructor |].
  destruct (Ascii.eqb a sep) eqn:E; [now constructor |].
  destruct (Str.split sep s) as [|h t]; constructor.
  - simpl. now rewrite E.
  - constructor.
  - simpl. rewrite E. now inversion IH.
  - now inversion IH.
Qed.

Lemma split_join (sep : ascii) (l : list string) :
  l <> [] -> Forall (fun x => Str.count sep x = 0) l ->
  Str.split sep (Str.join (String sep "") l) = l.
Proof.
  induction l as [|x l IH]; [now intros [] |].
  intros _ H. inversion H as [|? ? Hx Hl]; subst.
  destruct l as [|y l].
  - simpl. clear IH H Hl. induction x as [|a x IHx]; simpl; [reflexivity |].
    simpl in Hx. destruct (Ascii.eqb a sep); [discriminate |].
    now rewrite IHx.
  - rewrite join_cons by discriminate.
    assert (IH' := IH ltac:(discriminate) Hl). clear IH H.
    remember (Str.join (String sep "") (y :: l)) as J eqn:EJ. clear EJ.
    induction x as [|a x IHx]; simpl.
    + rewrite Ascii.eqb_refl. now rewrite IH'.
    + simpl in Hx, IHx. destruct (Ascii.eqb a sep); [discriminate |].
      now rewrite IHx.
Qed.

Lemma count_join (c sep : ascii) (l : list string) :
  Str.count c (Str.join (String sep "") l)
  = list_sum (map (Str.count c) l)
    + (if Ascii.eqb sep c then 1 else 0) * (List.length l - 1).
Proof.
  induction l as [|x l IH]; [simpl; lia |].
  destruct l as [|y l].
  - simpl. lia.
  - rewrite join_cons by discriminate. rewrite !count_app, IH.
    simpl. destruct (Ascii.eqb sep c); lia.
Qed.

End StrFacts.

(** * The matcher and the matches *)

Module ReFacts.
Import Re ReSpec ReProps.

Lemma strip_prefix_app (l s : string) : strip_prefix l (l ++ s) = Some s.
Proof.
  induction l as [|a l IH]; simpl; [now destruct s |].
  now rewrite Ascii.eqb_refl.
Qed.

Lemma strip_prefix_inv (l s s' : string) :
  strip_prefix l s = Some s' -> s = l ++ s'.
Proof.
  revert s; induction l as [|a l IH]; intros s H.
  - destruct s; simpl in H; now injection H as <-.
  - destruct s as [|b s]; simpl in H; [discriminate |].
    destruct (Ascii.eqb_spec a b) as [->|]; [| discriminate].
    simpl. now rewrite (IH _ H).
Qed.

Lemma consumed_app (u s : string) : consumed (u ++ s) s = u.
Proof.
  unfold consumed. rewrite StrFacts.length_app.
  replace (String.length u + String.length s - String.length s)
    with (String.length u) by lia.
  apply StrFacts.take_app.
Qed.

Lemma orelse_some (a b : option result) (x : result) :
  orelse a b = Some x -> a = Some x \/ (a = None /\ b = Some x).
Proof. destruct a; simpl; intros H; [left | right]; auto. Qed.

(** ** Soundness: a successful run is a match *)

Lemma star_loop_sound (r : regex) :
  (forall s c k res,
      exec r s c k = Some res ->
      exists u s' c', s = u ++ s' /\ Matches r u s' c c' /\ k s' c' = Some res) ->
  forall fuel s c k res,
    star_loop (exec r) fuel s c k = Some res ->
    exists u s' c',
      s = u ++ s' /\ Matches (Star r) u s' c c' /\ k s' c' = Some res.
Proof.
  intros Hstep. induction fuel as [|fuel IH]; intros s c k res H; simpl in H.
  - exists "", s, c. repeat split; [constructor | exact H].
  - apply orelse_some in H as [H | [_ H]].
    + apply Hstep in H as (u1 & s1 & c1 & -> & M1 & H).
      destruct (String.length s1 <? String.length (u1 ++ s1)) eqn:E;
        [| discriminate].
      apply Nat.ltb_lt in E. rewrite StrFacts.length_app in E.
      apply IH in H as (u2 & s' & c' & -> & M2 & H).
      exists (u1 ++ u2), s', c'. split; [now rewrite StrFacts.app_assoc |].
      split; [| exact H].
      apply MStarS with (c1 := c1); auto.
      intros ->. simpl in E. lia.
    + exists "", s, c. repeat split; [constructor | exact H].
Qed.

Theorem exec_sound (r : regex) :
  forall s c k res,
    exec r s c k = Some res ->
    exists u s' c', s = u ++ s' /\ Matches r u s' c c' /\ k s' c' = Some res.
Proof.
  induction r as [l | p | r1 IH1 r2 IH2 | r1 IH1 r2 IH2 | r IH | n r IH | r IH];
    intros s c k res H; simpl in H.
  - destruct (strip_prefix l s) as [s'|] eqn:E; [| discriminate].
    apply strip_prefix_inv in E. exists l, s', c. repeat split; auto.
    constructor.
  - destruct s as [|a s]; [discriminate |].
    destruct (p a) eqn:E; [| discriminate].
    exists (String a ""), s, c. repeat split; auto. now constructor.
  - apply IH1 in H as (u1 & s1 & c1 & -> & M1 & H).
    apply IH2 in H as (u2 & s' & c2 & -> & M2 & H).
    exists (u1 ++ u2), s', c2. split; [now rewrite StrFacts.app_assoc |].
    split; [| exact H]. now apply MSeq with (c1 := c1).
  - apply orelse_some in H as [H | [_ H]].
    + apply IH1 in H as (u & s' & c' & -> & M & H).
      exists u, s', c'. repeat split; auto. now apply MAltL.
    + apply IH2 in H as (u & s' & c' & -> & M & H).
      exists u, s', c'. repeat split; auto. now apply MAltR.
  - now apply (star_loop_sound r IH) in H.
  - apply IH in H as (u & s' & c' & -> & M & H).
    rewrite consumed_app in H.
    exists u, s', ((n, u) :: c'). repeat split; auto. now constructor.
  - destruct (exec r s c ret) eqn:E; [discriminate |].
    exists "", s, c. repeat split; auto. now constructor.
Qed.

(** ** Completeness: where a match exists, the run succeeds *)

Lemma orelse_succeeds_l (a b : option result) :
  succeeds a -> succeeds (orelse a b).
Proof. intros [x ->]. now exists x. Qed.

Lemma orelse_succeeds_r (a b : option result) :
  succeeds b -> succeeds (orelse a b).
Proof. intros [x ->]. destruct a as [y|]; [now exists y | now exists x]. Qed.

Lemma exec_complete_gen (r : regex) (u s : string) (c c' : caps) :
  Matches r u s c c' ->
  forall k, succeeds (k s c') ->
    succeeds (exec r (u ++ s) c k)
    /\ (forall r0 fuel, r = Star r0 -> String.length (u ++ s) <= fuel ->
          succeeds (star_loop (exec r0) fuel (u ++ s) c k)).
Proof.
  induction 1 as [l s c | p a s c Hp
                 | r1 r2 u1 u2 s c c1 c2 M1 IH1 M2 IH2
                 | r1 r2 u s c c' M IH | r1 r2 u s c c' M IH
                 | r s c | r u1 u2 s c c1 c2 Hne M1 IH1 M2 IH2
                 | n r u s c c' M IH | r s c Hno];
    intros k Hk.
  - split; [| discriminate]. simpl. now rewrite strip_prefix_app.
  - split; [| discriminate]. simpl. now rewrite Hp.
  - split; [| discriminate]. simpl. rewrite StrFacts.app_assoc.
    apply IH1. now apply IH2.
  - split; [| discriminate]. simpl. apply orelse_succeeds_l. now apply IH.
  - split; [| discriminate]. simpl. apply orelse_succeeds_r. now apply IH.
  - assert (G : forall fuel, succeeds (star_loop (exec r) fuel ("" ++ s) c k)).
    { intros [|fuel]; simpl; [exact Hk |]. now apply orelse_succeeds_r. }
    split; [apply G |]. intros r0 fuel E _. injection E as <-. apply G.
  - assert (G : forall fuel, String.length ((u1 ++ u2) ++ s) <= fuel ->
                succeeds (star_loop (exec r) fuel ((u1 ++ u2) ++ s) c k)).
    { intros fuel Hf. rewrite !StrFacts.length_app in Hf.
      destruct u1 as [|a u1]; [now elim Hne |]. simpl in Hf.
      destruct fuel as [|fuel]; [lia |].
      simpl star_loop. apply orelse_succeeds_l.
      rewrite StrFacts.app_assoc. apply IH1.
      assert (L : (String.length (u2 ++ s)
                   <? String.length (String a u1 ++ u2 ++ s)) = true).
      { apply Nat.ltb_lt. simpl. rewrite !StrFacts.length_app. lia. }
      cbv beta. simpl in L. simpl. rewrite L.
      apply (proj2 (IH2 k Hk) r fuel eq_refl).
      rewrite StrFacts.length_app. lia. }
    split; [apply G; lia |]. intros r0 fuel E Hf. injection E as <-. now apply G.
  - split; [| discriminate]. simpl. apply IH. now rewrite consumed_app.
  - split; [| discriminate]. simpl. now rewrite Hno.
Qed.

Theorem exec_complete (r : regex) (u s : string) (c c' : caps) (k : cont) :
  Matches r u s c c' -> succeeds (k s c') -> succeeds (exec r (u ++ s) c k).
Proof. intros M Hk. now apply (exec_complete_gen r u s c c' M k Hk). Qed.

(** ** [search] *)

Lemma match_here_sound (r : regex) (before s : string) (m : match_obj) :
  match_here r before s = Some m ->
  m_before m = before /\ s = m_text m ++ m_after m
  /\ Matches r (m_text m) (m_after m) [] (m_caps m).
Proof.
  unfold match_here. destruct (exec r s [] ret) as [[s' c]|] eqn:E;
    [| discriminate].
  intros H; injection H as <-. simpl.
  apply exec_sound in E as (u & s1 & c1 & -> & M & H).
  injection H as <- <-. rewrite consumed_app. auto.
Qed.

Lemma match_here_complete (r : regex) (before u s : string) (c : caps) :
  Matches r u s [] c -> exists m, match_here r before (u ++ s) = Some m.
Proof.
  intros M. unfold match_here.
  destruct (exec_complete r u s [] c ret M) as [[s' c'] ->];
    [now exists (s, c) | eauto].
Qed.

Lemma search_from_sound (r : regex) (s before : string) (m : match_obj) :
  search_from r before s = Some m ->
  exists pre, m_before m = before ++ pre
              /\ s = pre ++ m_text m ++ m_after m
              /\ Matches r (m_text m) (m_after m) [] (m_caps m).
Proof.
  revert before; induction s as [|a s IH]; intros before H; simpl in H.
  - destruct (match_here r before "") as [m'|] eqn:E; [| discriminate].
    injection H as ->. apply match_here_sound in E as (E1 & E2 & M).
    exists "". rewrite StrFacts.app_nil_r. auto.
  - destruct (match_here r before (String a s)) as [m'|] eqn:E.
    + injection H as ->. apply match_here_sound in E as (E1 & E2 & M).
      exists "". rewrite StrFacts.app_nil_r. auto.
    + apply IH in H as (pre & E1 & E2 & M).
      exists (String a pre). rewrite E1, StrFacts.app_assoc. simpl.
      rewrite E2 at 1. auto.
Qed.

Theorem search_sound (r : regex) (s : string) (m : match_obj) :
  search r s = Some m ->
  s = m_before m ++ m_text m ++ m_after m
  /\ Matches r (m_text m) (m_after m) [] (m_caps m).
Proof.
  intros H. apply search_from_sound in H as (pre & E1 & E2 & M).
  simpl in E1. now rewrite E1.
Qed.

Lemma search_from_complete (r : regex) (pre u post : string) (c : caps) :
  Matches r u post [] c ->
  forall before, exists m, search_from r before (pre ++ u ++ post) = Some m.
Proof.
  intros M. induction pre as [|a pre IH]; intros before.
  - simpl append.
    destruct (match_here_complete r before u post c M) as [m E].
    exists m. destruct (u ++ post); simpl; now rewrite E.
  - simpl. destruct (match_here r before (String a (pre ++ u ++ post)));
      [eauto | apply IH].
Qed.

Theorem search_complete (r : regex) (s : string) :
  occurs r s -> exists m, search r s = Some m.
Proof.
  intros (pre & u & post & c & -> & M).
  now apply search_from_complete with (c := c).
Qed.

(** the match that [search] returns starts at the leftmost position
    where the pattern matches *)
Lemma search_from_leftmost (r : regex) (s before : string) (m : match_obj) :
  search_from r before s = Some m ->
  forall pre u post c,
    s = pre ++ u ++ post -> Matches r u post [] c ->
    String.length (m_before m) <= String.length before + String.length pre.
Proof.
  revert before; induction s as [|a s IH]; intros before H pre u post c E M;
    simpl in H.
  - destruct (match_here r before "") as [m'|] eqn:Eh; [| discriminate].
    injection H as ->. apply match_here_sound in Eh as (-> & _). lia.
  - destruct (match_here r before (String a s)) as [m'|] eqn:Eh.
    + injection H as ->. apply match_here_sound in Eh as (-> & _). lia.
    + destruct pre as [|b pre].
      * simpl in E.
        destruct (match_here_complete r before u post c M) as [m' Em].
        rewrite <- E in Em. congruence.
      * simpl in E. injection E as <- E.
        pose proof (IH _ H pre u post c E M) as L.
        rewrite StrFacts.length_app in L. simpl in *. lia.
Qed.

Theorem search_leftmost (r : regex) (s : string) (m : match_obj) :
  search r s = Some m ->
  forall pre u post c,
    s = pre ++ u ++ post -> Matches r u post [] c ->
    String.length (m_before m) <= String.length pre.
Proof.
  intros H pre u post c E M.
  exact (search_from_leftmost r s "" m H pre u post c E M).
Qed.

Theorem search_none (r : regex) (s : string) :
  search r s = None -> ~ occurs r s.
Proof.
  intros H O. apply search_complete in O as [m E]. congruence.
Qed.

(** ** Reading a match of a concrete pattern *)

Lemma lit_inv l u s c c' :
  Matches (Lit l) u s c c' -> u = l /\ c' = c.
Proof. inversion 1; auto. Qed.

Lemma seq_inv r1 r2 u s c c' :
  Matches (Seq r1 r2) u s c c' ->
  exists u1 u2 c1,
    u = u1 ++ u2 /\ Matches r1 u1 (u2 ++ s) c c1 /\ Matches r2 u2 s c1 c'.
Proof. inversion 1; subst; eauto 7. Qed.

Lemma group_inv n r u s c c' :
  Matches (Group n r) u s c c' ->
  exists c1, c' = (n, u) :: c1 /\ Matches r u s c c1.
Proof. inversion 1; subst; eauto. Qed.

Lemma alt_inv r1 r2 u s c c' :
  Matches (Alt r1 r2) u s c c' ->
  Matches r1 u s c c' \/ Matches r2 u s c c'.
Proof. inversion 1; subst; auto. Qed.

Lemma cls_inv p u s c c' :
  Matches (Cls p) u s c c' ->
  exists a, u = String a "" /\ p a = true /\ c' = c.
Proof. inversion 1; subst; eauto. Qed.

Lemma star_cls_inv p u s c c' :
  Matches (Star (Cls p)) u s c c' -> Str.forallb p u = true /\ c' = c.
Proof.
  remember (Star (Cls p)) as r eqn:E. intros M; revert E.
  induction M; intros E; try discriminate; injection E as ->.
  - auto.
  - apply cls_inv in M1 as (a & -> & Hp & ->).
    destruct (IHM2 eq_refl) as [H2 ->]. simpl. now rewrite Hp, H2.
Qed.

Lemma plus_cls_inv p u s c c' :
  Matches (Plus (Cls p)) u s c c' ->
  Str.truthy u = true /\ Str.forallb p u = true /\ c' = c.
Proof.
  intros M. apply seq_inv in M as (u1 & u2 & c1 & -> & M1 & M2).
  apply cls_inv in M1 as (a & -> & Hp & ->).
  apply star_cls_inv in M2 as [H2 ->]. simpl. now rewrite Hp, H2.
Qed.

(** ** Building a match of a concrete pattern *)

Lemma star_cls_intro p u s c :
  Str.forallb p u = true -> Matches (Star (Cls p)) u s c c.
Proof.
  induction u as [|a u IH]; simpl; intros H; [constructor |].
  apply andb_prop in H as [Ha Hu].
  change (String a u) with (String a "" ++ u).
  apply MStarS with (c1 := c); [discriminate | now constructor | now apply IH].
Qed.

Lemma plus_cls_intro p u s c :
  Str.truthy u = true -> Str.forallb p u = true ->
  Matches (Plus (Cls p)) u s c c.
Proof.
  destruct u as [|a u]; [discriminate |]. simpl. intros _ H.
  apply andb_prop in H as [Ha Hu].
  change (String a u) with (String a "" ++ u).
  apply MSeq with (c1 := c); [now constructor | now apply star_cls_intro].
Qed.

End ReFacts.

(** * Tactics to read a match of a concrete pattern *)

Module ReTac.
Import Re ReSpec ReProps ReFacts.

Ltac inv_step :=
  match goal with
  | M : Matches (Plus (Cls _)) _ _ _ _ |- _ =>
      apply plus_cls_inv in M as (? & ? & ?)
  | M : Matches (Star (Cls _)) _ _ _ _ |- _ =>
      apply star_cls_inv in M as (? & ?)
  | M : Matches (Lit _) _ _ _ _ |- _ =>
      apply lit_inv in M as (? & ?)
  | M : Matches (Cls _) _ _ _ _ |- _ =>
      apply cls_inv in M as (? & ? & ? & ?)
  | M : Matches (Group _ _) _ _ _ _ |- _ =>
      apply group_inv in M as (? & ? & M)
  | M : Matches (Seq _ _) _ _ _ _ |- _ =>
      let M1 := fresh "M" in
      apply seq_inv in M as (? & ? & ? & ? & M1 & M)
  end.

Ltac inv_match :=
  unfold ws, ws1, digits, dots in *; repeat inv_step.

End ReTac.

(** * The path-variable finders *)

Module FinderFacts.
Import Re ReSpec ReProps ReFacts ReTac FinderProps.

Ltac read_search H :=
  apply search_sound in H as [_ H];
  match type of H with
  | Matches _ (m_text ?m) _ _ _ => destruct m; simpl in *
  end.

Lemma decl_lit_identifier (name : string) :
  Spec.is_identifier name = true ->
  captures_identifier (FixRedactAreaCalls.decl (Lit name)).
Proof.
  intros Hn s m H. read_search H.
  unfold FixRedactAreaCalls.decl in H. cbn [seqs] in H.
  inv_match. subst. simpl. exact Hn.
Qed.

Lemma reader_open_identifier :
  captures_identifier FixRedactAreaCalls.reader_open.
Proof.
  intros s m H. read_search H.
  unfold FixRedactAreaCalls.reader_open in H. cbn [seqs] in H.
  inv_match. subst. simpl.
  match goal with
  | Ha : ident_start _ = true, Hs : Str.forallb ident_char _ = true |- _ =>
      now rewrite Ha, Hs
  end.
Qed.

Lemma alts_lit_inv (names : list string) u s c c' :
  Matches (alts (map Lit names)) u s c c' -> In u names /\ c' = c.
Proof.
  induction names as [|n names IH]; simpl.
  - intros M. apply cls_inv in M as (? & ? & ? & ?). discriminate.
  - destruct names as [|n' names].
    + intros M. apply lit_inv in M as [-> ->]. auto.
    + intros M. apply alt_inv in M as [M | M].
      * apply lit_inv in M as [-> ->]. auto.
      * destruct (IH M) as [Hin ->]. auto.
Qed.

Lemma keyword_names_identifier (kw : string) (names : list string) :
  Forall (fun n => Spec.is_identifier n = true) names ->
  captures_identifier
    (seqs [Lit kw; ws1; Group 1 (alts (map Lit names)); ws; Lit "="]).
Proof.
  intros Hn s m H. read_search H. cbn [seqs] in H.
  inv_match. subst.
  match goal with
  | M : Matches (alts _) _ _ _ _ |- _ =>
      apply alts_lit_inv in M as [Hin ->]
  end.
  simpl. rewrite Forall_forall in Hn. now apply Hn.
Qed.

(** ** Phase 2 *)

Lemma phase2_patterns_identifier :
  Forall captures_identifier Phase2.path_patterns.
Proof.
  unfold Phase2.path_patterns, Phase2.decl, Phase2.reader_open.
  repeat constructor;
    try (apply decl_lit_identifier; reflexivity);
    try apply reader_open_identifier.
  intros s m H. read_search H. cbn [seqs] in H.
  inv_match. subst. reflexivity.
Qed.

Lemma phase2_first_accepted_some (pats : list regex) (content v : string) :
  Forall captures_identifier pats ->
  Phase2.first_accepted pats content = Some v ->
  Spec.is_identifier v = true /\ Phase2.is_output_name v = false.
Proof.
  induction 1 as [|p pats Hp _ IH]; cbn [Phase2.first_accepted];
    [discriminate |].
  destruct (search p content) as [m|] eqn:E; [| exact IH].
  destruct (Phase2.is_output_name (m_group m 1)) eqn:G; [exact IH |].
  intros H; injection H as <-. split; [now apply (Hp content) | exact G].
Qed.

Lemma phase2_first_accepted_none (pats : list regex) (content : string) :
  (forall p m, In p pats -> search p content = Some m ->
               Phase2.is_output_name (m_group m 1) = true) ->
  Phase2.first_accepted pats content = None.
Proof.
  induction pats as [|p pats IH]; intros H; cbn [Phase2.first_accepted];
    [reflexivity |].
  destruct (search p content) as [m|] eqn:E.
  - rewrite (H p m (or_introl eq_refl) E). apply IH.
    intros q m' Hq. apply H. now right.
  - apply IH. intros q m' Hq. apply H. now right.
Qed.

(** ** Phases 3 and 4 *)

Lemma phase3_patterns_identifier :
  Forall captures_identifier Phase3.path_patterns.
Proof.
  unfold Phase3.path_patterns, Phase3.names.
  repeat constructor; try apply reader_open_identifier.
  - apply (keyword_names_identifier "var"
             ["testPdf"; "pdfPath"; "inputPath"; "filePath"]).
    repeat constructor.
  - apply (keyword_names_identifier "string"
             ["testPdf"; "pdfPath"; "inputPath"; "filePath"]).
    repeat constructor.
Qed.

Lemma phase4_patterns_identifier :
  Forall captures_identifier Phase4.path_patterns.
Proof.
  unfold Phase4.path_patterns, Phase4.names.
  repeat constructor; try apply reader_open_identifier.
  - apply (keyword_names_identifier "var"
             ["testPdf"; "pdfPath"; "inputPath"; "filePath"; "inputPdf"]).
    repeat constructor.
  - apply (keyword_names_identifier "string"
             ["testPdf"; "pdfPath"; "inputPath"; "filePath"; "inputPdf"]).
    repeat constructor.
Qed.

Lemma phase3_first_accepted_some (pats : list regex) (content v : string) :
  Forall captures_identifier pats ->
  Phase3.first_accepted pats content = Some v ->
  Spec.is_identifier v = true /\ rejected v = false.
Proof.
  induction 1 as [|p pats Hp _ IH]; cbn [Phase3.first_accepted];
    [discriminate |].
  destruct (search p content) as [m|] eqn:E; [| exact IH].
  unfold rejected.
  destruct (negb (Str.contains "redacted" (Str.lower (m_group m 1)))
            && negb (Str.contains "output" (Str.lower (m_group m 1)))) eqn:G;
    [| exact IH].
  intros H; injection H as <-.
  change (group 1 (m_caps m)) with (m_group m 1). unfold rejected. rewrite G.
  split; [now apply (Hp content) | reflexivity].
Qed.

Lemma phase3_first_accepted_none (pats : list regex) (content : string) :
  (forall p m, In p pats -> search p content = Some m ->
               rejected (m_group m 1) = true) ->
  Phase3.first_accepted pats content = None.
Proof.
  induction pats as [|p pats IH]; intros H; cbn [Phase3.first_accepted];
    [reflexivity |].
  destruct (search p content) as [m|] eqn:E.
  - pose proof (H p m (or_introl eq_refl) E) as R. unfold rejected in R.
    apply negb_true_iff in R. rewrite R. apply IH.
    intros q m' Hq. apply H. now right.
  - apply IH. intros q m' Hq. apply H. now right.
Qed.

Lemma phase4_first_accepted_eq (pats : list regex) (content : string) :
  Phase4.first_accepted pats content = Phase3.first_accepted pats content.
Proof.
  induction pats as [|p pats IH]; simpl; [reflexivity |].
  now rewrite IH.
Qed.

Lemma rejected_false (v : string) :
  rejected v = false ->
  Str.contains "redacted" (Str.lower v) = false
  /\ Str.contains "output" (Str.lower v) = false.
Proof.
  unfold rejected. intros H. apply negb_false_iff, andb_prop in H as [A B].
  now apply negb_true_iff in A, B.
Qed.

Lemma no_candidate_rejected pats content :
  no_candidate pats content ->
  forall p m, In p pats -> search p content = Some m ->
              rejected (m_group m 1) = true.
Proof.
  intros H p m Hp E. specialize (H p m Hp E). unfold rejected.
  apply orb_true_iff in H. apply negb_true_iff.
  destruct H as [-> | ->]; simpl; [reflexivity | apply andb_false_r].
Qed.

Lemma phase2_acceptable content :
  acceptable (Phase2.find_path_variable content).
Proof.
  unfold Phase2.find_path_variable.
  destruct (Phase2.first_accepted _ _) as [v|] eqn:E;
    [| repeat split; reflexivity].
  apply (phase2_first_accepted_some _ _ _ phase2_patterns_identifier) in E.
  destruct E as [I E]. unfold Phase2.is_output_name in E.
  apply orb_false_iff in E as [A B]. now repeat split.
Qed.

Lemma phase3_accepted_acceptable pats content v :
  Forall captures_identifier pats ->
  Phase3.first_accepted pats content = Some v -> acceptable v.
Proof.
  intros F E. apply (phase3_first_accepted_some _ _ _ F) in E.
  destruct E as [I E]. apply rejected_false in E as [A B]. now repeat split.
Qed.

Lemma phase3_acceptable content : acceptable (Phase3.find_path_var content).
Proof.
  unfold Phase3.find_path_var.
  destruct (Phase3.first_accepted _ _) as [v|] eqn:E;
    [| repeat split; reflexivity].
  exact (phase3_accepted_acceptable _ _ _ phase3_patterns_identifier E).
Qed.

Lemma phase4_acceptable content : acceptable (Phase4.find_path_var content).
Proof.
  unfold Phase4.find_path_var. rewrite phase4_first_accepted_eq.
  destruct (Phase3.first_accepted _ _) as [v|] eqn:E;
    [| repeat split; reflexivity].
  exact (phase3_accepted_acceptable _ _ _ phase4_patterns_identifier E).
Qed.

(** C10: the finders of phases 2, 3 and 4 return an identifier whose
    lower-cased name has neither "redacted" nor "output" in it, and the
    fixed fallback when no pattern yields an acceptable variable. *)
Theorem finders_return_acceptable_names :
  forall content : string,
    (acceptable (Phase2.find_path_variable content)
     /\ acceptable (Phase3.find_path_var content)
     /\ acceptable (Phase4.find_path_var content))
    /\ (no_candidate Phase2.path_patterns content ->
        Phase2.find_path_variable content = "pdfPath")
    /\ (no_candidate Phase3.path_patterns content ->
        Phase3.find_path_var content = "pdfPath")
    /\ (no_candidate Phase4.path_patterns content ->
        Phase4.find_path_var content = "testPdf").
Proof.
  intros content.
  split; [split; [apply phase2_acceptable
                 | split; [apply phase3_acceptable | apply phase4_acceptable]] |].
  split; [| split].
  - intros H. unfold Phase2.find_path_variable.
    rewrite phase2_first_accepted_none; [reflexivity |].
    intros p m Hp E. exact (H p m Hp E).
  - intros H. unfold Phase3.find_path_var.
    rewrite phase3_first_accepted_none; [reflexivity |].
    now apply no_candidate_rejected.
  - intros H. unfold Phase4.find_path_var. rewrite phase4_first_accepted_eq.
    rewrite phase3_first_accepted_none; [reflexivity |].
    now apply no_candidate_rejected.
Qed.

Lemma finders_return_acceptable_names_witness :
  let content := "string redactedPath = doc.Save(out);" in
  Phase2.find_path_variable content = "pdfPath"
  /\ Phase3.find_path_var content = "pdfPath"
  /\ Phase4.find_path_var content = "testPdf".
Proof.
  destruct (finders_return_acceptable_names
              "string redactedPath = doc.Save(out);") as (_ & H2 & H3 & H4).
  split; [| split]; [apply H2 | apply H3 | apply H4];
    intros p m Hp E;
    [unfold Phase2.path_patterns in Hp
    | unfold Phase3.path_patterns in Hp
    | unfold Phase4.path_patterns in Hp];
    cbn [In] in Hp;
    repeat (destruct Hp as [<- | Hp];
            [vm_compute in E;
             first [discriminate | injection E as <-; reflexivity] |]);
    elim Hp.
Defined.

End FinderFacts.

(** * The splitters *)

Module WikiFacts.
Import Wiki WikiProps.

(** ** Slices and line numbers *)

Lemma filter_above (a b k : Z) (l : list string) :
  (b < k)%Z -> filter (in_range a b) (Spec.number_from k l) = [].
Proof.
  revert k; induction l as [|x l IH]; intros k H; simpl; [reflexivity |].
  unfold in_range at 1. simpl.
  replace (k <=? b)%Z with false by (symmetry; apply Z.leb_gt; lia).
  rewrite andb_false_r. apply IH. lia.
Qed.

Lemma filter_lower (a a' b k : Z) (l : list string) :
  (a <= a')%Z -> (a' <= k)%Z ->
  filter (in_range a b) (Spec.number_from k l)
  = filter (in_range a' b) (Spec.number_from k l).
Proof.
  intros Ha. revert k. induction l as [|x l IH]; intros k Hk; simpl;
    [reflexivity |].
  assert (E : in_range a b (k, x) = in_range a' b (k, x)).
  { unfold in_range. simpl.
    replace (a <=? k)%Z with true by (symmetry; apply Z.leb_le; lia).
    replace (a' <=? k)%Z with true by (symmetry; apply Z.leb_le; lia).
    reflexivity. }
  rewrite E, IH by lia. reflexivity.
Qed.

Lemma filter_from (a b k : Z) (l : list string) :
  (k <= a)%Z ->
  map snd (filter (in_range a b) (Spec.number_from k l))
  = firstn (Z.to_nat (b - a + 1)) (skipn (Z.to_nat (a - k)) l).
Proof.
  revert k a; induction l as [|x l IH]; intros k a H.
  - simpl. now rewrite skipn_nil, firstn_nil.
  - simpl. unfold in_range at 1. simpl.
    destruct (Z.eq_dec k a) as [->|N].
    + rewrite Z.leb_refl, Z.sub_diag. simpl skipn.
      destruct (a <=? b)%Z eqn:E.
      * apply Z.leb_le in E. simpl.
        assert (Q : Z.to_nat (b - a + 1) = S (Z.to_nat (b - (a + 1) + 1))).
        { clear - E. lia. }
        rewrite Q.
        simpl. f_equal.
        assert (X := filter_lower a (a + 1) b (a + 1) l
                       ltac:(lia) ltac:(lia)).
        rewrite X, (IH (a + 1)%Z (a + 1)%Z) by lia.
        now rewrite Z.sub_diag.
      * apply Z.leb_gt in E. simpl.
        rewrite filter_above by lia.
        replace (Z.to_nat (b - a + 1)) with 0 by lia. reflexivity.
    + replace (a <=? k)%Z with false by (symmetry; apply Z.leb_gt; lia).
      simpl. rewrite (IH (k + 1)%Z a) by lia.
      replace (Z.to_nat (a - k)) with (S (Z.to_nat (a - (k + 1)))) by lia.
      reflexivity.
Qed.

Lemma source_lines_firstn (lines : list string) (a b : Z) :
  (1 <= a)%Z ->
  Spec.source_lines lines a b
  = firstn (Z.to_nat (b - a + 1)) (skipn (Z.to_nat (a - 1)) lines).
Proof. intros H. unfold Spec.source_lines. now apply (filter_from a b 1). Qed.

Lemma firstn_skipn_clamp {A} (l : list A) (a b : nat) :
  firstn (Nat.min b (List.length l) - Nat.min a (List.length l))
         (skipn (Nat.min a (List.length l)) l)
  = firstn (b - a) (skipn a l).
Proof.
  destruct (Nat.le_gt_cases (List.length l) a) as [H|H].
  - rewrite (Nat.min_r a) by lia. rewrite !skipn_all2 by lia.
    now rewrite !firstn_nil.
  - rewrite (Nat.min_l a) by lia.
    destruct (Nat.le_gt_cases b (List.length l)) as [H'|H'].
    + now rewrite (Nat.min_l b) by lia.
    + rewrite (Nat.min_r b) by lia.
      rewrite !firstn_all2; [reflexivity | |]; rewrite length_skipn; lia.
Qed.

Lemma slice_nonneg (lines : list string) (lo hi : Z) :
  (0 <= lo)%Z -> (0 <= hi)%Z ->
  slice lines lo hi = Spec.source_lines lines (lo + 1) hi.
Proof.
  intros Hlo Hhi. rewrite source_lines_firstn by lia.
  unfold slice, slice_index.
  replace (lo <? 0)%Z with false by (symmetry; apply Z.ltb_ge; lia).
  replace (hi <? 0)%Z with false by (symmetry; apply Z.ltb_ge; lia).
  replace (Z.to_nat (Z.min lo (Z.of_nat (List.length lines))))
    with (Nat.min (Z.to_nat lo) (List.length lines)) by lia.
  replace (Z.to_nat (Z.min hi (Z.of_nat (List.length lines))))
    with (Nat.min (Z.to_nat hi) (List.length lines)) by lia.
  rewrite firstn_skipn_clamp. f_equal; [lia | f_equal; lia].
Qed.

Lemma source_lines_beyond (lines : list string) (a b : Z) :
  (1 <= a)%Z ->
  Spec.source_lines lines a b
  = Spec.source_lines lines a (Z.min b (Z.of_nat (List.length lines))).
Proof.
  intros Ha. rewrite !source_lines_firstn by lia.
  destruct (Z.le_gt_cases b (Z.of_nat (List.length lines))) as [H|H].
  - now rewrite Z.min_l by lia.
  - rewrite Z.min_r by lia.
    destruct (Z.le_gt_cases (Z.of_nat (List.length lines)) (a - 1)) as [G|G].
    + rewrite !skipn_all2 by lia. now rewrite !firstn_nil.
    + rewrite !firstn_all2; [reflexivity | |]; rewrite length_skipn; lia.
Qed.

Lemma source_lines_app (lines : list string) (a m b : Z) :
  (1 <= a)%Z -> (a <= m)%Z -> (m - 1 <= b)%Z ->
  (Spec.source_lines lines a (m - 1) ++ Spec.source_lines lines m b)%list
  = Spec.source_lines lines a b.
Proof.
  intros Ha Hm Hb. rewrite !source_lines_firstn by lia.
  replace (Z.to_nat (m - 1)) with (Z.to_nat (m - a) + Z.to_nat (a - 1)) by lia.
  rewrite <- skipn_skipn.
  replace (Z.to_nat (m - 1 - a + 1)) with (Z.to_nat (m - a)) by lia.
  replace (Z.to_nat (b - a + 1))
    with (Z.to_nat (m - a) + Z.to_nat (b - m + 1)) by lia.
  generalize (skipn (Z.to_nat (a - 1)) lines) as l.
  generalize (Z.to_nat (m - a)) as n. generalize (Z.to_nat (b - m + 1)) as k.
  intros k n. induction n as [|n IH]; intros l; [reflexivity |].
  destruct l as [|x l]; simpl.
  - now rewrite firstn_nil.
  - now rewrite IH.
Qed.

Lemma source_lines_empty (lines : list string) (a b : Z) :
  (b < a)%Z -> (1 <= a)%Z -> Spec.source_lines lines a b = [].
Proof.
  intros H Ha. rewrite source_lines_firstn by lia.
  now replace (Z.to_nat (b - a + 1)) with 0 by lia.
Qed.

Lemma page_content_lines (clamp : bool) (lines : list string) (e : entry) :
  (1 <= e_start e)%Z -> (1 <= e_end e)%Z ->
  page_content clamp lines e
  = Str.concat (Spec.source_lines lines (e_start e)
                  (Spec.last_line clamp (Z.of_nat (List.length lines)) e)).
Proof.
  intros Hs He. unfold page_content, Spec.last_line. f_equal.
  destruct clamp.
  - destruct lines as [|x lines].
    + rewrite source_lines_firstn by lia. unfold slice.
      now rewrite !skipn_nil, !firstn_nil.
    + rewrite slice_nonneg by (simpl List.length; lia).
      f_equal. lia.
  - rewrite slice_nonneg by lia.
    replace (e_start e - 1 + 1)%Z with (e_start e) by lia.
    apply source_lines_beyond. lia.
Qed.

(** ** The pages of a table *)

Lemma split_loop_nth st idx parent clamp lines sections :
  forall rest i j e,
    nth_error rest j = Some e ->
    nth_error (split_loop st idx parent clamp lines sections i rest) j
    = Some (write_wiki_page st idx parent (e_filename e) (e_title e)
              (page_content clamp lines e)
              (prev_page sections (i + j)) (next_page sections (i + j))).
Proof.
  induction rest as [|x rest IH]; intros i j e H.
  - destruct j; discriminate.
  - destruct j as [|j]; simpl in *.
    + injection H as ->. now rewrite Nat.add_0_r.
    + rewrite (IH (S i) j e H). now rewrite Nat.add_succ_r.
Qed.

Lemma split_nth st idx parent clamp lines sections i e :
  nth_error sections i = Some e ->
  nth_error (split st idx parent clamp lines sections) i
  = Some (write_wiki_page st idx parent (e_filename e) (e_title e)
            (page_content clamp lines e)
            (prev_page sections i) (next_page sections i)).
Proof. intros H. unfold split. now rewrite (split_loop_nth _ _ _ _ _ _ _ 0 i e H). Qed.

Lemma split_length st idx parent clamp lines sections :
  List.length (split st idx parent clamp lines sections) = List.length sections.
Proof.
  unfold split. generalize 0 as i. generalize sections at 2 3 as rest.
  induction rest as [|x rest IH]; intros i; simpl; [reflexivity |].
  now rewrite IH.
Qed.

Lemma concat_app (l1 l2 : list string) :
  Str.concat (l1 ++ l2)%list = Str.concat l1 ++ Str.concat l2.
Proof.
  induction l1 as [|x l1 IH]; simpl; [reflexivity |].
  unfold Str.concat in *. simpl. now rewrite IH, StrFacts.app_assoc.
Qed.

Lemma contiguous_lines (clamp : bool) (lines : list string) (e e' : entry) :
  (1 <= e_start e)%Z -> (e_start e <= e_end e)%Z ->
  e_end e = e_start e' -> (e_start e' <= e_end e')%Z ->
  let L := Z.of_nat (List.length lines) in
  (Spec.source_lines lines (e_start e) (Spec.last_line clamp L e)
   ++ Spec.source_lines lines (e_start e') (Spec.last_line clamp L e'))%list
  = Spec.source_lines lines (e_start e) (Spec.last_line clamp L e').
Proof.
  intros Hs Hm Heq He' L. unfold Spec.last_line. rewrite <- Heq.
  set (m := e_end e) in *. destruct clamp.
  - destruct (Z.le_gt_cases m L) as [H|H].
    + rewrite (Z.min_l m) by lia. apply source_lines_app; lia.
    + rewrite (source_lines_empty lines m) by lia.
      rewrite List.app_nil_r. f_equal. lia.
  - destruct (Z.le_gt_cases (m - 1) L) as [H|H].
    + rewrite (Z.min_l (m - 1)) by lia. apply source_lines_app; lia.
    + rewrite (source_lines_empty lines m) by lia.
      rewrite List.app_nil_r. f_equal. lia.
Qed.

(** C2: the page of a table entry is the navigation header, the
    lines [start] through [last_line] of the document in order and
    unmodified, and the navigation footer, where [last_line] is
    [min(end, L) - 1] in the splitters that clamp the end and
    [min(end - 1, L)] in split-pdf-spec.py; two consecutive entries that
    share their boundary give bodies that follow each other without gap
    or overlap. *)
Theorem split_page_bodies :
  forall (st : style) (index_page : string) (parent : option string)
         (clamp : bool) (lines : list string) (sections : list entry)
         (i : nat) (e : entry),
    nth_error sections i = Some e ->
    (1 <= e_start e)%Z -> (1 <= e_end e)%Z ->
    let L := Z.of_nat (List.length lines) in
    nth_error (split st index_page parent clamp lines sections) i
    = Some (wiki_path (e_filename e ++ ".md"),
            nav_header st index_page parent (e_title e)
                       (prev_page sections i) (next_page sections i)
            ++ Str.concat (Spec.source_lines lines (e_start e)
                             (Spec.last_line clamp L e))
            ++ nav_footer st index_page
                          (prev_page sections i) (next_page sections i))
    /\ (forall e',
           nth_error sections (S i) = Some e' ->
           e_end e = e_start e' ->
           (e_start e <= e_end e)%Z -> (e_start e' <= e_end e')%Z ->
           page_content clamp lines e ++ page_content clamp lines e'
           = Str.concat (Spec.source_lines lines (e_start e)
                           (Spec.last_line clamp L e'))).
Proof.
  intros st index_page parent clamp lines sections i e Hi Hs He L. split.
  - rewrite (split_nth _ _ _ _ _ _ _ _ Hi). unfold write_wiki_page.
    now rewrite page_content_lines.
  - intros e' _ Heq Hm He'.
    rewrite !page_content_lines by lia.
    rewrite <- concat_app. f_equal. now apply contiguous_lines.
Qed.

Lemma split_page_bodies_witness :
  nth_error (SplitPdf20Spec.split_chapters abcd two_pages) 0
  = Some (wiki_path "One.md",
          nav_header WikiLinks "PDF20-Spec-Index" (Some "PDF20-Spec-Index")
                     "First" None (Some "Two")
          ++ "ab"
          ++ nav_footer WikiLinks "PDF20-Spec-Index" None (Some "Two"))
  /\ page_content true abcd (1, 3, "One", "First")%Z
     ++ page_content true abcd (3, 9, "Two", "Second")%Z
     = "abc".
Proof.
  destruct (split_page_bodies WikiLinks "PDF20-Spec-Index"
              (Some "PDF20-Spec-Index") true abcd two_pages 0
              (1, 3, "One", "First")%Z eq_refl
              ltac:(unfold e_start; simpl; lia)
              ltac:(unfold e_end; simpl; lia)) as [Hpage Hnext].
  split; [exact Hpage |].
  exact (Hnext (3, 9, "Two", "Second")%Z eq_refl eq_refl
               ltac:(unfold e_start, e_end; simpl; lia)
               ltac:(unfold e_start, e_end; simpl; lia)).
Defined.

(** C2, counterexample: split-pdf-spec.py does not clamp; with
    a document of two lines and the entry (1, 5), the page holds both
    lines, not only line 1 = min(5, 2) - 1. *)
Lemma split_pdf_spec_body_counterexample :
  let lines := ["a"; "b"] in
  let e : entry := (1, 5, "F", "T")%Z in
  let L := Z.of_nat (List.length lines) in
  map snd (SplitPdfSpec.split_chapters lines [e])
  <> [ nav_header Markdown "PDF-Spec-Index" None "T" None None
       ++ Str.concat (Spec.source_lines lines (e_start e)
                        (Z.min (e_end e) L - 1))
       ++ nav_footer Markdown "PDF-Spec-Index" None None ].
Proof. vm_compute. discriminate. Qed.

End WikiFacts.

(** * The navigation of the pages *)

Module NavFacts.
Import Wiki WikiProps WikiFacts NavProps.

Lemma truthy_nonempty (s : string) : s <> "" -> Str.truthy s = true.
Proof. destruct s; [now intros [] | reflexivity]. Qed.

Lemma prev_link_first st sections :
  prev_link st (prev_page sections 0) = "← Previous".
Proof. reflexivity. Qed.

Lemma prev_link_later st sections i p :
  nth_error sections i = Some p -> e_filename p <> "" ->
  prev_link st (prev_page sections (S i)) = Spec.previous_link st (e_filename p).
Proof.
  intros H N. unfold prev_page. simpl. rewrite Nat.sub_0_r, H. simpl.
  unfold prev_link, link_target. now rewrite (truthy_nonempty _ N).
Qed.

Lemma next_link_last st sections i :
  S i = List.length sections ->
  next_link st (next_page sections i) = " | Next →".
Proof.
  intros H. unfold next_page.
  replace (Z.of_nat i <? Z.of_nat (List.length sections) - 1)%Z with false
    by (symmetry; apply Z.ltb_ge; lia).
  reflexivity.
Qed.

Lemma next_link_earlier st sections i n :
  nth_error sections (S i) = Some n -> e_filename n <> "" ->
  next_link st (next_page sections i) = Spec.next_link st (e_filename n).
Proof.
  intros H N. unfold next_page.
  assert (L : S i < List.length sections).
  { apply nth_error_Some. congruence. }
  replace (Z.of_nat i <? Z.of_nat (List.length sections) - 1)%Z with true
    by (symmetry; apply Z.ltb_lt; lia).
  rewrite Nat.add_1_r, H. simpl.
  unfold next_link, link_target. now rewrite (truthy_nonempty _ N).
Qed.

Lemma split_navigation (st : style) (index_page : string)
      (parent : option string) (clamp : bool) (lines : list string)
      (sections : list entry) :
  Forall (fun x => e_filename x <> "") sections ->
  carries_navigation (split st index_page parent clamp lines sections)
                     sections (Spec.part_of parent)
                     (Spec.previous_link st) (Spec.next_link st)
                     (index_link st index_page).
Proof.
  intros Hne i e Hi.
  exists (prev_link st (prev_page sections i)),
         (next_link st (next_page sections i)),
         ("> **Navigation**: " ++ prev_link st (prev_page sections i)
          ++ index_link st index_page ++ next_link st (next_page sections i)),
         (page_content clamp lines e).
  rewrite Forall_forall in Hne.
  split; [| split; [reflexivity | split; [| split; [| split]]]].
  - rewrite (split_nth _ _ _ _ _ _ _ _ Hi). unfold write_wiki_page.
    unfold nav_header, nav_footer, Spec.part_of, Spec.rule.
    destruct parent; repeat rewrite StrFacts.app_assoc; reflexivity.
  - intros ->. apply prev_link_first.
  - intros j p -> Hp. apply prev_link_later; [exact Hp |].
    apply Hne. eapply nth_error_In, Hp.
  - apply next_link_last.
  - intros n Hn. apply next_link_earlier; [exact Hn |].
    apply Hne. eapply nth_error_In, Hn.
Qed.

(** C4: for each of the five splitters and every table with non-empty
    file names, every page carries the same navigation line in its header
    and in its footer; the line links to the index of the script
    ([PDF-Spec-Index] or [PDF20-Spec-Index], in the link syntax of the
    script), links Previous to the file of the entry before and Next to
    the file of the entry after, and has plain text instead on the first
    and on the last page. *)
Theorem pages_carry_navigation :
  forall (lines : list string) (sections : list entry) (parent_name : string),
    Forall (fun x => e_filename x <> "") sections ->
    carries_navigation
      (SplitPdfSpec.split_chapters lines sections) sections ""
      (fun page => "[← Previous](" ++ page ++ ")")
      (fun page => " | [Next →](" ++ page ++ ")")
      " | [Index](PDF-Spec-Index)"
    /\ carries_navigation
         (SplitPdfSpecV2.split_chapter_into_sections lines sections
                                                     parent_name)
         sections ("> **Part of**: [[" ++ parent_name ++ "]]" ++ nl ++ nl)
         (fun page => "[[" ++ page ++ "|← Previous]]")
         (fun page => " | [[" ++ page ++ "|Next →]]")
         " | [[PDF-Spec-Index|Index]]"
    /\ carries_navigation
         (SplitPdfSpecV3.split_file lines sections parent_name)
         sections ("> **Part of**: [[" ++ parent_name ++ "]]" ++ nl ++ nl)
         (fun page => "[[" ++ page ++ "|← Previous]]")
         (fun page => " | [[" ++ page ++ "|Next →]]")
         " | [[PDF-Spec-Index|Index]]"
    /\ carries_navigation
         (SplitPdf20Spec.split_chapters lines sections)
         sections ("> **Part of**: [[PDF20-Spec-Index]]" ++ nl ++ nl)
         (fun page => "[[" ++ page ++ "|← Previous]]")
         (fun page => " | [[" ++ page ++ "|Next →]]")
         " | [[PDF20-Spec-Index|Index]]"
    /\ carries_navigation
         (SplitPdf20SpecV2.split_file lines sections parent_name)
         sections ("> **Part of**: [[" ++ parent_name ++ "]]" ++ nl ++ nl)
         (fun page => "[[" ++ page ++ "|← Previous]]")
         (fun page => " | [[" ++ page ++ "|Next →]]")
         " | [[PDF20-Spec-Index|Index]]".
Proof.
  intros lines sections parent_name Hne.
  repeat split.
  - exact (split_navigation Markdown "PDF-Spec-Index" None false
                            lines sections Hne).
  - exact (split_navigation WikiLinks "PDF-Spec-Index" (Some parent_name)
                            true lines sections Hne).
  - exact (split_navigation WikiLinks "PDF-Spec-Index" (Some parent_name)
                            true lines sections Hne).
  - exact (split_navigation WikiLinks "PDF20-Spec-Index"
                            (Some "PDF20-Spec-Index") true lines sections Hne).
  - exact (split_navigation WikiLinks "PDF20-Spec-Index" (Some parent_name)
                            true lines sections Hne).
Qed.

Lemma chapters_named :
  Forall (fun x => e_filename x <> "") SplitPdfSpec.CHAPTERS.
Proof. repeat constructor; discriminate. Qed.

Lemma two_sections_named :
  Forall (fun x => e_filename x <> "") two_sections.
Proof. repeat constructor; discriminate. Qed.

Lemma pages_carry_navigation_witness :
  (exists body : string,
      nth_error (SplitPdfSpec.main ["x"; "y"]) 1
      = Some (wiki_path "PDF-Spec-01-Scope.md",
              ("# PDF Spec Chapter 1: Scope" ++ nl ++ nl
               ++ ("> **Navigation**: [← Previous](PDF-Spec-Front-Matter)"
                   ++ " | [Index](PDF-Spec-Index)"
                   ++ " | [Next →](PDF-Spec-02-Conformance)")
               ++ Spec.rule)
              ++ body
              ++ (Spec.rule
                  ++ ("> **Navigation**: [← Previous](PDF-Spec-Front-Matter)"
                      ++ " | [Index](PDF-Spec-Index)"
                      ++ " | [Next →](PDF-Spec-02-Conformance)")
                  ++ nl)))
  /\ (exists body : string,
         nth_error (SplitPdf20SpecV2.split_file ["x"; "y"] two_sections
                                                "PDF20-Spec-09-Text") 1
         = Some (wiki_path "PDF-Spec-10-Color.md",
                 ("# Color" ++ nl ++ nl
                  ++ ("> **Part of**: [[PDF20-Spec-09-Text]]" ++ nl ++ nl)
                  ++ ("> **Navigation**: [[PDF-Spec-10-General|← Previous]]"
                      ++ " | [[PDF20-Spec-Index|Index]]" ++ " | Next →")
                  ++ Spec.rule)
                 ++ body
                 ++ (Spec.rule
                     ++ ("> **Navigation**: [[PDF-Spec-10-General|← Previous]]"
                         ++ " | [[PDF20-Spec-Index|Index]]" ++ " | Next →")
                     ++ nl))).
Proof.
  split.
  - destruct (proj1 (pages_carry_navigation ["x"; "y"] SplitPdfSpec.CHAPTERS
                       "" chapters_named) 1
                    (196, 208, "PDF-Spec-01-Scope",
                     "PDF Spec Chapter 1: Scope")%Z eq_refl)
      as (previous & next & nav & body & Hw & Hnav & _ & Hp & _ & Hn).
    exists body.
    rewrite (Hp 0 _ eq_refl eq_refl) in Hnav.
    rewrite (Hn _ eq_refl) in Hnav. subst nav. exact Hw.
  - destruct (proj2 (proj2 (proj2 (proj2
                (pages_carry_navigation ["x"; "y"] two_sections
                   "PDF20-Spec-09-Text" two_sections_named)))) 1
                    (52, 181, "PDF-Spec-10-Color", "Color")%Z eq_refl)
      as (previous & next & nav & body & Hw & Hnav & _ & Hp & Hl & _).
    exists body.
    rewrite (Hp 0 _ eq_refl eq_refl) in Hnav.
    rewrite (Hl eq_refl) in Hnav. subst nav. exact Hw.
Defined.

End NavFacts.

(** * Greedy loops that end a pattern *)

Module GreedyFacts.
Import Re ReSpec ReProps ReFacts GreedyProps.

Lemma skip_length (p : ascii -> bool) (s : string) :
  String.length (skip p s) <= String.length s.
Proof.
  induction s as [|a s IH]; simpl; [lia |]. destruct (p a); simpl; lia.
Qed.

Lemma star_cls_total (p : ascii -> bool) (k : cont) :
  total k ->
  forall fuel s c,
    String.length s <= fuel ->
    star_loop (exec (Cls p)) fuel s c k = k (skip p s) c.
Proof.
  intros Hk. induction fuel as [|fuel IH]; intros s c Hf.
  - destruct s; [reflexivity | simpl in Hf; lia].
  - simpl. destruct s as [|a s]; [reflexivity |].
    simpl in Hf. simpl. destruct (p a); [| reflexivity].
    replace (String.length s <? S (String.length s)) with true
      by (symmetry; apply Nat.ltb_lt; lia).
    rewrite IH by lia.
    destruct (k (skip p s) c) eqn:E; [reflexivity | now elim (Hk _ _ E)].
Qed.

Lemma skip_stops (p : ascii -> bool) (s : string) : stops p (skip p s).
Proof.
  induction s as [|a s IH]; simpl; [exact I |].
  destruct (p a) eqn:E; [exact IH | exact E].
Qed.

Lemma final_group_stops (n : nat) (p : ascii -> bool) s c s' c' :
  exec (Group n (Star (Cls p))) s c ret = Some (s', c') -> stops p s'.
Proof.
  change (exec (Group n (Star (Cls p))) s c ret)
    with (star_loop (exec (Cls p)) (String.length s) s c
            (fun s' c' => ret s' ((n, consumed s s') :: c'))).
  rewrite star_cls_total; [| intros ? ?; discriminate | lia].
  intros H; injection H as <- _. apply skip_stops.
Qed.

(** the run of [Seq r1 r2] passes through a run of [r2] on a suffix *)
Lemma exec_seq_tail r1 r2 s c k res :
  exec (Seq r1 r2) s c k = Some res ->
  exists u s1 c1, s = u ++ s1 /\ exec r2 s1 c1 k = Some res.
Proof.
  simpl. intros H. apply exec_sound in H as (u & s1 & c1 & E & _ & H).
  eauto.
Qed.

Lemma stops_dot_suffix (u s : string) :
  Str.count "010"%char (u ++ s) = 0 -> stops dot s -> s = "".
Proof.
  rewrite StrFacts.count_app. intros H. destruct s as [|a s]; [reflexivity |].
  simpl. unfold dot. intros E. apply negb_false_iff in E.
  simpl in H. rewrite E in H. lia.
Qed.

(** ** The groups do not decide whether a run succeeds *)

Lemma succeeds_orelse (a b : option result) :
  succeeds (orelse a b) <-> succeeds a \/ succeeds b.
Proof.
  split.
  - intros [x H]. apply orelse_some in H as [H | [_ H]];
      [left | right]; now exists x.
  - intros [H | H]; [now apply orelse_succeeds_l | now apply orelse_succeeds_r].
Qed.

Lemma not_succeeds_none (o : option result) : ~ succeeds o <-> o = None.
Proof.
  split.
  - destruct o as [x|]; [| reflexivity]. intros H. elim H. now exists x.
  - intros -> [x H]. discriminate.
Qed.

Lemma star_loop_caps (step : string -> caps -> cont -> option result) :
  (forall s c1 c2 k1 k2, same_success k1 k2 ->
       succeeds (step s c1 k1) <-> succeeds (step s c2 k2)) ->
  forall fuel s c1 c2 k1 k2, same_success k1 k2 ->
    succeeds (star_loop step fuel s c1 k1)
    <-> succeeds (star_loop step fuel s c2 k2).
Proof.
  intros Hstep. induction fuel as [|fuel IH]; intros s c1 c2 k1 k2 Hk; simpl.
  - apply Hk.
  - rewrite !succeeds_orelse. rewrite (Hk s c1 c2).
    rewrite (Hstep s c1 c2 _
               (fun s' c' => if String.length s' <? String.length s
                             then star_loop step fuel s' c' k2 else None)).
    + reflexivity.
    + intros s' d1 d2. destruct (String.length s' <? String.length s).
      * now apply IH.
      * reflexivity.
Qed.

Lemma exec_caps (r : regex) :
  forall s c1 c2 k1 k2, same_success k1 k2 ->
    succeeds (exec r s c1 k1) <-> succeeds (exec r s c2 k2).
Proof.
  induction r as [l | p | r1 IH1 r2 IH2 | r1 IH1 r2 IH2 | r IH | n r IH | r IH];
    intros s c1 c2 k1 k2 Hk; simpl.
  - destruct (strip_prefix l s); [apply Hk | reflexivity].
  - destruct s as [|a s]; [reflexivity |].
    destruct (p a); [apply Hk | reflexivity].
  - apply IH1. intros s' d1 d2. now apply IH2.
  - rewrite !succeeds_orelse. now rewrite (IH1 s c1 c2 k1 k2 Hk),
      (IH2 s c1 c2 k1 k2 Hk).
  - now apply star_loop_caps.
  - apply IH. intros s' d1 d2. apply Hk.
  - assert (E : succeeds (exec r s c1 ret) <-> succeeds (exec r s c2 ret)).
    { apply IH. intros s' d1 d2. split; intros _; eexists; reflexivity. }
    destruct (exec r s c1 ret) as [x|] eqn:E1;
      destruct (exec r s c2 ret) as [y|] eqn:E2.
    + reflexivity.
    + exfalso. destruct (proj1 E) as [z Hz]; [now exists x | discriminate].
    + exfalso. destruct (proj2 E) as [z Hz]; [now exists y | discriminate].
    + apply Hk.
Qed.

Lemma same_success_refl (k : cont) :
  (forall s c1 c2, succeeds (k s c1) <-> succeeds (k s c2)) ->
  same_success k k.
Proof. intros H; exact H. Qed.

Lemma ret_same_success : same_success ret ret.
Proof. intros s c1 c2. split; intros _; eexists; reflexivity. Qed.

(** ** Patterns of the shape [(.* )rest], run on a line *)

(** a match of [(.* )rest] can start earlier, over any text without a
    newline *)
Lemma prefix_absorb (n : nat) (rest : regex) (pre u post : string) (c : caps) :
  Matches (Seq (Group n dots) rest) u post [] c ->
  Str.forallb dot pre = true ->
  succeeds (exec (Seq (Group n dots) rest) (pre ++ u ++ post) [] ret).
Proof.
  intros M Hpre. apply seq_inv in M as (u1 & u2 & c1 & -> & M1 & M2).
  apply group_inv in M1 as (c0 & -> & M1).
  apply star_cls_inv in M1 as [Hu1 ->].
  assert (S2 : succeeds (exec rest (u2 ++ post) [(n, u1)] ret)).
  { apply (exec_complete _ _ _ _ _ _ M2). eexists; reflexivity. }
  assert (M1' : Matches (Group n dots) (pre ++ u1) (u2 ++ post) []
                        [(n, pre ++ u1)]).
  { constructor. apply star_cls_intro.
    now rewrite StrFacts.forallb_app, Hpre, Hu1. }
  replace (pre ++ (u1 ++ u2) ++ post) with ((pre ++ u1) ++ u2 ++ post)
    by now rewrite !StrFacts.app_assoc.
  simpl exec.
  apply (exec_complete _ _ _ _ _
           (fun s1 c1 => exec rest s1 c1 ret) M1').
  apply (exec_caps rest _ [(n, u1)] _ ret ret ret_same_success). exact S2.
Qed.

Lemma ends_with_dots_stops (r : regex) :
  ends_with_dots r ->
  forall s c s' c', exec r s c ret = Some (s', c') ->
                    exists u, s = u ++ s' /\ stops dot s'.
Proof.
  induction r as [l | p | r1 IH1 r2 IH2 | r1 IH1 r2 IH2 | r IH | n r IH | r IH];
    simpl; try contradiction.
  - intros E s c s' c' H.
    apply exec_seq_tail in H as (u & s1 & c1 & -> & H).
    destruct (IH2 E _ _ _ _ H) as (u' & -> & St).
    exists (u ++ u'). now rewrite StrFacts.app_assoc.
  - destruct r as [ | | | | r0 | | ]; try contradiction.
    destruct r0 as [ | p | | | | | ]; try contradiction.
    intros -> s c s' c' H.
    pose proof (final_group_stops _ _ _ _ _ _ H) as St.
    apply exec_sound in H as (u & s1 & c1 & -> & _ & H).
    injection H as <- _. now exists u.
Qed.

(** on a line, a match of [(.* )rest(.* )] is the whole line *)
Theorem line_match (n : nat) (rest : regex) (line : string) (m : match_obj) :
  ends_with_dots rest ->
  Str.count "010"%char line = 0 ->
  search (Seq (Group n dots) rest) line = Some m ->
  m_before m = "" /\ m_after m = "" /\ line = m_text m
  /\ Matches (Seq (Group n dots) rest) (m_text m) "" [] (m_caps m).
Proof.
  intros He Hnl H.
  pose proof (search_sound _ _ _ H) as [E M].
  assert (S0 : succeeds (exec (Seq (Group n dots) rest) line [] ret)).
  { rewrite <- (StrFacts.app_nil_r line).
    replace (line ++ "") with ("" ++ line ++ "") by reflexivity.
    rewrite E at 1.
    replace ("" ++ (m_before m ++ m_text m ++ m_after m) ++ "")
      with (m_before m ++ m_text m ++ m_after m)
      by (simpl; now rewrite StrFacts.app_nil_r).
    apply (prefix_absorb _ _ _ _ _ _ M).
    clear - E Hnl. rewrite E, StrFacts.count_app in Hnl.
    assert (C : Str.count "010"%char (m_before m) = 0) by lia.
    clear - C. induction (m_before m) as [|a s IH]; simpl in *;
      [reflexivity |].
    unfold dot at 1. destruct (Ascii.eqb a "010"%char); [discriminate |].
    now apply IH. }
  destruct S0 as [[s' c'] S0].
  assert (Hm : match_here (Seq (Group n dots) rest) "" line
               = Some (MkMatch "" (consumed line s') s' c')).
  { unfold match_here. now rewrite S0. }
  assert (Em : m = MkMatch "" (consumed line s') s' c').
  { unfold search in H. destruct line; simpl in H; rewrite Hm in H;
      now injection H. }
  assert (St : exists u, line = u ++ s' /\ stops dot s').
  { apply exec_seq_tail in S0 as (u & s1 & c1 & -> & S0).
    destruct (ends_with_dots_stops rest He _ _ _ _ S0) as (u' & -> & St).
    exists (u ++ u'). now rewrite StrFacts.app_assoc. }
  destruct St as (u & El & St).
  assert (s' = "").
  { apply (stops_dot_suffix u); [now rewrite <- El | exact St]. }
  subst s'. subst m. simpl in *.
  rewrite StrFacts.app_nil_r in E. now repeat split.
Qed.

End GreedyFacts.

(** * The final fixer, line by line *)

Module FinalFacts.
Import Re ReSpec ReProps ReFacts ReTac GreedyProps GreedyFacts FixAllFinal
  FinalProps.

Lemma is_arg_intro (s : string) :
  Str.truthy s = true -> Str.forallb (not_char comma) s = true ->
  Spec.is_arg s = true.
Proof. intros A B. unfold Spec.is_arg. now rewrite A. Qed.

Lemma is_number_intro (s : string) :
  Str.truthy s = true -> Str.forallb Str.is_digit s = true ->
  Spec.is_number s = true.
Proof. intros A B. unfold Spec.is_number. now rewrite A, B. Qed.

Lemma renderdpi_call_app (a1 w1 a2 w2 w3 n post : string) :
  Spec.renderdpi_call a1 w1 a2 w2 w3 n ++ post
  = ".RedactArea(" ++ a1 ++ "," ++ w1 ++ a2 ++ "," ++ w2 ++ "renderDpi:"
    ++ w3 ++ n ++ ")" ++ post.
Proof.
  unfold Spec.renderdpi_call. repeat rewrite StrFacts.app_assoc. reflexivity.
Qed.

Lemma fixed_call_app (a1 a2 p n post : string) :
  Spec.fixed_call a1 a2 p n ++ post
  = ".RedactArea(" ++ a1 ++ ", " ++ a2 ++ ", " ++ p ++ ", renderDpi: "
    ++ n ++ ")" ++ post.
Proof.
  unfold Spec.fixed_call. repeat rewrite StrFacts.app_assoc. reflexivity.
Qed.

Lemma renderdpi_line (line : string) (m : match_obj) :
  Str.count nl line = 0 ->
  search pattern_renderdpi line = Some m ->
  has_renderdpi_call line (m_group m 1) (m_group m 2) (m_group m 3)
                     (m_group m 4) (m_group m 5)
  /\ Str.forallb dot (m_group m 1) = true
  /\ Str.forallb dot (m_group m 5) = true.
Proof.
  intros Hnl H.
  apply line_match in H as (_ & _ & E & M); [| reflexivity | exact Hnl].
  destruct m as [b t a c]. simpl in *. subst t.
  unfold arg in M. inv_match. subst. simpl.
  split; [| split; assumption].
  do 3 eexists. rewrite renderdpi_call_app.
  split; [simpl; reflexivity |].
  repeat split; try assumption;
    first [now apply is_arg_intro | now apply is_number_intro].
Qed.

Lemma is_arg_elim (s : string) :
  Spec.is_arg s = true ->
  Str.truthy s = true /\ Str.forallb (not_char comma) s = true.
Proof. unfold Spec.is_arg. intros H. now apply andb_prop in H. Qed.

Lemma is_number_elim (s : string) :
  Spec.is_number s = true ->
  Str.truthy s = true /\ Str.forallb Str.is_digit s = true.
Proof. unfold Spec.is_number. intros H. now apply andb_prop in H. Qed.

Lemma seq_lit_intro l r u s c c' :
  Matches r u s c c' -> Matches (Seq (Lit l) r) (l ++ u) s c c'.
Proof. intros M. eapply MSeq; [apply MLit | exact M]. Qed.

Lemma seq_star_intro p r u1 u s c c' :
  Str.forallb p u1 = true -> Matches r u s c c' ->
  Matches (Seq (Star (Cls p)) r) (u1 ++ u) s c c'.
Proof. intros H M. eapply MSeq; [now apply star_cls_intro | exact M]. Qed.

Lemma seq_arg_intro n p r u1 u s c c' :
  Str.truthy u1 = true -> Str.forallb p u1 = true ->
  Matches r u s ((n, u1) :: c) c' ->
  Matches (Seq (Group n (Plus (Cls p))) r) (u1 ++ u) s c c'.
Proof.
  intros T H M. eapply MSeq; [| exact M].
  apply MGroup. now apply plus_cls_intro.
Qed.

Lemma group_dots_empty n s c : Matches (Group n dots) "" s c ((n, "") :: c).
Proof. apply MGroup. apply MStar0. Qed.

Ltac build_match :=
  unfold ws, digits;
  repeat first
    [ match goal with
      | |- Matches (Seq (Lit ?l) _) _ _ _ _ => apply (seq_lit_intro l)
      end
    | apply seq_star_intro; [assumption |]
    | apply seq_arg_intro; [assumption | assumption |]
    | apply group_dots_empty ].

Lemma renderdpi_occurs (line pre a1 a2 n post : string) :
  has_renderdpi_call line pre a1 a2 n post ->
  occurs pattern_renderdpi line.
Proof.
  intros (w1 & w2 & w3 & E & A1 & A2 & W1 & W2 & W3 & N).
  apply is_arg_elim in A1 as [T1 F1]. apply is_arg_elim in A2 as [T2 F2].
  apply is_number_elim in N as [TN FN].
  exists pre, (Spec.renderdpi_call a1 w1 a2 w2 w3 n), post. eexists.
  split; [exact E |].
  rewrite <- (StrFacts.app_nil_r (Spec.renderdpi_call a1 w1 a2 w2 w3 n)).
  rewrite renderdpi_call_app.
  unfold pattern_renderdpi, arg. cbn [seqs].
  apply (MSeq _ _ "" _ _ _ _ _ (MGroup _ _ _ _ _ _ (MStar0 _ _ _))).
  build_match.
Qed.

(** ** The other two patterns of the final fixer on a line *)

Lemma positional_line (line : string) (m : match_obj) :
  Str.count nl line = 0 ->
  search pattern_positional line = Some m ->
  exists w1 w2,
    line = m_group m 1 ++ ".RedactArea(" ++ m_group m 2 ++ "," ++ w1
           ++ m_group m 3 ++ "," ++ w2 ++ m_group m 4 ++ ")" ++ m_group m 5
    /\ Spec.is_arg (m_group m 2) = true /\ Spec.is_arg (m_group m 3) = true
    /\ Spec.is_ws w1 = true /\ Spec.is_ws w2 = true
    /\ Spec.is_number (m_group m 4) = true.
Proof.
  intros Hnl H.
  apply line_match in H as (_ & _ & E & M); [| reflexivity | exact Hnl].
  destruct m as [b t a c]. simpl in *. subst t.
  unfold arg in M. inv_match. subst. simpl.
  do 2 eexists. split; [reflexivity |].
  repeat split; try assumption;
    first [now apply is_arg_intro | now apply is_number_intro].
Qed.

Lemma two_args_line (line : string) (m : match_obj) :
  Str.count nl line = 0 ->
  search pattern_two_args line = Some m ->
  exists w1,
    line = m_group m 1 ++ ".RedactArea(" ++ m_group m 2 ++ "," ++ w1
           ++ m_group m 3 ++ ");" ++ m_group m 4
    /\ Spec.is_arg (m_group m 2) = true /\ Spec.is_ws w1 = true.
Proof.
  intros Hnl H.
  apply line_match in H as (_ & _ & E & M); [| reflexivity | exact Hnl].
  destruct m as [b t a c]. simpl in *. subst t.
  unfold arg in M. inv_match. subst. simpl.
  eexists. split; [reflexivity |].
  repeat split; try assumption. now apply is_arg_intro.
Qed.

(** the test of the two-argument branch, [',' in g and g.count(',') == 0],
    never holds *)
Lemma contains_char_count (c : ascii) (s : string) :
  Str.contains (String c "") s = true -> Str.count c s <> 0.
Proof.
  intros H. apply StrFacts.contains_inv in H as (pre & post & ->).
  rewrite StrFacts.count_app. simpl. rewrite Ascii.eqb_refl. lia.
Qed.

Lemma two_args_test_false (g : string) :
  Str.contains "," g && (Str.count comma g =? 0) = false.
Proof.
  destruct (Str.contains "," g) eqn:E; [| reflexivity].
  apply contains_char_count in E. simpl. now apply Nat.eqb_neq.
Qed.

(** ** What [fix_line] returns *)

Lemma fix_line_cases (path_var line : string) :
  fix_line_case path_var line (fix_line path_var line).
Proof.
  unfold fix_line.
  destruct (is_call_line line) eqn:C; [| constructor].
  destruct (already_fixed path_var line) eqn:A; [constructor |].
  destruct (search pattern_renderdpi line) as [m|] eqn:S1;
    [now apply RenderDpi |].
  destruct (search pattern_positional line) as [m|] eqn:S2;
    [now apply Positional |].
  destruct (search pattern_two_args line) as [m|] eqn:S3; [| constructor].
  rewrite two_args_test_false. constructor.
Qed.

(** ** A call with [renderDpi:] on a line *)

Lemma contains_call_line (line pre a1 a2 n post : string) :
  has_renderdpi_call line pre a1 a2 n post ->
  Str.contains "RedactArea(" line = true.
Proof.
  intros (w1 & w2 & w3 & -> & _). rewrite renderdpi_call_app.
  change (".RedactArea(" ++ a1 ++ "," ++ w1 ++ a2 ++ "," ++ w2
          ++ "renderDpi:" ++ w3 ++ n ++ ")" ++ post)
    with ("." ++ "RedactArea(" ++ a1 ++ "," ++ w1 ++ a2 ++ "," ++ w2
          ++ "renderDpi:" ++ w3 ++ n ++ ")" ++ post).
  rewrite <- StrFacts.app_assoc. apply StrFacts.contains_app.
Qed.

(** on a line that the final fixer looks at, that does not yet have the
    path variable as an argument and that holds a call with [renderDpi:],
    one such call is rewritten; the text before and after it is kept *)
Lemma final_fixer_rewrites :
  forall path_var line : string,
    Str.count nl line = 0 ->
    Str.contains "void RedactArea" line = false ->
    Str.contains "//" line = false ->
    already_fixed path_var line = false ->
    (exists pre arg1 arg2 n post,
        has_renderdpi_call line pre arg1 arg2 n post) ->
    exists pre arg1 arg2 n post,
      has_renderdpi_call line pre arg1 arg2 n post
      /\ fix_line path_var line
         = (pre ++ Spec.fixed_call arg1 arg2 path_var n ++ post, 1).
Proof.
  intros path_var line Hnl Hvoid Hcomment Hfixed
         (pre & a1 & a2 & n & post & Hcall).
  assert (C : is_call_line line = true).
  { unfold is_call_line.
    now rewrite (contains_call_line _ _ _ _ _ _ Hcall), Hvoid, Hcomment. }
  destruct (search_complete _ _ (renderdpi_occurs _ _ _ _ _ _ Hcall))
    as [m Hm].
  destruct (renderdpi_line line m Hnl Hm) as (Hcall' & _).
  exists (m_group m 1), (m_group m 2), (m_group m 3), (m_group m 4),
         (m_group m 5).
  split; [exact Hcall' |].
  unfold fix_line. rewrite C, Hfixed, Hm. now rewrite fixed_call_app.
Qed.

End FinalFacts.

(** * Which text the patchers touch *)

Module FrameFacts.
Import Re ReSpec ReProps ReFacts ReTac GreedyProps GreedyFacts FinalProps
  FinalFacts FrameProps.

(** a match of a pattern that has the literal [l] after a first part has
    [l] in it *)
Lemma search_contains_second (r1 r2 : regex) (l s : string) (m : match_obj) :
  search (Seq r1 (Seq (Lit l) r2)) s = Some m -> Str.contains l s = true.
Proof.
  intros H. apply search_sound in H as [E M].
  apply seq_inv in M as (u1 & u2 & c1 & Et & _ & M).
  apply seq_inv in M as (u3 & u4 & c2 & -> & M & _).
  apply lit_inv in M as [-> _].
  rewrite E, Et. rewrite !StrFacts.app_assoc.
  rewrite <- (StrFacts.app_assoc (m_before m) u1).
  apply StrFacts.contains_app.
Qed.

Lemma search_contains_first (r2 : regex) (l s : string) (m : match_obj) :
  search (Seq (Lit l) r2) s = Some m -> Str.contains l s = true.
Proof.
  intros H. apply search_sound in H as [E M].
  apply seq_inv in M as (u1 & u2 & c1 & Et & M & _).
  apply lit_inv in M as [-> _].
  rewrite E, Et. rewrite !StrFacts.app_assoc.
  apply StrFacts.contains_app.
Qed.

Lemma search_contains_grouped (n : nat) (r2 r3 : regex) (l s : string)
      (m : match_obj) :
  search (Seq (Group n (Seq (Lit l) r2)) r3) s = Some m ->
  Str.contains l s = true.
Proof.
  intros H. apply search_sound in H as [E M].
  apply seq_inv in M as (u1 & u2 & c1 & Et & M & _).
  apply group_inv in M as (c0 & _ & M).
  apply seq_inv in M as (u3 & u4 & c2 & -> & M & _).
  apply lit_inv in M as [-> _].
  rewrite E, Et. rewrite !StrFacts.app_assoc.
  apply StrFacts.contains_app.
Qed.

(** ** The final fixer *)

Lemma final_guard (path_var line : string) :
  Str.contains "void RedactArea" line = true
  \/ Str.contains "//" line = true ->
  FixAllFinal.fix_line path_var line = (line, 0).
Proof.
  intros H. unfold FixAllFinal.fix_line, FixAllFinal.is_call_line.
  destruct H as [-> | ->]; simpl;
    rewrite ?andb_false_r; reflexivity.
Qed.

Lemma final_changes_calls (path_var line : string) :
  fst (FixAllFinal.fix_line path_var line) <> line ->
  Str.contains ".RedactArea(" line = true.
Proof.
  destruct (fix_line_cases path_var line) as [| m _ _ H | m _ _ _ H];
    simpl; intros N.
  - now elim N.
  - exact (search_contains_second _ _ _ _ _ H).
  - exact (search_contains_second _ _ _ _ _ H).
Qed.

(** ** sub and finditer when nothing matches *)

Lemma sub_no_match (r : regex) (t : template) (s : string) :
  search r s = None -> sub r t s = s.
Proof. intros H. unfold sub. simpl. now rewrite H. Qed.

Lemma count_no_match (r : regex) (s : string) :
  search r s = None -> count_matches r s = 0.
Proof. intros H. unfold count_matches, finditer. simpl. now rewrite H. Qed.

Lemma count_positive (r : regex) (s : string) :
  (0 <? count_matches r s) = true -> exists m, search r s = Some m.
Proof.
  intros H. destruct (search r s) as [m|] eqn:E; [eauto |].
  rewrite (count_no_match _ _ E) in H. discriminate.
Qed.

(** ** fix_redactarea_calls.py *)

Lemma apply_pattern_changes (st : string * nat) (pr : regex * template) :
  fst (FixRedactAreaCalls.apply_pattern st pr) <> fst st ->
  exists m, search (fst pr) (fst st) = Some m.
Proof.
  destruct st as [content total], pr as [pattern replacement].
  unfold FixRedactAreaCalls.apply_pattern. simpl.
  destruct (0 <? count_matches pattern content) eqn:E.
  - intros _. now apply count_positive.
  - simpl. intros N. now elim N.
Qed.

Lemma calls_changes_calls (content : string) :
  fst (FixRedactAreaCalls.fix_content content) <> content ->
  Str.contains ".RedactArea(" content = true.
Proof.
  unfold FixRedactAreaCalls.fix_content, FixRedactAreaCalls.patterns.
  set (P := FixRedactAreaCalls.find_path_variable content).
  cbn [fold_left].
  remember (FixRedactAreaCalls.apply_pattern (content, 0)
              (FixRedactAreaCalls.pattern1,
               FixRedactAreaCalls.replacement1 P)) as st1 eqn:Est.
  destruct (string_dec (fst st1) content) as [E1 | N1].
  - intros N2. rewrite <- E1 in N2.
    apply apply_pattern_changes in N2 as [m H]. cbn [fst] in H.
    rewrite E1 in H.
    exact (search_contains_first _ _ _ _ H).
  - intros _. rewrite Est in N1.
    apply (apply_pattern_changes (content, 0)) in N1 as [m H].
    exact (search_contains_first _ _ _ _ H).
Qed.

(** ** fix_redactarea_phase3.py *)

Lemma phase3_changes_calls (content : string) :
  Phase3.fix_content content <> content ->
  Str.contains ".RedactArea(" content = true.
Proof.
  unfold Phase3.fix_content.
  set (P := Phase3.find_path_var content).
  destruct (search Phase3.pattern1 content) as [m|] eqn:S1;
    [intros _; exact (search_contains_grouped _ _ _ _ _ _ S1) |].
  rewrite (sub_no_match _ _ _ S1).
  destruct (search Phase3.pattern2 content) as [m|] eqn:S2;
    [intros _; exact (search_contains_grouped _ _ _ _ _ _ S2) |].
  rewrite (sub_no_match _ _ _ S2).
  destruct (search Phase3.pattern3 content) as [m|] eqn:S3;
    [intros _; exact (search_contains_grouped _ _ _ _ _ _ S3) |].
  rewrite (sub_no_match _ _ _ S3). intros N. now elim N.
Qed.

(** ** fix_redactarea_phase4.py *)

Lemma phase4_changes_calls (path_var line : string) :
  Phase4.fix_line path_var line <> line ->
  Str.contains ".RedactArea(" line = true
  \/ Str.contains ".RedactMatches(" line = true.
Proof.
  unfold Phase4.fix_line.
  destruct (search Phase4.pattern1 line) as [m1|] eqn:S1;
    [intros _; left; exact (search_contains_second _ _ _ _ _ S1) |].
  destruct (search Phase4.pattern2 line) as [m2|] eqn:S2;
    [intros _; left; exact (search_contains_second _ _ _ _ _ S2) |].
  destruct (search Phase4.pattern3 line) as [m3|] eqn:S3;
    [intros _; left; exact (search_contains_second _ _ _ _ _ S3) |].
  destruct (search Phase4.pattern4 line) as [m4|] eqn:S4;
    [intros _; left; exact (search_contains_second _ _ _ _ _ S4) |].
  destruct (search Phase4.pattern5 line) as [m5|] eqn:S5;
    [intros _; right; exact (search_contains_second _ _ _ _ _ S5) |].
  destruct (_ && _); intros N; now elim N.
Qed.

(** ** fix_redactarea_phase2.py *)

Lemma phase2_changes_calls (f : Fs.fs) (file_path content : string) :
  Fs.read file_path f = Some content ->
  fst (Phase2.fix_file f file_path) <> f ->
  Str.contains ".RedactArea(" content = true.
Proof.
  intros R N. unfold Phase2.fix_file in N. rewrite R in N.
  unfold finditer in N. cbn [finditer_fuel] in N.
  destruct (search Phase2.pattern content) as [m|] eqn:S.
  - exact (search_contains_first _ _ _ _ S).
  - now elim N.
Qed.




End FrameFacts.

(** * The final fixer run twice *)

Module IdemFacts.
Import Re ReSpec ReProps ReFacts ReTac GreedyProps GreedyFacts FinalProps
  FinalFacts FinderProps FinderFacts FixAllFinal.

Lemma class_excludes (p : ascii -> bool) (c : ascii) (s : string) :
  p c = false -> Str.forallb p s = true -> Str.count c s = 0.
Proof.
  intros Hc. induction s as [|a s IH]; simpl; [reflexivity |].
  intros H. apply andb_prop in H as [Ha Hs].
  destruct (Ascii.eqb_spec a c) as [->|]; [congruence | now apply IH].
Qed.

Lemma identifier_excludes (c : ascii) (v : string) :
  ident_char c = false -> Spec.is_identifier v = true -> Str.count c v = 0.
Proof.
  intros Hc. destruct v as [|a v]; [discriminate |]. simpl.
  intros H. apply andb_prop in H as [Ha Hv].
  rewrite (class_excludes _ _ _ Hc Hv).
  destruct (Ascii.eqb_spec a c) as [->|]; [| reflexivity].
  unfold ident_char in Hc. now rewrite Ha in Hc.
Qed.

(** ** The path variable of the final fixer is an identifier *)

Lemma finditer_fuel_search (r : regex) (fuel : nat) (s : string) (m : match_obj) :
  In m (finditer_fuel fuel r s) -> exists s0, search r s0 = Some m.
Proof.
  revert s; induction fuel as [|fuel IH]; intros s; simpl; [now intros [] |].
  destruct (search r s) as [m0|] eqn:E; [| now intros []].
  destruct (m_text m0) as [|a t]; [destruct (m_after m0) as [|b rest] |];
    simpl; intros [<- | H]; eauto; try contradiction.
Qed.

Lemma finditer_search (r : regex) (s : string) (m : match_obj) :
  In m (finditer r s) -> exists s0, search r s0 = Some m.
Proof. apply finditer_fuel_search. Qed.

Lemma declared_pdf_identifier (kw : string) :
  captures_identifier
    (seqs [Lit kw; ws1; Group 1 names; ws; Lit "="; ws; dots; Lit ".pdf"]).
Proof.
  intros s m H. read_search H. cbn [seqs] in H.
  inv_match. subst.
  match goal with
  | M : Matches names _ _ _ _ |- _ =>
      apply (alts_lit_inv
               ["pdfPath"; "inputPath"; "filePath"; "testPath"; "path"])
        in M as [Hin ->]
  end.
  simpl.
  repeat (destruct Hin as [<- | Hin]; [reflexivity |]). contradiction.
Qed.

Lemma found_vars_identifiers (content : string) :
  Forall (fun v => Spec.is_identifier v = true) (found_vars content).
Proof.
  unfold found_vars, path_patterns. simpl flat_map.
  rewrite app_nil_r.
  repeat (apply Forall_app; split);
    apply Forall_forall; intros v Hv;
    apply filter_In in Hv as [Hv _];
    apply in_map_iff in Hv as (m & <- & Hm);
    apply finditer_search in Hm as [s0 Hm].
  - exact (declared_pdf_identifier "var" _ _ Hm).
  - exact (declared_pdf_identifier "string" _ _ Hm).
  - exact (reader_open_identifier _ _ Hm).
Qed.

Lemma find_path_variables_identifier (content : string) :
  Spec.is_identifier (find_path_variables content) = true.
Proof.
  unfold find_path_variables.
  pose proof (found_vars_identifiers content) as F.
  destruct (found_vars content) as [|v0 found]; [reflexivity |].
  destruct (find _ _) as [p|] eqn:E.
  - apply find_some in E as [Hin _].
    repeat (destruct Hin as [<- | Hin]; [reflexivity |]). contradiction.
  - now inversion F.
Qed.

(** ** One line, twice *)

Lemma already_fixed_after (path_var pre post : string) :
  already_fixed path_var (pre ++ ", " ++ path_var ++ "," ++ post) = true.
Proof.
  unfold already_fixed.
  replace (pre ++ ", " ++ path_var ++ "," ++ post)
    with (pre ++ (", " ++ path_var ++ ",") ++ post)
    by (now rewrite !StrFacts.app_assoc).
  now rewrite StrFacts.contains_app.
Qed.

Lemma fix_line_fixed (path_var line : string) :
  already_fixed path_var line = true ->
  fix_line path_var line = (line, 0).
Proof.
  intros H. unfold fix_line. rewrite H. now destruct (is_call_line line).
Qed.

Lemma fixed_renderdpi (path_var g1 g2 g3 g4 g5 : string) :
  already_fixed path_var
    (g1 ++ ".RedactArea(" ++ g2 ++ ", " ++ g3 ++ ", " ++ path_var
     ++ ", renderDpi: " ++ g4 ++ ")" ++ g5) = true.
Proof.
  replace (g1 ++ ".RedactArea(" ++ g2 ++ ", " ++ g3 ++ ", " ++ path_var
           ++ ", renderDpi: " ++ g4 ++ ")" ++ g5)
    with ((g1 ++ ".RedactArea(" ++ g2 ++ ", " ++ g3) ++ ", " ++ path_var
          ++ "," ++ " renderDpi: " ++ g4 ++ ")" ++ g5)
    by (now rewrite !StrFacts.app_assoc).
  apply already_fixed_after.
Qed.

Lemma fixed_positional (path_var g1 g2 g3 g4 g5 : string) :
  already_fixed path_var
    (g1 ++ ".RedactArea(" ++ g2 ++ ", " ++ g3 ++ ", " ++ path_var
     ++ ", " ++ g4 ++ ")" ++ g5) = true.
Proof.
  replace (g1 ++ ".RedactArea(" ++ g2 ++ ", " ++ g3 ++ ", " ++ path_var
           ++ ", " ++ g4 ++ ")" ++ g5)
    with ((g1 ++ ".RedactArea(" ++ g2 ++ ", " ++ g3) ++ ", " ++ path_var
          ++ "," ++ " " ++ g4 ++ ")" ++ g5)
    by (now rewrite !StrFacts.app_assoc).
  apply already_fixed_after.
Qed.

Lemma fix_line_twice (path_var line : string) :
  fix_line path_var (fst (fix_line path_var line))
  = (fst (fix_line path_var line), 0).
Proof.
  pose proof (fix_line_cases path_var line) as C.
  destruct (fix_line path_var line) as [l' n] eqn:E.
  inversion C; subst; simpl.
  - exact E.
  - apply fix_line_fixed, fixed_renderdpi.
  - apply fix_line_fixed, fixed_positional.
Qed.

(** ** Newlines and commas of a rewritten line *)

Lemma ws_no_comma (w : string) : Spec.is_ws w = true -> Str.count comma w = 0.
Proof. apply class_excludes. reflexivity. Qed.

Lemma arg_no_comma (a : string) : Spec.is_arg a = true -> Str.count comma a = 0.
Proof.
  intros H. apply is_arg_elim in H as [_ H].
  revert H. apply class_excludes. reflexivity.
Qed.

Lemma number_no_comma (n : string) :
  Spec.is_number n = true -> Str.count comma n = 0.
Proof.
  intros H. apply is_number_elim in H as [_ H].
  revert H. apply class_excludes. reflexivity.
Qed.

Ltac count_parts :=
  repeat first [ rewrite StrFacts.count_app in *
               | progress simpl Str.count in * ].

Lemma fix_line_newline_free (path_var line : string) :
  Str.count nl line = 0 -> Str.count nl path_var = 0 ->
  Str.count nl (fst (fix_line path_var line)) = 0.
Proof.
  intros Hnl HP.
  destruct (fix_line_cases path_var line) as [| m _ _ H | m _ _ _ H]; simpl.
  - exact Hnl.
  - destruct (renderdpi_line line m Hnl H)
      as ((w1 & w2 & w3 & E & _) & _).
    rewrite E, renderdpi_call_app in Hnl. fold nl in *.
    count_parts. lia.
  - destruct (positional_line line m Hnl H) as (w1 & w2 & E & _).
    rewrite E in Hnl. fold nl in *. count_parts. lia.
Qed.

Lemma fix_line_commas (path_var line : string) :
  Str.count nl line = 0 ->
  Str.count comma (fst (fix_line path_var line))
  = Str.count comma line
    + snd (fix_line path_var line) * (1 + Str.count comma path_var).
Proof.
  intros Hnl.
  destruct (fix_line_cases path_var line) as [| m _ _ H | m _ _ _ H]; simpl.
  - lia.
  - destruct (renderdpi_line line m Hnl H)
      as ((w1 & w2 & w3 & E & A1 & A2 & W1 & W2 & W3 & N) & _).
    apply arg_no_comma in A1, A2. apply ws_no_comma in W1, W2, W3.
    apply number_no_comma in N.
    rewrite E at 1. rewrite renderdpi_call_app.
    count_parts. lia.
  - destruct (positional_line line m Hnl H)
      as (w1 & w2 & E & A1 & A2 & W1 & W2 & N).
    apply arg_no_comma in A1, A2. apply ws_no_comma in W1, W2.
    apply number_no_comma in N.
    rewrite E at 1. count_parts. lia.
Qed.

(** ** All lines, twice *)

Lemma fix_lines_cons (path_var line : string) (rest : list string) :
  fix_lines path_var (line :: rest)
  = (fst (fix_line path_var line) :: fst (fix_lines path_var rest),
     snd (fix_line path_var line) + snd (fix_lines path_var rest)).
Proof.
  simpl. destruct (fix_line path_var line), (fix_lines path_var rest).
  reflexivity.
Qed.

Lemma fix_lines_twice (path_var : string) (lines : list string) :
  fix_lines path_var (fst (fix_lines path_var lines))
  = (fst (fix_lines path_var lines), 0).
Proof.
  induction lines as [|line rest IH]; [reflexivity |].
  rewrite fix_lines_cons. cbn [fst]. rewrite fix_lines_cons.
  now rewrite fix_line_twice, IH.
Qed.

Lemma fix_lines_newline_free (path_var : string) (lines : list string) :
  Str.count nl path_var = 0 ->
  Forall (fun l => Str.count nl l = 0) lines ->
  Forall (fun l => Str.count nl l = 0) (fst (fix_lines path_var lines)).
Proof.
  intros HP. induction 1 as [|line rest Hl _ IH]; [constructor |].
  rewrite fix_lines_cons. cbn [fst]. constructor; [| exact IH].
  now apply fix_line_newline_free.
Qed.

Lemma fix_lines_nonempty (path_var : string) (lines : list string) :
  lines <> [] -> fst (fix_lines path_var lines) <> [].
Proof.
  destruct lines as [|line rest]; [now intros [] |].
  intros _. rewrite fix_lines_cons. discriminate.
Qed.

Lemma transform_eq (path_var content : string) :
  transform path_var content
  = (Str.join newline (fst (fix_lines path_var (Str.split nl content))),
     snd (fix_lines path_var (Str.split nl content))).
Proof.
  unfold transform. fold nl.
  now destruct (fix_lines path_var (Str.split nl content)).
Qed.

Lemma transform_twice (path_var content : string) :
  Str.count nl path_var = 0 ->
  transform path_var (fst (transform path_var content))
  = (fst (transform path_var content), 0).
Proof.
  intros HP. rewrite (transform_eq path_var content). cbn [fst].
  rewrite transform_eq. unfold newline. fold nl.
  rewrite StrFacts.split_join.
  - now rewrite fix_lines_twice.
  - apply fix_lines_nonempty, StrFacts.split_nonempty.
  - apply fix_lines_newline_free; [exact HP | apply StrFacts.split_no_sep].
Qed.

(** C8: the line transformation of [fix_file], run with the path
    variable found for a content, reports no fix and changes nothing
    when it is run again on its own output. *)
Theorem final_fixer_idempotent :
  forall content : string,
    let path_var := find_path_variables content in
    let output := fst (transform path_var content) in
    transform path_var output = (output, 0).
Proof.
  intros content path_var output. apply transform_twice.
  apply identifier_excludes; [reflexivity |].
  apply find_path_variables_identifier.
Qed.

End IdemFacts.

(** * fix_redactarea_calls.py on a content with its calls *)

Module CallFacts.
Import Re ReSpec ReProps ReFacts ReTac GreedyProps GreedyFacts FinderProps
  FinderFacts FinalProps FinalFacts FrameProps FrameFacts IdemFacts
  FixRedactAreaCalls CallProps.

(** ** Occurrences of a text *)

Lemma prefix_short (l x y : string) :
  prefix l (x ++ y) = true -> String.length l <= String.length x ->
  prefix l x = true.
Proof.
  revert x. induction l as [|d l IH]; intros x H L.
  - now destruct x.
  - destruct x as [|a x]; [simpl in L; lia |].
    simpl in *. destruct (ascii_dec d a); [| discriminate].
    apply IH; [exact H | lia].
Qed.

Lemma prefix_sep (c : ascii) (l x y : string) :
  Str.count c l = 0 -> prefix l (x ++ String c y) = prefix l x.
Proof.
  revert x. induction l as [|d l IH]; intros x H.
  - now destruct x.
  - simpl in H. destruct (Ascii.eqb_spec d c) as [->|N]; [lia |].
    destruct x as [|a x]; simpl.
    + destruct (ascii_dec d c); [contradiction | reflexivity].
    + destruct (ascii_dec d a); [apply IH; lia | reflexivity].
Qed.

Lemma contains_sep (c : ascii) (l x y : string) :
  Str.count c l = 0 ->
  Str.contains l (x ++ String c y) = Str.contains l x || Str.contains l y.
Proof.
  intros H. induction x as [|a x IH].
  - simpl append. rewrite (StrFacts.contains_unfold l (String c y)).
    change (String c y) with ("" ++ String c y) at 1.
    rewrite (prefix_sep c l "" y H).
    rewrite (StrFacts.contains_unfold l "").
    now destruct (prefix l "").
  - simpl append.
    rewrite (StrFacts.contains_unfold l (String a (x ++ String c y))).
    change (String a (x ++ String c y)) with (String a x ++ String c y).
    rewrite (prefix_sep c l (String a x) y H), IH.
    rewrite (StrFacts.contains_unfold l (String a x)).
    now destruct (prefix l (String a x)).
Qed.

Lemma contains_skip (d : ascii) (l u v : string) :
  Str.count d u = 0 ->
  Str.contains (String d l) (u ++ v) = Str.contains (String d l) v.
Proof.
  induction u as [|a u IH]; intros H; [reflexivity |].
  simpl in H. destruct (Ascii.eqb_spec a d) as [->|N]; [lia |].
  simpl append. rewrite StrFacts.contains_unfold.
  simpl prefix. destruct (ascii_dec d a) as [->|_]; [now elim N |].
  apply IH. lia.
Qed.

Lemma strip_prefix_none (l s : string) :
  prefix l s = false -> strip_prefix l s = None.
Proof.
  revert s. induction l as [|d l IH]; intros s H.
  - now destruct s.
  - destruct s as [|a s]; [reflexivity |]. simpl in *.
    destruct (ascii_dec d a) as [->|N].
    + rewrite Ascii.eqb_refl. now apply IH.
    + destruct (Ascii.eqb_spec d a); [contradiction | reflexivity].
Qed.

(** ** Where [search] finds a pattern that starts with a literal *)

Lemma seq_lit_starts (l : string) (r : regex) : starts_with l (Seq (Lit l) r).
Proof. intros s c k H. cbn [exec]. now rewrite strip_prefix_none. Qed.

Lemma pattern1_starts : starts_with head pattern1.
Proof. apply seq_lit_starts. Qed.

Lemma pattern2_starts : starts_with head pattern2.
Proof. apply seq_lit_starts. Qed.

Lemma search_from_here (r : regex) (before s : string) (m : match_obj) :
  match_here r before s = Some m -> search_from r before s = Some m.
Proof. intros H. destruct s; cbn [search_from]; now rewrite H. Qed.

Lemma search_from_cons (r : regex) (before : string) (a : ascii) (s : string) :
  search_from r before (String a s)
  = match match_here r before (String a s) with
    | Some m => Some m
    | None => search_from r (before ++ String a "") s
    end.
Proof. reflexivity. Qed.

Lemma search_from_skip (l : string) (r : regex) (pre before rest : string) :
  starts_with l r ->
  (forall p1 p2, pre = p1 ++ p2 -> p2 <> "" -> prefix l (p2 ++ rest) = false) ->
  search_from r before (pre ++ rest) = search_from r (before ++ pre) rest.
Proof.
  intros Hr. revert before. induction pre as [|a pre IH]; intros before H.
  - now rewrite StrFacts.app_nil_r.
  - simpl append.
    assert (N : match_here r before (String a (pre ++ rest)) = None).
    { unfold match_here. rewrite Hr; [reflexivity |].
      apply (H "" (String a pre)); [reflexivity | discriminate]. }
    cbn [search_from]; rewrite N.
    rewrite IH;
      [ now rewrite StrFacts.app_assoc
      | intros p1 p2 -> Hp; apply (H (String a p1) p2);
        [reflexivity | exact Hp] ].
Qed.

Lemma no_head_before (l lm pre rest : string) :
  String.length l = S (String.length lm) ->
  Str.contains l (pre ++ lm) = false ->
  forall p1 p2, pre = p1 ++ p2 -> p2 <> "" ->
                prefix l (p2 ++ lm ++ rest) = false.
Proof.
  intros L H p1 p2 -> Hp.
  destruct (prefix l (p2 ++ lm ++ rest)) eqn:E; [| reflexivity].
  rewrite <- StrFacts.app_assoc in E.
  apply prefix_short in E.
  - apply StrFacts.prefix_inv in E as [t Et].
    rewrite StrFacts.app_assoc, Et in H.
    now rewrite StrFacts.contains_app in H.
  - rewrite StrFacts.length_app, L.
    destruct p2; [now elim Hp | simpl; lia].
Qed.

Lemma search_from_none (l : string) (r : regex) (before s : string) :
  starts_with l r -> Str.contains l s = false ->
  search_from r before s = None.
Proof.
  intros Hr. revert before. induction s as [|a s IH]; intros before H;
    rewrite StrFacts.contains_unfold in H;
    destruct (prefix l _) eqn:E; try discriminate;
    cbn [search_from]; unfold match_here; rewrite (Hr _ _ _ E);
    [reflexivity | now apply IH].
Qed.

(** ** Running a pattern on a text of known shape *)

Lemma exec_seq (r1 r2 : regex) (s : string) (c : caps) (k : cont) :
  exec (Seq r1 r2) s c k = exec r1 s c (fun s1 c1 => exec r2 s1 c1 k).
Proof. reflexivity. Qed.

Lemma exec_lit (l s : string) (c : caps) (k : cont) :
  exec (Lit l) (l ++ s) c k = k s c.
Proof. cbn [exec]. now rewrite strip_prefix_app. Qed.

Lemma stops_fails (p : ascii -> bool) (s : string) (c : caps) (k : cont) :
  stops p s -> exec (Cls p) s c k = None.
Proof. destruct s as [|a s]; simpl; [reflexivity | now intros ->]. Qed.

Lemma star_cls_greedy (p : ascii -> bool) (w rest : string) (c : caps)
      (k : cont) (res : result) :
  Str.forallb p w = true -> stops p rest -> k rest c = Some res ->
  forall fuel, String.length (w ++ rest) <= fuel ->
    star_loop (exec (Cls p)) fuel (w ++ rest) c k = Some res.
Proof.
  intros Hw Hs Hk. induction w as [|a w IH]; intros fuel Hf.
  - simpl append. destruct fuel; cbn [star_loop]; [exact Hk |].
    now rewrite stops_fails, Hk.
  - simpl in Hw. apply andb_prop in Hw as [Ha Hw].
    destruct fuel as [|fuel]; [simpl in Hf; lia |].
    simpl append. cbn [star_loop exec]. rewrite Ha.
    replace (String.length (w ++ rest) <? String.length (String a (w ++ rest)))
      with true by (symmetry; apply Nat.ltb_lt; simpl; lia).
    rewrite IH; [reflexivity | exact Hw | simpl in Hf; lia].
Qed.

Lemma exec_star_cls (p : ascii -> bool) (w rest : string) (c : caps)
      (k : cont) (res : result) :
  Str.forallb p w = true -> stops p rest -> k rest c = Some res ->
  exec (Star (Cls p)) (w ++ rest) c k = Some res.
Proof.
  intros Hw Hs Hk.
  change (exec (Star (Cls p)) (w ++ rest) c k)
    with (star_loop (exec (Cls p)) (String.length (w ++ rest)) (w ++ rest) c k).
  now apply star_cls_greedy.
Qed.

Lemma exec_plus_cls (p : ascii -> bool) (w rest : string) (c : caps)
      (k : cont) (res : result) :
  Str.truthy w = true -> Str.forallb p w = true -> stops p rest ->
  k rest c = Some res ->
  exec (Plus (Cls p)) (w ++ rest) c k = Some res.
Proof.
  destruct w as [|a w]; [discriminate |]. intros _ Hw Hs Hk.
  simpl in Hw. apply andb_prop in Hw as [Ha Hw].
  unfold Plus. rewrite exec_seq. simpl append. cbn [exec]. rewrite Ha.
  now apply exec_star_cls.
Qed.

Lemma exec_group_plus (n : nat) (p : ascii -> bool) (w rest : string)
      (c : caps) (k : cont) (res : result) :
  Str.truthy w = true -> Str.forallb p w = true -> stops p rest ->
  k rest ((n, w) :: c) = Some res ->
  exec (Group n (Plus (Cls p))) (w ++ rest) c k = Some res.
Proof.
  intros Ht Hw Hs Hk.
  change (exec (Group n (Plus (Cls p))) (w ++ rest) c k)
    with (exec (Plus (Cls p)) (w ++ rest) c
               (fun s' c' => k s' ((n, consumed (w ++ rest) s') :: c'))).
  apply exec_plus_cls; try assumption.
  now rewrite consumed_app.
Qed.

Lemma exec_ws (w rest : string) (c : caps) (k : cont) (res : result) :
  Spec.is_ws w = true -> stops Str.is_space rest -> k rest c = Some res ->
  exec ws (w ++ rest) c k = Some res.
Proof. intros. now apply exec_star_cls. Qed.

Lemma exec_ws_none (rest : string) (c : caps) (k : cont) (res : result) :
  stops Str.is_space rest -> k rest c = Some res ->
  exec ws rest c k = Some res.
Proof. intros. now apply (exec_ws "" rest). Qed.

(** ** The classes *)

Lemma digit_not_space (a : ascii) :
  Str.is_digit a = true -> Str.is_space a = false.
Proof.
  destruct a as [[] [] [] [] [] [] [] []]; vm_compute; congruence.
Qed.

Lemma ident_start_not_space (a : ascii) :
  ident_start a = true -> Str.is_space a = false.
Proof.
  destruct a as [[] [] [] [] [] [] [] []]; vm_compute; congruence.
Qed.

Lemma ident_start_not_digit (a : ascii) :
  ident_start a = true -> Str.is_digit a = false.
Proof.
  destruct a as [[] [] [] [] [] [] [] []]; vm_compute; congruence.
Qed.

Lemma space_not_comma (a : ascii) :
  Str.is_space a = true -> not_char comma a = true.
Proof.
  destruct a as [[] [] [] [] [] [] [] []]; vm_compute; congruence.
Qed.

Lemma digit_not_comma (a : ascii) :
  Str.is_digit a = true -> not_char comma a = true.
Proof.
  destruct a as [[] [] [] [] [] [] [] []]; vm_compute; congruence.
Qed.

Lemma lstrip_length (s : string) :
  String.length (Str.lstrip s) <= String.length s.
Proof.
  induction s as [|a s IH]; simpl; [lia |].
  destruct (Str.is_space a); simpl; lia.
Qed.

Lemma lstrip_stops (s rest : string) :
  Str.truthy s = true -> Str.lstrip s = s -> stops Str.is_space (s ++ rest).
Proof.
  destruct s as [|a s]; [discriminate |]. intros _ H. simpl in *.
  destruct (Str.is_space a); [| reflexivity].
  pose proof (lstrip_length s) as L. rewrite H in L. simpl in L. lia.
Qed.

Lemma number_stops (n rest : string) :
  Spec.is_number n = true -> stops Str.is_space (n ++ rest).
Proof.
  unfold Spec.is_number. destruct n as [|a n]; [discriminate |]. simpl.
  intros H. apply andb_prop in H as [Ha _]. now apply digit_not_space.
Qed.

(** ** The match of Pattern 1 on the call *)

Section OneCall.

Variables pre arg1 w1 arg2 w2 w3 n post : string.
Hypothesis Harg1 : Spec.is_arg arg1 = true.
Hypothesis Harg2 : Spec.is_arg arg2 = true.
Hypothesis Hw1 : Spec.is_ws w1 = true.
Hypothesis Hw2 : Spec.is_ws w2 = true.
Hypothesis Hw3 : Spec.is_ws w3 = true.
Hypothesis Hn : Spec.is_number n = true.
Hypothesis Hl1 : Str.lstrip arg1 = arg1.
Hypothesis Hl2 : Str.lstrip arg2 = arg2.

Lemma pattern1_exec :
  exec pattern1 (Spec.renderdpi_call arg1 w1 arg2 w2 w3 n ++ post) [] ret
  = Some (post, [(3, n); (2, arg2); (1, arg1)]).
Proof.
  rewrite renderdpi_call_app. unfold pattern1. cbn [seqs].
  apply andb_prop in Harg1 as [T1 C1]. apply andb_prop in Harg2 as [T2 C2].
  pose proof Hn as Hn'. apply andb_prop in Hn' as [T3 D3].
  rewrite exec_seq, exec_lit, exec_seq.
  apply exec_ws_none; [now apply lstrip_stops |].
  rewrite exec_seq.
  apply exec_group_plus; [exact T1 | exact C1 | reflexivity |].
  rewrite exec_seq. change ("," ++ w1 ++ arg2 ++ "," ++ w2 ++ "renderDpi:" ++ w3
                            ++ n ++ ")" ++ post)
    with ("," ++ (w1 ++ arg2 ++ "," ++ w2 ++ "renderDpi:" ++ w3
                  ++ n ++ ")" ++ post)).
  rewrite exec_lit, exec_seq.
  apply exec_ws; [exact Hw1 | now apply lstrip_stops |].
  rewrite exec_seq.
  apply exec_group_plus; [exact T2 | exact C2 | reflexivity |].
  rewrite exec_seq. rewrite exec_lit, exec_seq.
  apply exec_ws; [exact Hw2 | reflexivity |].
  rewrite exec_seq, exec_lit, exec_seq.
  apply exec_ws; [exact Hw3 | now apply number_stops |].
  rewrite exec_seq. unfold digits.
  apply exec_group_plus; [exact T3 | exact D3 | reflexivity |].
  rewrite exec_seq. apply exec_ws_none; [reflexivity |].
  now rewrite exec_lit.
Qed.

End OneCall.

(** ** First occurrences of a character *)

Lemma split_first (c : ascii) (u v x y : string) :
  Str.count c u = 0 -> Str.count c v = 0 ->
  u ++ String c x = v ++ String c y -> u = v /\ x = y.
Proof.
  revert v. induction u as [|a u IH]; intros [|b v] Hu Hv E; simpl in *.
  - now injection E as ->.
  - injection E as <- _. rewrite Ascii.eqb_refl in Hv. lia.
  - injection E as -> _. rewrite Ascii.eqb_refl in Hu. lia.
  - injection E as -> E.
    destruct (Ascii.eqb b c); [lia |].
    destruct (IH v Hu Hv E) as [-> ->]. auto.
Qed.

Lemma first_of (c d : ascii) (u v x y : string) :
  c <> d ->
  Str.count c v = 0 -> Str.count d u = 0 ->
  u ++ String c x = v ++ String d y -> False.
Proof.
  intros N. revert v. induction u as [|a u IH]; intros [|b v] Hv Hu E;
    simpl in *.
  - injection E as E _. contradiction.
  - injection E as <- _. rewrite Ascii.eqb_refl in Hv. lia.
  - injection E as -> _. rewrite Ascii.eqb_refl in Hu. lia.
  - injection E as -> E.
    destruct (Ascii.eqb b c); [lia |]. destruct (Ascii.eqb b d); [lia |].
    exact (IH v Hv Hu E).
Qed.

Lemma spaces_no_comma (w : string) :
  Str.forallb Str.is_space w = true -> Str.count comma w = 0.
Proof.
  intros H. apply StrFacts.count_forallb_not.
  exact (StrFacts.forallb_impl _ _ _ space_not_comma H).
Qed.

(** ** The path variable of fix_redactarea_calls.py is an identifier *)

Lemma first_match_identifier (pats : list regex) (content v : string) :
  Forall captures_identifier pats ->
  first_match pats content = Some v -> Spec.is_identifier v = true.
Proof.
  induction 1 as [|p pats Hp _ IH]; cbn [first_match]; [discriminate |].
  destruct (search p content) as [m|] eqn:E; [| exact IH].
  intros [= <-]. now apply (Hp content).
Qed.

Lemma ident_start_identifier (s : string) :
  Str.truthy s = true -> Str.forallb ident_start s = true ->
  Spec.is_identifier s = true.
Proof.
  destruct s as [|a s]; [discriminate |]. simpl. intros _ H.
  apply andb_prop in H as [Ha Hs]. rewrite Ha. simpl.
  apply (StrFacts.forallb_impl ident_start); [| exact Hs].
  intros b Hb. unfold ident_char. now rewrite Hb.
Qed.

Lemma fallback_identifier : captures_identifier fallback_pattern.
Proof.
  intros s m H. read_search H.
  unfold fallback_pattern, decl in H. cbn [seqs] in H.
  inv_match. subst. simpl m_group.
  cbn [Re.group Nat.eqb].
  apply ident_start_identifier.
  - match goal with
    | |- Str.truthy (?x ++ _) = true => destruct x; reflexivity
    end.
  - repeat rewrite StrFacts.forallb_app.
    repeat match goal with
           | H : Str.forallb ident_start _ = true |- _ => rewrite H; clear H
           end.
    match goal with
    | H : (Ascii.eqb ?a _ || Ascii.eqb ?a _) = true |- _ =>
        apply orb_prop in H as [H | H]; apply Ascii.eqb_eq in H; subst a;
        reflexivity
    end.
Qed.

Lemma calls_patterns_identifier : Forall captures_identifier path_patterns.
Proof.
  unfold path_patterns.
  repeat constructor;
    try (apply decl_lit_identifier; reflexivity);
    try apply reader_open_identifier.
  intros s m H. read_search H. cbn [seqs] in H.
  inv_match. subst. reflexivity.
Qed.

Lemma calls_finder_identifier (content : string) :
  Spec.is_identifier (find_path_variable content) = true.
Proof.
  unfold find_path_variable.
  destruct (first_match path_patterns content) as [v|] eqn:E.
  - exact (first_match_identifier _ _ _ calls_patterns_identifier E).
  - destruct (search fallback_pattern content) as [m|] eqn:F;
      [exact (fallback_identifier _ _ F) | reflexivity].
Qed.

(** ** The content with its calls *)

Ltac take_lit M :=
  let M0 := fresh "M" in
  apply seq_inv in M as (? & ? & ? & -> & M0 & M);
  apply lit_inv in M0 as [-> ->].

Ltac take_ws M w H :=
  let M0 := fresh "M" in
  apply seq_inv in M as (w & ? & ? & -> & M0 & M);
  apply star_cls_inv in M0 as [H ->].

Ltac take_group M g Ht Hg :=
  let M0 := fresh "M" in
  apply seq_inv in M as (g & ? & ? & -> & M0 & M);
  apply group_inv in M0 as (? & -> & M0);
  apply plus_cls_inv in M0 as (Ht & Hg & ->).

(** a call head cannot end in the head of the next call *)
Lemma contains_head_tail (t : string) :
  Str.contains head (t ++ ".RedactArea") = Str.contains head t.
Proof.
  induction t as [|a t IH]; [reflexivity |].
  simpl append. rewrite (StrFacts.contains_unfold head (String a t)).
  rewrite (StrFacts.contains_unfold head (String a (t ++ ".RedactArea"))).
  rewrite IH. unfold head at 1 3. cbn [prefix].
  destruct (ascii_dec "." a); [| reflexivity].
  change (t ++ ".RedactArea") with (t ++ String "."%char "RedactArea").
  now rewrite (prefix_sep "."%char) by reflexivity.
Qed.

Lemma before_call (pre rest : string) :
  Str.contains head pre = false ->
  forall p1 p2, pre = p1 ++ p2 -> p2 <> "" ->
                prefix head (p2 ++ head ++ rest) = false.
Proof.
  intros H. rewrite <- contains_head_tail in H.
  exact (no_head_before head ".RedactArea" pre ("(" ++ rest) eq_refl H).
Qed.

Lemma call_fixed_tail (path_var : string) (c : call) (post : string) :
  call_fixed path_var c ++ post
  = String "."%char (fixed_tail path_var c ++ post).
Proof.
  unfold call_fixed, fixed_tail. rewrite fixed_call_app.
  repeat rewrite StrFacts.app_assoc. reflexivity.
Qed.

Lemma call_fixed_head (path_var : string) (c : call) (post : string) :
  exists rest, call_fixed path_var c ++ post = head ++ rest.
Proof. unfold call_fixed. rewrite fixed_call_app. eauto. Qed.

Section Call.

Variables (c : call) (path_var : string).
Hypothesis Hc : plain_call c.
Hypothesis Hvar : Spec.is_identifier path_var = true.

Lemma search_call (pre post : string) :
  Str.contains head pre = false ->
  search pattern1 (pre ++ call_text c ++ post)
  = Some (MkMatch pre (call_text c) post
                  [(3, c_n c); (2, c_arg2 c); (1, c_arg1 c)]).
Proof.
  intros Hpre.
  destruct Hc as (A1 & A2 & W1 & W2 & W3 & N & L1 & L2 & _).
  unfold search, call_text.
  rewrite (search_from_skip head); [| exact pattern1_starts |].
  - apply search_from_here. unfold match_here.
    rewrite pattern1_exec by assumption.
    now rewrite consumed_app.
  - rewrite renderdpi_call_app. now apply before_call.
Qed.

Lemma expand_call (pre post : string) :
  expand (replacement1 path_var)
         (MkMatch pre (call_text c) post
                  [(3, c_n c); (2, c_arg2 c); (1, c_arg1 c)])
  = call_fixed path_var c.
Proof.
  unfold call_fixed, Spec.fixed_call, replacement1.
  cbn [expand m_group m_caps]. cbn [Re.group Nat.eqb].
  rewrite !StrFacts.app_assoc. reflexivity.
Qed.

Lemma no_head_after_fix (post : string) :
  Str.contains head post = false ->
  Str.contains head (fixed_tail path_var c ++ post) = false.
Proof.
  intros H3.
  destruct Hc as (_ & _ & _ & _ & _ & N & _ & _ & H1 & H2).
  unfold fixed_tail. repeat rewrite StrFacts.app_assoc.
  unfold head in *.
  rewrite (contains_skip "." _ "RedactArea(") by reflexivity.
  change (", " ++ c_arg2 c ++ ", " ++ path_var ++ ", renderDpi: " ++ c_n c
          ++ ")" ++ post)
    with (String comma (" " ++ c_arg2 c ++ ", " ++ path_var
                        ++ ", renderDpi: " ++ c_n c ++ ")" ++ post)).
  rewrite (contains_sep comma) by reflexivity. rewrite H1. cbn [orb].
  rewrite (contains_skip "." _ " ") by reflexivity.
  change (", " ++ path_var ++ ", renderDpi: " ++ c_n c ++ ")" ++ post)
    with (String comma (" " ++ path_var ++ ", renderDpi: " ++ c_n c ++ ")"
                        ++ post)).
  rewrite (contains_sep comma) by reflexivity. rewrite H2. cbn [orb].
  rewrite (contains_skip "." _ " ") by reflexivity.
  rewrite (contains_skip "." _ path_var)
    by (now apply identifier_excludes).
  rewrite (contains_skip "." _ ", renderDpi: ") by reflexivity.
  rewrite (contains_skip "." _ (c_n c)).
  - rewrite (contains_skip "." _ ")") by reflexivity. exact H3.
  - apply andb_prop in N as [_ D]. now apply (class_excludes Str.is_digit).
Qed.

Lemma var_head (rest : string) :
  exists a v, path_var ++ rest = String a (v ++ rest)
              /\ ident_start a = true.
Proof.
  destruct path_var as [|a v]; [discriminate |]. simpl in Hvar.
  apply andb_prop in Hvar as [Ha _]. now exists a, v.
Qed.

(** Pattern 1 does not match at a rewritten call: after the second
    argument comes the path variable, not [renderDpi:] *)
Lemma fixed_no_pattern1 (post text after : string) (cs : caps) :
  call_fixed path_var c ++ post = text ++ after ->
  Matches pattern1 text after [] cs -> False.
Proof.
  intros E M.
  destruct Hc as (Harg1 & Harg2 & _).
  unfold call_fixed in E. rewrite fixed_call_app in E.
  unfold pattern1 in M. cbn [seqs] in M.
  take_lit M. take_ws M sp0 Hs0. take_group M g1 Ht1 Hg1.
  take_lit M. take_ws M sp1 Hs1. take_group M g2 Ht2 Hg2.
  take_lit M. take_ws M sp2 Hs2. take_lit M. clear M.
  repeat rewrite StrFacts.app_assoc in E.
  apply StrFacts.app_inv_head in E.
  apply andb_prop in Harg1 as [_ C1]. apply andb_prop in Harg2 as [_ C2].
  rewrite <- (StrFacts.app_assoc sp0 g1) in E.
  apply (split_first comma) in E as [_ E];
    [| now apply StrFacts.count_forallb_not
     | rewrite StrFacts.count_app, (spaces_no_comma _ Hs0),
         (StrFacts.count_forallb_not _ _ Hg1); reflexivity].
  rewrite <- (StrFacts.app_assoc sp1 g2) in E.
  match type of E with
  | _ = _ ++ "," ++ ?y =>
      apply (split_first comma (" " ++ c_arg2 c) (sp1 ++ g2)
               (" " ++ path_var ++ ", renderDpi: " ++ c_n c ++ ")" ++ post) y)
        in E as [_ E]
  end;
    [| unfold comma; simpl; now rewrite (StrFacts.count_forallb_not _ _ C2)
     | rewrite StrFacts.count_app, (spaces_no_comma _ Hs1),
         (StrFacts.count_forallb_not _ _ Hg2); reflexivity].
  destruct sp2 as [|b [|b' sp2]]; simpl in E.
  - discriminate.
  - injection E as _ E. symmetry in E.
    apply (first_of ":" comma "renderDpi" path_var) in E;
      [exact E | discriminate | now apply identifier_excludes | reflexivity].
  - injection E as _ E.
    match type of E with
    | path_var ++ ?rest = _ => destruct (var_head rest) as (a & v & Ev & Ha)
    end.
    rewrite Ev in E. injection E as <- _.
    simpl in Hs2. rewrite (ident_start_not_space _ Ha) in Hs2.
    now rewrite andb_false_r in Hs2.
Qed.

(** Pattern 2 does not match at a rewritten call: the path variable is
    not a number *)
Lemma fixed_no_pattern2 (post text after : string) (cs : caps) :
  call_fixed path_var c ++ post = text ++ after ->
  Matches pattern2 text after [] cs -> False.
Proof.
  intros E M.
  destruct Hc as (Harg1 & Harg2 & _).
  unfold call_fixed in E. rewrite fixed_call_app in E.
  unfold pattern2 in M. cbn [seqs] in M.
  take_lit M. take_ws M sp0 Hs0. take_group M g1 Ht1 Hg1.
  take_lit M. take_ws M sp1 Hs1. take_group M g2 Ht2 Hg2.
  take_lit M. take_ws M sp2 Hs2. unfold digits in M.
  take_group M g3 Ht3 Hg3. clear M.
  repeat rewrite StrFacts.app_assoc in E.
  apply StrFacts.app_inv_head in E.
  apply andb_prop in Harg1 as [_ C1]. apply andb_prop in Harg2 as [_ C2].
  rewrite <- (StrFacts.app_assoc sp0 g1) in E.
  apply (split_first comma) in E as [_ E];
    [| now apply StrFacts.count_forallb_not
     | rewrite StrFacts.count_app, (spaces_no_comma _ Hs0),
         (StrFacts.count_forallb_not _ _ Hg1); reflexivity].
  rewrite <- (StrFacts.app_assoc sp1 g2) in E.
  match type of E with
  | _ = _ ++ "," ++ ?y =>
      apply (split_first comma (" " ++ c_arg2 c) (sp1 ++ g2)
               (" " ++ path_var ++ ", renderDpi: " ++ c_n c ++ ")" ++ post) y)
        in E as [_ E]
  end;
    [| unfold comma; simpl; now rewrite (StrFacts.count_forallb_not _ _ C2)
     | rewrite StrFacts.count_app, (spaces_no_comma _ Hs1),
         (StrFacts.count_forallb_not _ _ Hg2); reflexivity].
  destruct g3 as [|d g3]; [discriminate |].
  simpl in Hg3. apply andb_prop in Hg3 as [Hd _].
  destruct sp2 as [|b [|b' sp2]]; simpl in E.
  - injection E as <- _. discriminate.
  - injection E as _ E.
    match type of E with
    | path_var ++ ?rest = _ => destruct (var_head rest) as (a & v & Ev & Ha)
    end.
    rewrite Ev in E. injection E as <- _.
    now rewrite (ident_start_not_digit _ Ha) in Hd.
  - injection E as _ E.
    match type of E with
    | path_var ++ ?rest = _ => destruct (var_head rest) as (a & v & Ev & Ha)
    end.
    rewrite Ev in E. injection E as <- _.
    simpl in Hs2. rewrite (ident_start_not_space _ Ha) in Hs2.
    now rewrite andb_false_r in Hs2.
Qed.

End Call.

Lemma with_calls_app (render : call -> string) (x text : string)
      (calls : list (call * string)) :
  x ++ with_calls render text calls = with_calls render (x ++ text) calls.
Proof.
  destruct calls as [|[c t] rest]; cbn [with_calls]; [reflexivity |].
  now rewrite StrFacts.app_assoc.
Qed.

Lemma call_text_not_empty (c : call) (rest : string) :
  exists a s, call_text c ++ rest = String a s
              /\ call_text c = String a (Str.drop 1 (call_text c)).
Proof. unfold call_text, Spec.renderdpi_call. simpl. eauto. Qed.

Lemma with_calls_length (text : string) (calls : list (call * string)) :
  List.length calls <= String.length (with_calls call_text text calls).
Proof.
  revert text. induction calls as [|[c t] rest IH]; intros text;
    cbn [with_calls List.length]; [lia |].
  rewrite !StrFacts.length_app. specialize (IH t).
  unfold call_text at 1, Spec.renderdpi_call. simpl String.length. lia.
Qed.

Section Calls.

Variable path_var : string.
Hypothesis Hvar : Spec.is_identifier path_var = true.

Lemma search_no_head (r : regex) (text : string) :
  starts_with head r -> Str.contains head text = false ->
  search r text = None.
Proof. intros Hr H. now apply (search_from_none head). Qed.

Lemma sub_calls (calls : list (call * string)) :
  forall text fuel,
    List.length calls < fuel -> no_other_head text calls ->
    sub_fuel fuel pattern1 (replacement1 path_var)
             (with_calls call_text text calls)
    = with_calls (call_fixed path_var) text calls.
Proof.
  induction calls as [|[c t] rest IH]; intros text fuel Hf [Ht Hall];
    (destruct fuel as [|fuel]; [simpl in Hf; lia |]);
    cbn [with_calls sub_fuel].
  - now rewrite (search_no_head _ _ pattern1_starts Ht).
  - inversion Hall as [|? ? [Hc Hct] Hrest]; subst. cbn [fst snd] in *.
    rewrite (search_call c Hc text _ Ht).
    cbn [m_text m_after m_before]. rewrite expand_call.
    destruct (call_text_not_empty c "") as (a & s & _ & ->).
    cbv iota. f_equal. f_equal.
    apply IH; [simpl in Hf; lia | now split].
Qed.

Lemma count_calls (calls : list (call * string)) :
  forall text fuel,
    List.length calls < fuel -> no_other_head text calls ->
    List.length (finditer_fuel fuel pattern1 (with_calls call_text text calls))
    = List.length calls.
Proof.
  induction calls as [|[c t] rest IH]; intros text fuel Hf [Ht Hall];
    (destruct fuel as [|fuel]; [simpl in Hf; lia |]);
    cbn [with_calls finditer_fuel].
  - now rewrite (search_no_head _ _ pattern1_starts Ht).
  - inversion Hall as [|? ? [Hc Hct] Hrest]; subst. cbn [fst snd] in *.
    rewrite (search_call c Hc text _ Ht).
    cbn [m_text m_after m_before].
    destruct (call_text_not_empty c "") as (a & s & _ & ->).
    cbv iota. cbn [List.length]. f_equal.
    apply IH; [simpl in Hf; lia | now split].
Qed.

(** no pattern that starts with the call head and does not match at a
    rewritten call matches in the new content *)
Lemma fixed_no_match (r : regex) :
  starts_with head r -> not_at_fixed path_var r ->
  forall calls text before,
    no_other_head text calls ->
    search_from r before (with_calls (call_fixed path_var) text calls) = None.
Proof.
  intros Hr Hno. induction calls as [|[c t] rest IH];
    intros text before [Ht Hall]; cbn [with_calls].
  - now apply (search_from_none head).
  - inversion Hall as [|? ? [Hc Hct] Hrest]; subst. cbn [fst snd] in *.
    destruct (call_fixed_head path_var c
                (with_calls (call_fixed path_var) t rest)) as [tl Etl].
    rewrite Etl.
    rewrite (search_from_skip head); [| exact Hr | now apply before_call].
    rewrite <- Etl. rewrite call_fixed_tail, search_from_cons.
    destruct (match_here r _ _) as [m|] eqn:E.
    + exfalso. apply match_here_sound in E as (_ & E & M).
      rewrite <- call_fixed_tail in E.
      exact (Hno c _ _ _ _ Hc E M).
    + rewrite with_calls_app. apply IH. split; [| exact Hrest].
      now apply no_head_after_fix.
Qed.

Lemma count_content_calls (text : string) (calls : list (call * string)) :
  no_other_head text calls ->
  count_matches pattern1 (with_calls call_text text calls)
  = List.length calls.
Proof.
  intros H. unfold count_matches, finditer. apply count_calls; [| exact H].
  pose proof (with_calls_length text calls). lia.
Qed.

Lemma sub_content_calls (text : string) (calls : list (call * string)) :
  no_other_head text calls ->
  sub pattern1 (replacement1 path_var) (with_calls call_text text calls)
  = with_calls (call_fixed path_var) text calls.
Proof.
  intros H. unfold sub. apply sub_calls; [| exact H].
  pose proof (with_calls_length text calls). lia.
Qed.

Lemma fixed_search_pattern1 (text : string) (calls : list (call * string)) :
  no_other_head text calls ->
  search pattern1 (with_calls (call_fixed path_var) text calls) = None.
Proof.
  intros H. apply (fixed_no_match _ pattern1_starts); [| exact H].
  intros c post t a cs Hc. now apply fixed_no_pattern1.
Qed.

Lemma fixed_search_pattern2 (text : string) (calls : list (call * string)) :
  no_other_head text calls ->
  search pattern2 (with_calls (call_fixed path_var) text calls) = None.
Proof.
  intros H. apply (fixed_no_match _ pattern2_starts); [| exact H].
  intros c post t a cs Hc. now apply fixed_no_pattern2.
Qed.

Lemma fix_content_calls (text : string) (calls : list (call * string)) :
  no_other_head text calls ->
  find_path_variable (with_calls call_text text calls) = path_var ->
  fix_content (with_calls call_text text calls)
  = (with_calls (call_fixed path_var) text calls, List.length calls).
Proof.
  intros H Hp. unfold fix_content, patterns. rewrite Hp. cbn [fold_left].
  pose proof (fixed_search_pattern1 text calls H) as N1.
  pose proof (fixed_search_pattern2 text calls H) as N2.
  unfold apply_pattern at 2.
  rewrite (count_content_calls text calls H), (sub_content_calls text calls H),
    (count_no_match _ _ N1).
  destruct calls as [|ct rest].
  - cbn [List.length Nat.ltb Nat.leb with_calls] in *.
    unfold apply_pattern. now rewrite (count_no_match _ _ N2).
  - cbn [List.length Nat.ltb Nat.leb Nat.sub Nat.add].
    unfold apply_pattern. now rewrite (count_no_match _ _ N2).
Qed.

End Calls.




End CallFacts.

(** * When the patchers write *)

Module WriteFacts.
Import Re ReSpec ReProps ReFacts ReTac GreedyProps GreedyFacts FinalProps
  FinalFacts FrameProps FrameFacts IdemFacts WriteProps.

Lemma search_occurs (r : regex) (s : string) (m : match_obj) :
  search r s = Some m -> occurs r s.
Proof.
  intros H. apply search_sound in H as [E M].
  now exists (m_before m), (m_text m), (m_after m), (m_caps m).
Qed.

Lemma not_occurs_search (r : regex) (s : string) :
  ~ occurs r s -> search r s = None.
Proof.
  intros H. destruct (search r s) as [m|] eqn:E; [| reflexivity].
  elim H. exact (search_occurs _ _ _ E).
Qed.

(** ** fix_redactarea_calls.py *)

Lemma apply_pattern_no_match pattern replacement content n :
  search pattern content = None ->
  FixRedactAreaCalls.apply_pattern (content, n) (pattern, replacement)
  = (content, n).
Proof.
  intros H. unfold FixRedactAreaCalls.apply_pattern.
  now rewrite (count_no_match _ _ H).
Qed.

Lemma calls_unchanged (content : string) :
  ~ calls_pattern_occurs content ->
  fst (FixRedactAreaCalls.fix_content content) = content.
Proof.
  intros H.
  assert (S1 : search FixRedactAreaCalls.pattern1 content = None).
  { apply not_occurs_search. intros O. apply H. now left. }
  assert (S2 : search FixRedactAreaCalls.pattern2 content = None).
  { apply not_occurs_search. intros O. apply H. now right. }
  unfold FixRedactAreaCalls.fix_content, FixRedactAreaCalls.patterns.
  cbn [fold_left].
  now rewrite (apply_pattern_no_match _ _ _ _ S1),
    (apply_pattern_no_match _ _ _ _ S2).
Qed.

Lemma calls_writes (f : Fs.fs) (file_path original : string) :
  Fs.read file_path f = Some original ->
  fst (FixRedactAreaCalls.fix_redactarea_calls f file_path) = f
  \/ exists content,
       content <> original
       /\ calls_pattern_occurs original
       /\ fst (FixRedactAreaCalls.fix_redactarea_calls f file_path)
          = Fs.write file_path content
                     (Fs.write (file_path ++ ".bak") original f).
Proof.
  intros R. unfold FixRedactAreaCalls.fix_redactarea_calls. rewrite R.
  destruct (FixRedactAreaCalls.fix_content original) as [content n] eqn:E.
  destruct (String.eqb_spec content original) as [->|N]; [now left |].
  right. exists content. split; [exact N | split].
  - destruct (search FixRedactAreaCalls.pattern1 original) as [m|] eqn:S1;
      [left; exact (search_occurs _ _ _ S1) |].
    destruct (search FixRedactAreaCalls.pattern2 original) as [m|] eqn:S2;
      [right; exact (search_occurs _ _ _ S2) |].
    exfalso. apply N.
    assert (X : ~ calls_pattern_occurs original).
    { intros [O | O]; apply search_complete in O as [m O]; congruence. }
    apply calls_unchanged in X. now rewrite E in X.
  - reflexivity.
Qed.

(** ** fix_redactarea_phase3.py *)

Lemma phase3_unchanged (content : string) :
  ~ phase3_pattern_occurs content -> Phase3.fix_content content = content.
Proof.
  intros H. unfold Phase3.fix_content.
  rewrite (sub_no_match Phase3.pattern1)
    by (apply not_occurs_search; intros O; apply H; now left).
  rewrite (sub_no_match Phase3.pattern2)
    by (apply not_occurs_search; intros O; apply H; right; now left).
  rewrite (sub_no_match Phase3.pattern3)
    by (apply not_occurs_search; intros O; apply H; right; now right).
  reflexivity.
Qed.

Lemma occurs_dec_search (r : regex) (s : string) : occurs r s \/ ~ occurs r s.
Proof.
  destruct (search r s) as [m|] eqn:E.
  - left. exact (search_occurs _ _ _ E).
  - right. now apply search_none.
Qed.

Lemma phase3_writes (f : Fs.fs) (file_path original : string) :
  Fs.read file_path f = Some original ->
  Phase3.process_file f file_path = f
  \/ exists fixed,
       fixed <> original
       /\ phase3_pattern_occurs original
       /\ Phase3.process_file f file_path
          = Fs.write file_path fixed
                     (Fs.write (file_path ++ ".p3.bak") original f).
Proof.
  intros R. unfold Phase3.process_file. rewrite R.
  destruct (String.eqb_spec (Phase3.fix_content original) original)
    as [E|N]; [now left |].
  right. exists (Phase3.fix_content original).
  split; [exact N | split; [| reflexivity]].
  destruct (occurs_dec_search Phase3.pattern1 original) as [O1|N1];
    [now left |].
  destruct (occurs_dec_search Phase3.pattern2 original) as [O2|N2];
    [right; now left |].
  destruct (occurs_dec_search Phase3.pattern3 original) as [O3|N3];
    [right; now right |].
  exfalso. apply N. apply phase3_unchanged. intros [O | [O | O]]; tauto.
Qed.

(** ** fix_all_redactarea_final.py *)

Lemma list_sum_cons (x : nat) (l : list nat) :
  list_sum (x :: l) = x + list_sum l.
Proof. reflexivity. Qed.

Lemma fix_lines_commas (path_var : string) (lines : list string) :
  Forall (fun l => Str.count nl l = 0) lines ->
  list_sum (map (Str.count FixAllFinal.comma)
                (fst (FixAllFinal.fix_lines path_var lines)))
  = list_sum (map (Str.count FixAllFinal.comma) lines)
    + snd (FixAllFinal.fix_lines path_var lines)
      * (1 + Str.count FixAllFinal.comma path_var).
Proof.
  induction 1 as [|line rest Hl _ IH]; [reflexivity |].
  rewrite fix_lines_cons. cbn [fst snd map].
  rewrite !list_sum_cons.
  rewrite IH, (fix_line_commas _ _ Hl). lia.
Qed.

Lemma fix_lines_length (path_var : string) (lines : list string) :
  List.length (fst (FixAllFinal.fix_lines path_var lines)) = List.length lines.
Proof.
  induction lines as [|line rest IH]; [reflexivity |].
  rewrite fix_lines_cons. simpl. now rewrite IH.
Qed.

Lemma count_comma_lines (content : string) :
  Str.count FixAllFinal.comma content
  = list_sum (map (Str.count FixAllFinal.comma) (Str.split nl content)).
Proof.
  rewrite <- (StrFacts.join_split nl content) at 1.
  rewrite StrFacts.count_join. simpl. lia.
Qed.

Lemma transform_commas (path_var content : string) :
  Str.count FixAllFinal.comma (fst (FixAllFinal.transform path_var content))
  = Str.count FixAllFinal.comma content
    + snd (FixAllFinal.transform path_var content)
      * (1 + Str.count FixAllFinal.comma path_var).
Proof.
  rewrite transform_eq. cbn [fst snd]. unfold FixAllFinal.newline.
  rewrite StrFacts.count_join.
  rewrite fix_lines_commas by apply StrFacts.split_no_sep.
  rewrite (count_comma_lines content). simpl. lia.
Qed.

Lemma fix_lines_fixes (path_var : string) (lines : list string) :
  snd (FixAllFinal.fix_lines path_var lines) <> 0 ->
  exists line,
    In line lines
    /\ (occurs FixAllFinal.pattern_renderdpi line
        \/ occurs FixAllFinal.pattern_positional line).
Proof.
  induction lines as [|line rest IH]; [now intros [] |].
  rewrite fix_lines_cons. cbn [snd]. intros N.
  destruct (fix_line_cases path_var line) as [| m _ _ H | m _ _ _ H].
  - destruct IH as (l & Hin & O); [exact N |]. exists l. split; [now right | exact O].
  - exists line. split; [now left | left; exact (search_occurs _ _ _ H)].
  - exists line. split; [now left | right; exact (search_occurs _ _ _ H)].
Qed.

Lemma final_writes (f : Fs.fs) (file_path original : string) :
  Fs.read file_path f = Some original ->
  fst (FixAllFinal.fix_file f file_path) = f
  \/ exists new_content,
       new_content <> original
       /\ final_pattern_occurs original
       /\ fst (FixAllFinal.fix_file f file_path)
          = Fs.write file_path new_content
                     (Fs.write (file_path ++ ".final.bak") original f).
Proof.
  intros R. unfold FixAllFinal.fix_file. rewrite R.
  set (P := FixAllFinal.find_path_variables original).
  pose proof (transform_commas P original) as C.
  pose proof (transform_eq P original) as T.
  destruct (FixAllFinal.transform P original) as [new_content fixes].
  cbn [fst snd] in C.
  destruct (Nat.eqb_spec fixes 0) as [->|N]; [now left |].
  right. exists new_content. split; [| split; [| reflexivity]].
  - intros ->. destruct fixes; [now elim N | simpl in C; lia].
  - injection T as _ T. rewrite T in N.
    exact (fix_lines_fixes _ _ N).
Qed.

Lemma final_unchanged (f : Fs.fs) (file_path : string) :
  (forall original, Fs.read file_path f = Some original ->
                    ~ final_pattern_occurs original) ->
  fst (FixAllFinal.fix_file f file_path) = f.
Proof.
  intros H. destruct (Fs.read file_path f) as [original|] eqn:R.
  - destruct (final_writes f file_path original R)
      as [E | (c & _ & O & _)]; [exact E |].
    now elim (H original eq_refl).
  - unfold FixAllFinal.fix_file. now rewrite R.
Qed.

(** ** fix_redactarea_phase4.py *)

Lemma phase4_line_unchanged (path_var line : string) :
  ~ phase4_line_occurs line -> Phase4.fix_line path_var line = line.
Proof.
  intros H. unfold Phase4.fix_line.
  rewrite (not_occurs_search Phase4.pattern1)
    by (intros O; apply H; now left).
  rewrite (not_occurs_search Phase4.pattern2)
    by (intros O; apply H; right; now left).
  rewrite (not_occurs_search Phase4.pattern3)
    by (intros O; apply H; right; right; now left).
  rewrite (not_occurs_search Phase4.pattern4)
    by (intros O; apply H; right; right; right; now left).
  rewrite (not_occurs_search Phase4.pattern5)
    by (intros O; apply H; right; right; right; now right).
  now destruct (_ && _).
Qed.

Lemma phase4_line_occurs_dec (line : string) :
  phase4_line_occurs line \/ ~ phase4_line_occurs line.
Proof.
  unfold phase4_line_occurs.
  destruct (occurs_dec_search Phase4.pattern1 line); [tauto |].
  destruct (occurs_dec_search Phase4.pattern2 line); [tauto |].
  destruct (occurs_dec_search Phase4.pattern3 line); [tauto |].
  destruct (occurs_dec_search Phase4.pattern4 line); [tauto |].
  destruct (occurs_dec_search Phase4.pattern5 line); tauto.
Qed.

Lemma some_line_or_none (P : string -> Prop) (lines : list string) :
  (forall l, P l \/ ~ P l) ->
  (exists l, In l lines /\ P l) \/ (forall l, In l lines -> ~ P l).
Proof.
  intros D. induction lines as [|x lines IH].
  - right. now intros l [].
  - destruct (D x) as [Px | Nx].
    + left. exists x. split; [now left | exact Px].
    + destruct IH as [(l & Hin & Pl) | Hall].
      * left. exists l. split; [now right | exact Pl].
      * right. intros l [<- | Hin]; [exact Nx | now apply Hall].
Qed.

Lemma phase4_unchanged (content : string) :
  ~ phase4_pattern_occurs content -> Phase4.fix_content content = content.
Proof.
  intros H. unfold Phase4.fix_content.
  set (P := Phase4.find_path_var content).
  transitivity (Str.join (String nl "") (Str.split nl content));
    [| apply StrFacts.join_split].
  f_equal. transitivity (map (fun l : string => l) (Str.split nl content));
    [| apply map_id].
  apply map_ext_in. intros line Hin. apply phase4_line_unchanged.
  intros O. apply H. now exists line.
Qed.

Lemma phase4_writes (f : Fs.fs) (file_path original : string) :
  Fs.read file_path f = Some original ->
  Phase4.process_file f file_path = f
  \/ exists fixed,
       fixed <> original
       /\ phase4_pattern_occurs original
       /\ Phase4.process_file f file_path
          = Fs.write file_path fixed
                     (Fs.write (file_path ++ ".p4.bak") original f).
Proof.
  intros R. unfold Phase4.process_file. rewrite R.
  destruct (String.eqb_spec (Phase4.fix_content original) original)
    as [E|N]; [now left |].
  right. exists (Phase4.fix_content original).
  split; [exact N | split; [| reflexivity]].
  destruct (some_line_or_none phase4_line_occurs (Str.split nl original)
              phase4_line_occurs_dec) as [O | Hall]; [exact O |].
  exfalso. apply N, phase4_unchanged. intros (l & Hin & O).
  exact (Hall l Hin O).
Qed.

End WriteFacts.

(** * Phase 2: the replacement by spans *)

Module Phase2Facts.
Import Re ReSpec ReProps ReFacts ReTac GreedyProps GreedyFacts FinderProps
  FinderFacts FinalProps FinalFacts FrameProps FrameFacts IdemFacts
  WriteProps WriteFacts Phase2Props.

Lemma finditer_fuel_rebuild (r : regex) :
  never_empty r ->
  forall fuel s, exists tail,
    s = rebuild m_text (finditer_fuel fuel r s) tail.
Proof.
  intros NE. induction fuel as [|fuel IH]; intros s; simpl.
  - now exists s.
  - destruct (search r s) as [m|] eqn:E; [| now exists s].
    pose proof (NE _ _ E) as Ht.
    apply search_sound in E as [E _].
    destruct (m_text m) as [|a t] eqn:Et; [now elim Ht |].
    destruct (IH (m_after m)) as [tail Htail].
    exists tail. simpl. rewrite Et. rewrite <- Htail. exact E.
Qed.

Lemma replace_spans (path_var : string)
      (repl : match_obj -> string) :
  (forall m, repl m = Phase2.replacement path_var m) ->
  forall ms pre tail,
    Phase2.replace_all path_var (Phase2.spans (String.length pre) ms)
                       (pre ++ rebuild m_text ms tail)
    = pre ++ rebuild repl ms tail.
Proof.
  intros Hrepl. unfold Phase2.replace_all.
  induction ms as [|m ms IH]; intros pre tail; [reflexivity |].
  cbn [Phase2.spans rev rebuild]. rewrite fold_left_app.
  replace (pre ++ m_before m ++ m_text m ++ rebuild m_text ms tail)
    with ((pre ++ m_before m ++ m_text m) ++ rebuild m_text ms tail)
    by (now rewrite !StrFacts.app_assoc).
  replace (String.length pre + String.length (m_before m)
           + String.length (m_text m))
    with (String.length (pre ++ m_before m ++ m_text m))
    by (rewrite !StrFacts.length_app; lia).
  rewrite IH. cbn [fold_left].
  rewrite <- Hrepl.
  replace (String.length pre + String.length (m_before m))
    with (String.length (pre ++ m_before m))
    by (now rewrite StrFacts.length_app).
  replace ((pre ++ m_before m ++ m_text m) ++ rebuild repl ms tail)
    with ((pre ++ m_before m) ++ m_text m ++ rebuild repl ms tail) at 1
    by (now rewrite !StrFacts.app_assoc).
  rewrite StrFacts.take_app, StrFacts.drop_app.
  now rewrite !StrFacts.app_assoc.
Qed.

Lemma neglook_inv r u s c c' :
  Matches (NegLook r) u s c c' -> u = "" /\ c' = c.
Proof. inversion 1; auto. Qed.

Lemma lstrip_count (c : ascii) (s : string) :
  Str.count c (Str.lstrip s) <= Str.count c s.
Proof.
  induction s as [|a s IH]; simpl; [lia |].
  destruct (Str.is_space a); simpl; lia.
Qed.

Lemma rstrip_count (c : ascii) (s : string) :
  Str.count c (Str.rstrip s) <= Str.count c s.
Proof.
  induction s as [|a s IH]; simpl; [lia |].
  destruct (Str.rstrip s) as [|b t] eqn:E.
  - destruct (Str.is_space a); simpl in *; lia.
  - simpl in *. lia.
Qed.

Lemma strip_count (c : ascii) (s : string) :
  Str.count c s = 0 -> Str.count c (Str.strip s) = 0.
Proof.
  intros H. unfold Str.strip.
  pose proof (rstrip_count c (Str.lstrip s)).
  pose proof (lstrip_count c s). lia.
Qed.

Lemma phase2_match (s : string) (m : match_obj) :
  search Phase2.pattern s = Some m ->
  m_text m <> ""
  /\ Str.count Phase2.comma (m_text m) = 1
  /\ Str.count Phase2.comma (m_group m 1) = 0
  /\ Str.count Phase2.comma (m_group m 2) = 0.
Proof.
  intros H. read_search H. unfold Phase2.pattern in H. cbn [seqs] in H.
  inv_match.
  match goal with
  | M : Matches (NegLook _) _ _ _ _ |- _ => apply neglook_inv in M as [? ?]
  end.
  subst. simpl.
  repeat match goal with
         | H : Str.forallb (not_char Phase2.comma) _ = true |- _ =>
             apply (class_excludes _ Phase2.comma) in H; [| reflexivity]
         | H : Str.forallb (not_chars Phase2.comma Phase2.rparen) _ = true |- _ =>
             apply (class_excludes _ Phase2.comma) in H; [| reflexivity]
         | H : Str.forallb Str.is_space _ = true |- _ =>
             apply (class_excludes _ Phase2.comma) in H; [| reflexivity]
         end.
  split; [discriminate |].
  split; [| split; assumption].
  unfold Phase2.comma in *. count_parts. lia.
Qed.

Lemma phase2_never_empty : never_empty Phase2.pattern.
Proof. intros s m H. now apply phase2_match in H. Qed.

Lemma rebuild_commas (path_var : string) (ms : list match_obj) (tail : string) :
  (forall m, In m ms -> exists s, search Phase2.pattern s = Some m) ->
  Str.count Phase2.comma (rebuild (Phase2.replacement path_var) ms tail)
  = Str.count Phase2.comma (rebuild m_text ms tail)
    + List.length ms * (1 + Str.count Phase2.comma path_var).
Proof.
  induction ms as [|m ms IH]; intros H; [simpl; lia |].
  cbn [rebuild List.length]. rewrite !StrFacts.count_app.
  rewrite IH by (intros m' Hin; apply H; now right).
  destruct (H m (or_introl eq_refl)) as [s Hs].
  apply phase2_match in Hs as (_ & Ct & C1 & C2).
  rewrite Ct. unfold Phase2.replacement.
  apply (strip_count Phase2.comma) in C1, C2.
  unfold Phase2.comma in *. count_parts. lia.
Qed.

Lemma phase2_writes (f : Fs.fs) (file_path original : string) :
  Fs.read file_path f = Some original ->
  fst (Phase2.fix_file f file_path) = f
  \/ exists content,
       content <> original
       /\ phase2_pattern_occurs original
       /\ fst (Phase2.fix_file f file_path)
          = Fs.write file_path content
                     (Fs.write (file_path ++ ".phase2.bak") original f).
Proof.
  intros R. unfold Phase2.fix_file. rewrite R.
  set (P := Phase2.find_path_variable original).
  set (ms := finditer Phase2.pattern original).
  destruct (finditer_fuel_rebuild _ phase2_never_empty
              (S (String.length original)) original) as [tail Ho].
  fold (finditer Phase2.pattern original) in Ho. fold ms in Ho.
  assert (Hs : forall m, In m ms ->
                         exists s, search Phase2.pattern s = Some m).
  { intros m Hin. exact (finditer_search _ _ _ Hin). }
  destruct ms as [|m0 ms'] eqn:Ems; [now left |].
  right. rewrite <- Ems in *.
  assert (Hne : Phase2.spans 0 ms <> []) by (rewrite Ems; discriminate).
  destruct (Phase2.spans 0 ms) as [|sp sps] eqn:Esp; [now elim Hne |].
  rewrite <- Esp.
  exists (Phase2.replace_all P (Phase2.spans 0 ms) original).
  split; [| split; [| reflexivity]].
  - pose proof (replace_spans P (Phase2.replacement P) (fun _ => eq_refl) ms "" tail)
      as Q.
    simpl in Q. rewrite <- Ho in Q. rewrite Q.
    intros Eq.
    pose proof (rebuild_commas P ms tail Hs) as C.
    rewrite Eq, <- Ho in C. rewrite Ems in C. simpl in C. lia.
  - destruct (Hs m0) as [s Hm0]; [rewrite Ems; now left |].
    unfold phase2_pattern_occurs.
    destruct (search Phase2.pattern original) as [m|] eqn:E;
      [exact (search_occurs _ _ _ E) |].
    exfalso. unfold ms, finditer in Ems. simpl in Ems. rewrite E in Ems.
    discriminate.
Qed.

End Phase2Facts.

(** * The patchers: what is written, and by which substitutions *)

Module PatchFacts.
Import Re ReSpec ReProps ReFacts ReTac GreedyProps GreedyFacts FinderProps
  FinderFacts FinalProps FinalFacts FrameProps FrameFacts IdemFacts
  CallProps CallFacts WriteProps WriteFacts Phase2Props Phase2Facts
  PatchProps.

Lemma writes_on_change_intro suffix (pattern_occurs : string -> Prop)
      f g file_path original :
  (g = f
   \/ exists content,
        content <> original
        /\ pattern_occurs original
        /\ g = Fs.write file_path content
                        (Fs.write (file_path ++ suffix) original f)) ->
  writes_on_change suffix pattern_occurs f g file_path original.
Proof.
  intros H. split; [exact H |].
  intros N. destruct H as [E | (c & _ & O & _)]; [exact E | now elim N].
Qed.

(** ** The text that is read from the bytes of a file *)

Lemma no_cr_same_text (bytes : string) :
  Str.count OnDisk.CR bytes = 0 -> OnDisk.universal_newlines bytes = bytes.
Proof.
  induction bytes as [|a rest IH]; [reflexivity |].
  cbn [Str.count OnDisk.universal_newlines].
  destruct (Ascii.eqb a OnDisk.CR); [discriminate |].
  intros H. now rewrite IH.
Qed.

Lemma text_has_no_cr (bytes : string) :
  Str.count OnDisk.CR (OnDisk.universal_newlines bytes) = 0.
Proof.
  assert (G : forall n bytes, String.length bytes <= n ->
                Str.count OnDisk.CR (OnDisk.universal_newlines bytes) = 0).
  { clear bytes. induction n as [|n IH]; intros [|a rest] L;
      try reflexivity; simpl in L; [lia |].
    cbn [OnDisk.universal_newlines].
    destruct (Ascii.eqb a OnDisk.CR) eqn:Ea.
    - destruct rest as [|b rest']; [reflexivity |].
      destruct (Ascii.eqb b OnDisk.LF).
      + cbn [Str.count]. rewrite IH; [reflexivity | simpl in L; lia].
      + cbn [Str.count]. rewrite IH; [reflexivity | lia].
    - cbn [Str.count]. rewrite Ea. rewrite IH; [reflexivity | lia]. }
  exact (G _ bytes (le_n _)).
Qed.

(** ** The five patchers on the bytes of a file *)

Section Bytes.
Variables (disk : Fs.fs) (file_path bytes : string).
Hypothesis R : Fs.read file_path disk = Some bytes.

Let original : string := OnDisk.universal_newlines bytes.

Lemma read_text_original : OnDisk.read_text file_path disk = Some original.
Proof. unfold OnDisk.read_text. now rewrite R. Qed.

Lemma calls_writes_disk :
  writes_on_change ".bak" calls_pattern_occurs disk
    (fst (OnDisk.fix_redactarea_calls disk file_path)) file_path original.
Proof.
  apply writes_on_change_intro.
  unfold OnDisk.fix_redactarea_calls. rewrite read_text_original.
  destruct (FixRedactAreaCalls.fix_content original) as [content n] eqn:E.
  destruct (String.eqb_spec content original) as [->|N]; [now left |].
  right. exists content. split; [exact N | split; [| reflexivity]].
  destruct (occurs_dec_search FixRedactAreaCalls.pattern1 original)
    as [O1|N1]; [now left |].
  destruct (occurs_dec_search FixRedactAreaCalls.pattern2 original)
    as [O2|N2]; [now right |].
  exfalso. apply N.
  assert (X : ~ calls_pattern_occurs original) by (intros [O | O]; tauto).
  apply calls_unchanged in X. now rewrite E in X.
Qed.

Lemma final_writes_disk :
  writes_on_change ".final.bak" final_pattern_occurs disk
    (fst (OnDisk.final_fix_file disk file_path)) file_path original.
Proof.
  apply writes_on_change_intro.
  unfold OnDisk.final_fix_file. rewrite read_text_original.
  set (P := FixAllFinal.find_path_variables original).
  pose proof (transform_commas P original) as C.
  pose proof (transform_eq P original) as T.
  destruct (FixAllFinal.transform P original) as [new_content fixes].
  cbn [fst snd] in C.
  destruct (Nat.eqb_spec fixes 0) as [->|N]; [now left |].
  right. exists new_content. split; [| split; [| reflexivity]].
  - intros ->. destruct fixes; [now elim N | simpl in C; lia].
  - injection T as _ T. rewrite T in N.
    exact (fix_lines_fixes _ _ N).
Qed.

Lemma phase2_writes_disk :
  writes_on_change ".phase2.bak" phase2_pattern_occurs disk
    (fst (OnDisk.phase2_fix_file disk file_path)) file_path original.
Proof.
  apply writes_on_change_intro.
  unfold OnDisk.phase2_fix_file. rewrite read_text_original.
  set (P := Phase2.find_path_variable original).
  set (ms := finditer Phase2.pattern original).
  destruct (finditer_fuel_rebuild _ phase2_never_empty
              (S (String.length original)) original) as [tail Ho].
  fold (finditer Phase2.pattern original) in Ho. fold ms in Ho.
  assert (Hs : forall m, In m ms ->
                         exists s, search Phase2.pattern s = Some m).
  { intros m Hin. exact (finditer_search _ _ _ Hin). }
  destruct ms as [|m0 ms'] eqn:Ems; [now left |].
  right. rewrite <- Ems in *.
  assert (Hne : Phase2.spans 0 ms <> []) by (rewrite Ems; discriminate).
  destruct (Phase2.spans 0 ms) as [|sp sps] eqn:Esp; [now elim Hne |].
  rewrite <- Esp.
  exists (Phase2.replace_all P (Phase2.spans 0 ms) original).
  split; [| split; [| reflexivity]].
  - pose proof (replace_spans P (Phase2.replacement P) (fun _ => eq_refl)
                  ms "" tail) as Q.
    simpl in Q. rewrite <- Ho in Q. rewrite Q.
    intros Eq.
    pose proof (rebuild_commas P ms tail Hs) as C.
    rewrite Eq, <- Ho in C. rewrite Ems in C. simpl in C. lia.
  - destruct (Hs m0) as [s Hm0]; [rewrite Ems; now left |].
    unfold phase2_pattern_occurs.
    destruct (search Phase2.pattern original) as [m|] eqn:E;
      [exact (search_occurs _ _ _ E) |].
    exfalso. unfold ms, finditer in Ems. simpl in Ems. rewrite E in Ems.
    discriminate.
Qed.

Lemma phase3_writes_disk :
  writes_on_change ".p3.bak" phase3_pattern_occurs disk
    (OnDisk.phase3_process_file disk file_path) file_path original.
Proof.
  apply writes_on_change_intro.
  unfold OnDisk.phase3_process_file. rewrite read_text_original.
  destruct (String.eqb_spec (Phase3.fix_content original) original)
    as [E|N]; [now left |].
  right. exists (Phase3.fix_content original).
  split; [exact N | split; [| reflexivity]].
  destruct (occurs_dec_search Phase3.pattern1 original) as [O1|N1];
    [now left |].
  destruct (occurs_dec_search Phase3.pattern2 original) as [O2|N2];
    [right; now left |].
  destruct (occurs_dec_search Phase3.pattern3 original) as [O3|N3];
    [right; now right |].
  exfalso. apply N. apply phase3_unchanged. intros [O | [O | O]]; tauto.
Qed.

Lemma phase4_writes_disk :
  writes_on_change ".p4.bak" phase4_pattern_occurs disk
    (OnDisk.phase4_process_file disk file_path) file_path original.
Proof.
  apply writes_on_change_intro.
  unfold OnDisk.phase4_process_file. rewrite read_text_original.
  destruct (String.eqb_spec (Phase4.fix_content original) original)
    as [E|N]; [now left |].
  right. exists (Phase4.fix_content original).
  split; [exact N | split; [| reflexivity]].
  destruct (some_line_or_none phase4_line_occurs (Str.split nl original)
              phase4_line_occurs_dec) as [O | Hall]; [exact O |].
  exfalso. apply N, phase4_unchanged. intros (l & Hin & O).
  exact (Hall l Hin O).
Qed.

End Bytes.


Lemma no_call_in_declaration :
  ~ final_pattern_occurs "int x = 1;".
Proof.
  intros (line & Hin & O). simpl in Hin. destruct Hin as [<- | []].
  destruct O as [O | O]; apply search_complete in O as [m O];
    vm_compute in O; discriminate.
Qed.



(** ** Sequences of substitutions *)

Lemma sub_fuel_substituted (r : regex) (t : template) :
  never_empty r ->
  forall fuel s, String.length s < fuel ->
    Substituted r (expand t) s (sub_fuel fuel r t s).
Proof.
  intros NE. induction fuel as [|fuel IH]; intros s L; [lia |].
  cbn [sub_fuel]. destruct (search r s) as [m|] eqn:E.
  - pose proof (NE _ _ E) as Ht.
    pose proof (search_leftmost _ _ _ E) as Hl.
    apply search_sound in E as [Es M].
    destruct m as [b u a cs]. cbn [m_text m_after m_before m_caps] in *.
    destruct u as [|x u]; [now elim Ht |]. subst s.
    apply Subst_match; [exact M | discriminate | exact Hl |].
    apply IH. rewrite !StrFacts.length_app in L. simpl in L. lia.
  - apply Subst_done. now apply search_none.
Qed.

Lemma sub_substituted (r : regex) (t : template) (s : string) :
  never_empty r -> Substituted r (expand t) s (sub r t s).
Proof. intros NE. apply sub_fuel_substituted; [exact NE | lia]. Qed.

Lemma finditer_substituted (r : regex) (f : match_obj -> string) :
  never_empty r ->
  forall fuel s, String.length s < fuel ->
    exists tail,
      s = rebuild m_text (finditer_fuel fuel r s) tail
      /\ Substituted r f s (rebuild f (finditer_fuel fuel r s) tail).
Proof.
  intros NE. induction fuel as [|fuel IH]; intros s L; [lia |].
  cbn [finditer_fuel]. destruct (search r s) as [m|] eqn:E.
  - pose proof (NE _ _ E) as Ht.
    pose proof (search_leftmost _ _ _ E) as Hl.
    apply search_sound in E as [Es M].
    destruct m as [b u a cs]. cbn [m_text m_after m_before m_caps] in *.
    destruct u as [|x u]; [now elim Ht |]. subst s.
    destruct (IH a) as (tail & Ea & Sa).
    { rewrite !StrFacts.length_app in L. simpl in L. lia. }
    exists tail. cbn [rebuild m_before m_text]. split.
    + now rewrite <- Ea.
    + now apply Subst_match.
  - exists s. split; [reflexivity |].
    apply Subst_done. now apply search_none.
Qed.

Lemma phase3_never_empty1 : never_empty Phase3.pattern1.
Proof.
  intros s m H. read_search H.
  unfold Phase3.pattern1, Phase3.call_head in H. cbn [seqs] in H.
  inv_match. subst. discriminate.
Qed.

Lemma phase3_never_empty2 : never_empty Phase3.pattern2.
Proof.
  intros s m H. read_search H.
  unfold Phase3.pattern2, Phase3.call_head in H. cbn [seqs] in H.
  inv_match. subst. discriminate.
Qed.

Lemma phase3_never_empty3 : never_empty Phase3.pattern3.
Proof.
  intros s m H. read_search H.
  unfold Phase3.pattern3, Phase3.call_head in H. cbn [seqs] in H.
  inv_match. subst. discriminate.
Qed.

Lemma calls_never_empty1 : never_empty FixRedactAreaCalls.pattern1.
Proof.
  intros s m H. read_search H.
  unfold FixRedactAreaCalls.pattern1 in H. cbn [seqs] in H.
  inv_match. subst. discriminate.
Qed.

Lemma calls_never_empty2 : never_empty FixRedactAreaCalls.pattern2.
Proof.
  intros s m H. read_search H.
  unfold FixRedactAreaCalls.pattern2 in H. cbn [seqs] in H.
  inv_match. subst. discriminate.
Qed.

(** one round of fix_redactarea_calls.py keeps the content it had, or
    takes the substituted content, which then has fewer matches *)
Lemma apply_pattern_round (content : string) (n : nat) (pr : regex * template) :
  never_empty (fst pr) ->
  let after := fst (FixRedactAreaCalls.apply_pattern (content, n) pr) in
  after = content
  \/ (Substituted (fst pr) (expand (snd pr)) content after
      /\ count_matches (fst pr) after < count_matches (fst pr) content).
Proof.
  destruct pr as [pattern replacement]. cbn [fst snd]. intros NE.
  unfold FixRedactAreaCalls.apply_pattern.
  destruct (0 <? count_matches pattern content); [| now left].
  destruct (count_matches pattern (sub pattern replacement content)
            <? count_matches pattern content) eqn:L; [| now left].
  right. cbn [fst]. split; [now apply sub_substituted |].
  now apply Nat.ltb_lt.
Qed.

Lemma read_written (p c : string) (f : Fs.fs) :
  Fs.read p (Fs.write p c f) = Some c.
Proof. unfold Fs.write. cbn [Fs.read]. now rewrite String.eqb_refl. Qed.

Lemma phase2_substituted (f : Fs.fs) (file_path content : string) :
  Fs.read file_path f = Some content ->
  exists fixed,
    Fs.read file_path (fst (Phase2.fix_file f file_path)) = Some fixed
    /\ Substituted Phase2.pattern
         (Phase2.replacement (Phase2.find_path_variable content))
         content fixed.
Proof.
  intros R. unfold Phase2.fix_file. rewrite R.
  set (P := Phase2.find_path_variable content).
  destruct (finditer_substituted Phase2.pattern (Phase2.replacement P)
              phase2_never_empty (S (String.length content)) content
              (Nat.lt_succ_diag_r _)) as (tail & Ec & Sc).
  fold (finditer Phase2.pattern content) in Ec, Sc.
  pose proof (replace_spans P (Phase2.replacement P) (fun _ => eq_refl)
                (finditer Phase2.pattern content) "" tail) as Q.
  cbn [append String.length] in Q. rewrite <- Ec in Q.
  destruct (finditer Phase2.pattern content) as [|m0 ms] eqn:Ems.
  - cbn [Phase2.spans fst]. exists content. split; [exact R |].
    cbn [rebuild] in Ec, Sc. now rewrite <- Ec in Sc.
  - cbn [Phase2.spans fst]. rewrite read_written.
    eexists. split; [reflexivity |].
    cbn [Phase2.spans] in Q. rewrite Q. exact Sc.
Qed.




End PatchFacts.

(** * The file system *)

Module FsFacts.
Import Fs.

Lemma read_remove_eq (p : string) (f : fs) : read p (remove p f) = None.
Proof.
  induction f as [|[q c] f IH]; simpl; [reflexivity |].
  destruct (String.eqb_spec q p) as [->|N]; simpl; [exact IH |].
  destruct (String.eqb_spec q p); [contradiction | exact IH].
Qed.

Lemma read_remove_ne (p q : string) (f : fs) :
  q <> p -> read p (remove q f) = read p f.
Proof.
  intros N. induction f as [|[k c] f IH]; simpl; [reflexivity |].
  destruct (String.eqb_spec k q) as [->|Nk]; simpl.
  - destruct (String.eqb_spec q p); [contradiction | exact IH].
  - destruct (String.eqb_spec k p); [reflexivity | exact IH].
Qed.

Lemma read_write_eq (p c : string) (f : fs) : read p (write p c f) = Some c.
Proof. unfold write. simpl. now rewrite String.eqb_refl. Qed.

Lemma read_write_ne (p q c : string) (f : fs) :
  q <> p -> read p (write q c f) = read p f.
Proof.
  intros N. unfold write. simpl.
  destruct (String.eqb_spec q p); [contradiction |].
  now apply read_remove_ne.
Qed.

Lemma read_some_in (p c : string) (f : fs) :
  read p f = Some c -> In p (map fst f).
Proof.
  induction f as [|[q d] f IH]; simpl; [discriminate |].
  destruct (String.eqb_spec q p) as [->|N]; [now left |].
  intros H. right. now apply IH.
Qed.

Lemma read_remove_all (p : string) (l : list string) (f : fs) :
  read p (fold_left (fun g b => remove b g) l f)
  = if existsb (String.eqb p) l then None else read p f.
Proof.
  revert f; induction l as [|q l IH]; intros f; simpl; [reflexivity |].
  rewrite IH. destruct (String.eqb_spec p q) as [->|N]; simpl.
  - rewrite read_remove_eq. now destruct (existsb _ l).
  - rewrite read_remove_ne by congruence. reflexivity.
Qed.

Lemma app_inv_tail (p q t : string) : p ++ t = q ++ t -> p = q.
Proof.
  revert q; induction p as [|a p IH]; intros [|b q] H; simpl in H.
  - reflexivity.
  - exfalso. apply (f_equal String.length) in H. simpl in H.
    rewrite StrFacts.length_app in H. lia.
  - exfalso. apply (f_equal String.length) in H. simpl in H.
    rewrite StrFacts.length_app in H. lia.
  - injection H as -> H. now rewrite (IH _ H).
Qed.

Lemma drop_app_plus (p t : string) (k : nat) :
  Str.drop (String.length p + k) (p ++ t) = Str.drop k t.
Proof. induction p as [|a p IH]; simpl; [reflexivity | exact IH]. Qed.

Lemma cs_not_bak (p : string) : Str.endswith ".cs" (p ++ ".bak") = false.
Proof.
  unfold Str.endswith. rewrite StrFacts.length_app. simpl String.length.
  replace (String.length p + 4 - 3) with (String.length p + 1) by lia.
  rewrite drop_app_plus. simpl. apply andb_false_r.
Qed.

Lemma length_take (k : nat) (p : string) :
  k <= String.length p -> String.length (Str.take k p) = k.
Proof.
  revert k. induction p as [|a p IH]; intros [|k] K; simpl in *;
    try reflexivity; try lia.
  rewrite IH; [reflexivity | lia].
Qed.

Lemma endswith_bak (p : string) :
  Str.endswith ".cs" p = true -> Str.endswith ".cs.bak" (p ++ ".bak") = true.
Proof.
  unfold Str.endswith. intros H. apply andb_prop in H as [L E].
  apply Nat.leb_le in L. apply String.eqb_eq in E. simpl String.length in *.
  rewrite StrFacts.length_app. simpl String.length.
  apply andb_true_intro. split; [apply Nat.leb_le; lia |].
  apply String.eqb_eq.
  rewrite <- (StrFacts.take_drop (String.length p - 3) p) at 2.
  rewrite E, StrFacts.app_assoc.
  assert (Lt : String.length (Str.take (String.length p - 3) p)
               = String.length p - 3) by (apply length_take; lia).
  replace (String.length p + 4 - 7) with (String.length p - 3 + 0) by lia.
  rewrite <- Lt at 1. rewrite drop_app_plus. reflexivity.
Qed.

Lemma bak_not_self (p : string) : p ++ ".bak" <> p.
Proof.
  intros H. apply (f_equal String.length) in H.
  rewrite StrFacts.length_app in H. simpl in H. lia.
Qed.

End FsFacts.

(** * The build of fix_redactarea_calls.py and the backups *)

Module BuildFacts.
Import Fs FsFacts FixRedactAreaCalls BuildProps.

Lemma remove_backups_read (root : string) (g : fs) (p : string) :
  read p (remove_backups root g)
  = if is_backup root p then None else read p g.
Proof.
  unfold remove_backups. rewrite read_remove_all.
  destruct (existsb (String.eqb p) (filter (is_backup root) (map fst g)))
    eqn:E.
  - apply existsb_exists in E as (q & Hin & Eq).
    apply String.eqb_eq in Eq. subst q.
    apply filter_In in Hin as [_ B]. now rewrite B.
  - destruct (is_backup root p) eqn:B; [| reflexivity].
    destruct (read p g) as [c|] eqn:R; [| reflexivity].
    exfalso. apply read_some_in in R.
    assert (X : existsb (String.eqb p)
                        (filter (is_backup root) (map fst g)) = true).
    { apply existsb_exists. exists p. split; [| apply String.eqb_refl].
      apply filter_In. now split. }
    congruence.
Qed.

(** a call of [fix_redactarea_calls] touches the file and its backup
    only *)
Lemma fix_frame (g : fs) (q x : string) :
  x <> q -> x <> q ++ ".bak" ->
  read x (fst (fix_redactarea_calls g q)) = read x g.
Proof.
  intros N1 N2. unfold fix_redactarea_calls.
  destruct (read q g) as [original|]; [| reflexivity].
  destruct (fix_content original) as [content n].
  destruct (String.eqb content original); [reflexivity |].
  cbn [fst]. now rewrite !read_write_ne by congruence.
Qed.

Lemma fix_backup (g : fs) (q original : string) :
  read q g = Some original ->
  fst (fix_content original) <> original ->
  read (q ++ ".bak") (fst (fix_redactarea_calls g q)) = Some original.
Proof.
  intros R N. unfold fix_redactarea_calls. rewrite R.
  destruct (fix_content original) as [content n]. cbn [fst] in N.
  destruct (String.eqb_spec content original); [contradiction |].
  cbn [fst]. rewrite read_write_ne by (apply not_eq_sym, bak_not_self).
  apply read_write_eq.
Qed.

Lemma step_fs (st : fs * nat * nat) (q : string) :
  fst (fst (step st q)) = fst (fix_redactarea_calls (fst (fst st)) q).
Proof.
  destruct st as [[g a] b]. unfold step. cbn [fst].
  destruct (fix_redactarea_calls g q) as [g' [fixes errors]].
  destruct (0 <? fixes); [reflexivity |].
  destruct (0 <? errors); reflexivity.
Qed.

Lemma process_files_frame (files : list string) (st : fs * nat * nat)
      (x : string) :
  (forall q, In q files -> x <> q /\ x <> q ++ ".bak") ->
  read x (fst (fst (fold_left step files st))) = read x (fst (fst st)).
Proof.
  revert st; induction files as [|q files IH]; intros st H; [reflexivity |].
  cbn [fold_left]. rewrite IH by (intros q' Hq; apply H; now right).
  rewrite step_fs. apply fix_frame; apply (H q); now left.
Qed.

Lemma cs_files_cs (root : string) (f : fs) (q : string) :
  In q (cs_files root f) -> Str.endswith ".cs" q = true.
Proof.
  unfold cs_files. intros H. apply filter_In in H as [_ H].
  now apply andb_prop in H.
Qed.

Lemma cs_files_nodup (root : string) (f : fs) :
  NoDup (map fst f) -> NoDup (cs_files root f).
Proof. intros H. unfold cs_files, listing. now repeat apply NoDup_filter. Qed.

Lemma backup_written (root : string) (f : fs) (p original : string) :
  NoDup (map fst f) ->
  In p (cs_files root f) ->
  read p f = Some original ->
  fst (fix_content original) <> original ->
  read (p ++ ".bak") (fst (fst (process_files (cs_files root f) f)))
  = Some original.
Proof.
  intros ND Hin R N.
  pose proof (cs_files_nodup root f ND) as NDf.
  assert (Hcs : forall q, In q (cs_files root f) ->
                          Str.endswith ".cs" q = true)
    by (intros q; apply cs_files_cs).
  change (process_files (cs_files root f) f)
    with (fold_left step (cs_files root f) (f, 0, 0)).
  destruct (in_split _ _ Hin) as (l1 & l2 & E). rewrite E in *.
  apply NoDup_remove_2 in NDf.
  rewrite fold_left_app. cbn [fold_left].
  rewrite process_files_frame.
  - rewrite step_fs. apply fix_backup; [| exact N].
    rewrite process_files_frame; [exact R |].
    intros q Hq. split.
    + intros ->. apply NDf, in_or_app. now left.
    + intros ->. pose proof (Hcs (q ++ ".bak") (in_elt _ _ _)) as X.
      now rewrite cs_not_bak in X.
  - intros q Hq. split.
    + intros <-.
      assert (X : Str.endswith ".cs" (p ++ ".bak") = true).
      { apply Hcs, in_or_app. right. now right. }
      now rewrite cs_not_bak in X.
    + intros Eq. apply app_inv_tail in Eq. subst q.
      apply NDf, in_or_app. now right.
Qed.

Lemma backup_is_backup (root : string) (f : fs) (p : string) :
  In p (cs_files root f) -> is_backup root (p ++ ".bak") = true.
Proof.
  intros Hin. unfold is_backup.
  unfold cs_files in Hin.
  apply filter_In in Hin as [Hl Hc]. apply andb_prop in Hc as [Hc _].
  unfold listing in Hl. apply filter_In in Hl as [_ Hu].
  apply andb_true_intro. split.
  - unfold under, Str.startswith in *.
    apply StrFacts.prefix_inv in Hu as [t ->].
    rewrite StrFacts.app_assoc. apply StrFacts.prefix_app.
  - now apply endswith_bak.
Qed.

(** C6: when there is a file to patch, [main] starts the build after the
    patching.  When the build exits with return code 0, no [.cs.bak] file
    is left under the test directory and every other file is as the
    patching left it; with a non-zero exit, a timeout or an exception the
    file system is as the patching left it.  The patching has left, for
    every file it changed, the backup with the original content, which is
    a [.cs.bak] file under the test directory.  When there is no file to
    patch, [main] starts no build and leaves the file system as it is. *)
Theorem backups_removed_iff_build_succeeds :
  forall (project_root : string) (f : fs) (build : build_outcome),
    let r := main project_root f build in
    let patched := fst (fst (process_files (cs_files project_root f) f)) in
    let is_cs_bak := fun p =>
      Fs.under (project_root ++ "/PdfEditor.Tests") p
      && Str.endswith ".cs.bak" p in
    (cs_files project_root f <> [] ->
     run_built r = true
     /\ (forall stderr,
            build = Exited 0 stderr ->
            forall p,
              read p (run_fs r)
              = if is_cs_bak p then None else read p patched)
     /\ ((forall stderr, build <> Exited 0 stderr) -> run_fs r = patched)
     /\ (NoDup (map fst f) ->
         forall p original,
           In p (cs_files project_root f) ->
           read p f = Some original ->
           fst (fix_content original) <> original ->
           is_cs_bak (p ++ ".bak") = true
           /\ read (p ++ ".bak") patched = Some original))
    /\ (cs_files project_root f = [] ->
        run_built r = false /\ run_fs r = f).
Proof.
  intros project_root f build r patched is_cs_bak. subst r patched. split.
  - intros Hne. unfold main.
    destruct (cs_files project_root f) as [|file files] eqn:Ef;
      [now elim Hne |].
    rewrite <- Ef in *.
    pose proof (fun ND p original Hin R N =>
                  backup_written project_root f p original ND Hin R N) as B.
    destruct (process_files (cs_files project_root f) f)
      as [[g fixes] errors].
    cbn [fst] in *. rewrite Ef. rewrite <- Ef.
    split; [| split; [| split]].
    + destruct build as [rc stderr | |]; [| reflexivity | reflexivity].
      now destruct (Z.eqb rc 0).
    + intros stderr -> p. cbn [Z.eqb run_fs].
      rewrite remove_backups_read. reflexivity.
    + intros N. destruct build as [rc stderr | |]; try reflexivity.
      destruct (Z.eqb_spec rc 0) as [-> | _]; [| reflexivity].
      now elim (N stderr).
    + intros ND p original Hin R N. split; [| now apply B].
      change (is_backup project_root (p ++ ".bak") = true).
      now apply (backup_is_backup project_root f).
  - intros E. unfold main. rewrite E. split; reflexivity.
Qed.

Lemma two_files_names : NoDup (map fst two_files).
Proof.
  repeat constructor; simpl; [| tauto].
  intros [E | []]. discriminate.
Qed.

Lemma two_files_changed :
  fst (fix_content "svc.RedactArea(page, area, renderDpi: 150);")
  <> "svc.RedactArea(page, area, renderDpi: 150);".
Proof. vm_compute. discriminate. Qed.

Lemma two_files_found :
  In "/p/PdfEditor.Tests/A.cs" (cs_files "/p" two_files).
Proof. vm_compute. now left. Qed.

Lemma backups_removed_iff_build_succeeds_witness :
  read "/p/PdfEditor.Tests/A.cs.bak" (run_fs (main "/p" two_files (Exited 0 "")))
  = None
  /\ read "/p/PdfEditor.Tests/A.cs" (run_fs (main "/p" two_files (Exited 0 "")))
     = Some "svc.RedactArea(page, area, pdfPath, renderDpi: 150);"
  /\ read "/p/PdfEditor.Tests/A.cs.bak"
          (run_fs (main "/p" two_files (Exited 1 "error")))
     = Some "svc.RedactArea(page, area, renderDpi: 150);"
  /\ read "/p/PdfEditor.Tests/A.cs.bak"
          (run_fs (main "/p" two_files TimeoutExpired))
     = Some "svc.RedactArea(page, area, renderDpi: 150);"
  /\ read "/p/PdfEditor.Tests/A.cs.bak"
          (run_fs (main "/p" two_files Raised))
     = Some "svc.RedactArea(page, area, renderDpi: 150);".
Proof.
  assert (Hne : cs_files "/p" two_files <> [])
    by (vm_compute; discriminate).
  destruct (proj1 (backups_removed_iff_build_succeeds
                     "/p" two_files (Exited 0 "")) Hne)
    as (_ & Hzero & _ & Hbak).
  destruct (proj1 (backups_removed_iff_build_succeeds
                     "/p" two_files (Exited 1 "error")) Hne)
    as (_ & _ & Hone & _).
  destruct (proj1 (backups_removed_iff_build_succeeds
                     "/p" two_files TimeoutExpired) Hne)
    as (_ & _ & Htime & _).
  destruct (proj1 (backups_removed_iff_build_succeeds
                     "/p" two_files Raised) Hne)
    as (_ & _ & Hraised & _).
  destruct (Hbak two_files_names "/p/PdfEditor.Tests/A.cs"
                 "svc.RedactArea(page, area, renderDpi: 150);"
                 two_files_found eq_refl two_files_changed) as [_ B].
  split; [| split; [| split; [| split]]].
  - rewrite (Hzero "" eq_refl). reflexivity.
  - rewrite (Hzero "" eq_refl). vm_compute. reflexivity.
  - rewrite Hone by (intros stderr; discriminate). exact B.
  - rewrite Htime by (intros stderr; discriminate). exact B.
  - rewrite Hraised by (intros stderr; discriminate). exact B.
Defined.

End BuildFacts.

(** * Phase 2: the files chosen from the build's error output *)

Module ErrorFileFacts.
Import Re ReSpec ReProps ReFacts ReTac FinderProps FinderFacts IdemFacts
  CallProps CallFacts Phase2 ErrorFileProps.

Lemma error_lines_in (stderr line : string) :
  In line (error_lines stderr)
  <-> In line (Str.split "010"%char stderr)
      /\ Str.contains "error CS7036" line = true
      /\ Str.contains "RedactArea" line = true.
Proof.
  unfold error_lines. rewrite filter_In, andb_true_iff. tauto.
Qed.

(** ** The location pattern and the file a line names *)

Ltac norm_app :=
  repeat progress (rewrite ?StrFacts.app_assoc; cbn [append]).

Lemma split_last (p : ascii -> bool) (a : ascii) (u v d e : string) :
  p a = false -> Str.forallb p d = true -> Str.forallb p e = true ->
  u ++ String a d = v ++ String a e -> u = v /\ d = e.
Proof.
  intros Ha. revert v. induction u as [|b u IH]; intros [|b' v] Hd He E;
    simpl in E.
  - now injection E as ->.
  - injection E as <- E. subst d. rewrite StrFacts.forallb_app in Hd.
    simpl in Hd. rewrite Ha in Hd. simpl in Hd.
    now rewrite andb_false_r in Hd.
  - injection E as -> E. subst e. rewrite StrFacts.forallb_app in He.
    simpl in He. rewrite Ha in He. simpl in He.
    now rewrite andb_false_r in He.
  - injection E as -> E. destruct (IH v Hd He E) as [-> ->]. auto.
Qed.

Lemma same_prefix (a b x y : string) :
  a ++ x = b ++ y -> String.length a = String.length b -> a = b /\ x = y.
Proof.
  revert b. induction a as [|c a IH]; intros [|c' b] E L; simpl in *;
    try discriminate; [auto |].
  injection E as -> E. injection L as L.
  destruct (IH b E L) as [-> ->]. auto.
Qed.

Lemma number_digits (s : string) :
  Spec.is_number s = true ->
  Str.truthy s = true /\ Str.forallb Str.is_digit s = true.
Proof. unfold Spec.is_number. intros H. now apply andb_prop in H. Qed.

Lemma count_zero_class (c : ascii) (s : string) :
  Str.count c s = 0 -> Str.forallb (not_char c) s = true.
Proof.
  induction s as [|a s IH]; simpl; [reflexivity |].
  unfold not_char at 1. destruct (Ascii.eqb a c); [discriminate |].
  intros H. now rewrite IH.
Qed.

Lemma located_matches (line before name after : string) :
  located line before name after ->
  exists u c, line = before ++ u ++ after
              /\ Matches error_location u after [] c.
Proof.
  intros (row & col & E & (stem & -> & Hs & Hc) & Hr & Hl).
  apply number_digits in Hr as [Hr1 Hr2].
  apply number_digits in Hl as [Hl1 Hl2].
  exists ((stem ++ ".cs") ++ "(" ++ row ++ "," ++ col ++ "):"),
         [(1, stem ++ ".cs")].
  split.
  - rewrite E. now rewrite !StrFacts.app_assoc.
  - unfold error_location. cbn [seqs].
    eapply MSeq.
    + apply MGroup. eapply MSeq.
      * apply plus_cls_intro; [| now apply count_zero_class].
        now destruct stem.
      * apply MLit.
    + eapply MSeq; [apply MLit |].
      eapply MSeq; [now apply plus_cls_intro |].
      eapply MSeq; [apply MLit |].
      eapply MSeq; [now apply plus_cls_intro | apply MLit].
Qed.

Lemma matches_located (before u after : string) (c : caps) :
  Matches error_location u after [] c ->
  located (before ++ u ++ after) before (group 1 c) after.
Proof.
  intros M. unfold error_location in M. cbn [seqs] in M. inv_match. subst.
  lazymatch goal with
  | |- located (_ ++ ((?s ++ _) ++ _ ++ ?r ++ _ ++ ?l ++ _) ++ _) _ _ _ =>
      rename s into stem, r into row, l into col
  end.
  exists row, col. split; [| split; [| split]].
  - cbn [group Nat.eqb]. now norm_app.
  - exists stem. simpl. split; [reflexivity | split].
    + intros ->. discriminate.
    + now apply StrFacts.count_forallb_not.
  - unfold Spec.is_number. apply andb_true_intro. auto.
  - unfold Spec.is_number. apply andb_true_intro. auto.
Qed.

Lemma located_name (line before name name' after after' : string) :
  located line before name after -> located line before name' after' ->
  name = name'.
Proof.
  intros (row & col & E & (stem & -> & _ & Hc) & Hr & Hl)
         (row' & col' & E' & (stem' & -> & _ & Hc') & Hr' & Hl').
  apply number_digits in Hr as [_ Hr], Hl as [_ Hl].
  apply number_digits in Hr' as [_ Hr'], Hl' as [_ Hl'].
  rewrite E in E'. apply StrFacts.app_inv_head in E'.
  assert (D : forall d, Str.forallb Str.is_digit d = true ->
                        Str.count ":"%char d = 0).
  { intros d. now apply class_excludes. }
  assert (X : forall s r l a : string,
             (s ++ ".cs") ++ "(" ++ r ++ "," ++ l ++ "):" ++ a
             = ((((s ++ ".cs") ++ String "("%char r) ++ String ","%char l)
                  ++ String ")"%char "") ++ String ":"%char a).
  { intros. now rewrite !StrFacts.app_assoc. }
  rewrite !X in E'.
  pose proof (D _ Hr). pose proof (D _ Hl).
  pose proof (D _ Hr'). pose proof (D _ Hl').
  apply (split_first ":"%char) in E' as [E' _];
    [| rewrite !StrFacts.count_app; simpl; lia ..].
  apply (split_last Str.is_digit) in E' as [E' _]; [| reflexivity ..].
  apply (split_last Str.is_digit) in E' as [E' _];
    [| reflexivity | assumption ..].
  apply (split_last Str.is_digit) in E' as [E' _];
    [| reflexivity | assumption ..].
  exact E'.
Qed.

Lemma names_unique (line name name' : string) :
  names line name -> names line name' -> name = name'.
Proof.
  intros (before & after & L & Hmin) (before' & after' & L' & Hmin').
  pose proof (Hmin _ _ _ L'). pose proof (Hmin' _ _ _ L).
  assert (Eb : before = before').
  { destruct L as (r & c & E & _), L' as (r' & c' & E' & _).
    rewrite E in E'. apply same_prefix in E' as [E' _]; [exact E' | lia]. }
  subst before'. exact (located_name _ _ _ _ _ _ L L').
Qed.

Lemma search_names (line : string) (m : match_obj) :
  search error_location line = Some m -> names line (m_group m 1).
Proof.
  intros E. pose proof (search_leftmost _ _ _ E) as Hmin.
  apply search_sound in E as [E M].
  exists (m_before m), (m_after m). split.
  - rewrite E at 1. now apply matches_located.
  - intros before' name' after' L'.
    destruct (located_matches _ _ _ _ L') as (u & c & Eu & Mu).
    exact (Hmin before' u after' c Eu Mu).
Qed.

(** the file that [re.search] finds with the location pattern is the
    file that the line names *)
Lemma named_file_names (line name : string) :
  named_file line = Some name <-> names line name.
Proof.
  unfold named_file. split.
  - destruct (search error_location line) as [m|] eqn:E; [| discriminate].
    intros [= <-]. now apply search_names.
  - intros N. pose proof N as (before & after & L & _).
    destruct (located_matches _ _ _ _ L) as (u & c & Eu & Mu).
    destruct (search_complete error_location line) as [m E].
    { exists before, u, after, c. auto. }
    rewrite E. f_equal.
    exact (names_unique line _ _ (search_names line m E) N).
Qed.

Section Files.

Variable test_dir_join : string -> string.

Lemma add_named_fold_nodup (lines : list string) (acc : list string) :
  NoDup acc -> NoDup (fold_left (add_error_file test_dir_join) lines acc).
Proof.
  revert acc. induction lines as [|l lines IH]; intros acc H; simpl; auto.
  apply IH. unfold add_error_file. destruct (named_file l); auto.
  now apply set_add_nodup.
Qed.

Lemma add_named_fold_in (lines : list string) (acc : list string) (p : string) :
  In p (fold_left (add_error_file test_dir_join) lines acc)
  <-> In p acc
      \/ exists line name,
           In line lines /\ named_file line = Some name
           /\ p = test_dir_join name.
Proof.
  revert acc. induction lines as [|l lines IH]; intros acc; simpl.
  - split; [auto | intros [H | (line & _ & [] & _)]; exact H].
  - rewrite IH. unfold add_error_file at 1.
    destruct (named_file l) as [n|] eqn:E.
    + rewrite set_add_iff. split.
      * intros [[-> | H] | (line & name & H1 & H2 & H3)]; eauto 8.
      * intros [H | (line & name & [<- | H1] & H2 & H3)]; eauto 8.
        left. left. congruence.
    + split.
      * intros [H | (line & name & H1 & H2 & H3)]; eauto 8.
      * intros [H | (line & name & [<- | H1] & H2 & H3)]; eauto 8.
        congruence.
Qed.

Lemma error_files_nodup (stderr : string) :
  NoDup (error_files test_dir_join stderr).
Proof. apply add_named_fold_nodup. constructor. Qed.

Lemma error_files_in (stderr p : string) :
  In p (error_files test_dir_join stderr)
  <-> exists line name, names_file stderr line name /\ p = test_dir_join name.
Proof.
  unfold error_files.
  change (In p (fold_left (add_error_file test_dir_join) (error_lines stderr) []) <->
          exists line name, names_file stderr line name /\ p = test_dir_join name).
  rewrite add_named_fold_in. unfold names_file. split.
  - intros [[] | (line & name & H1 & H2 & H3)].
    apply error_lines_in in H1. apply named_file_names in H2.
    exists line, name. tauto.
  - intros (line & name & (H1 & H2 & H3 & H4) & H5). right.
    apply named_file_names in H4.
    exists line, name. rewrite error_lines_in. tauto.
Qed.

Variable relative_to_root : string -> option string.

Lemma process_all (files : list string) (f : Fs.fs) :
  (forall p, In p files -> relative_to_root p <> None) ->
  exists total,
    process relative_to_root files f = Some (fix_each files f, files, total).
Proof.
  revert f. induction files as [|p files IH]; intros f H; cbn [process].
  - now exists 0.
  - destruct (relative_to_root p) eqn:E; [| now elim (H p (or_introl eq_refl))].
    destruct (fix_file f p) as [g fixes] eqn:F.
    destruct (IH g (fun q Hq => H q (or_intror Hq))) as [total ->].
    unfold fix_each. cbn [fold_left]. rewrite F. cbn [fst]. eauto.
Qed.

End Files.

(** C5: when [sorted] reorders its argument and [relative_to] accepts
    every chosen path, the patch phase ends normally; the paths it gives
    to [fix_file] are, without repetition, exactly the paths
    [TEST_DIR / name] of the files named in the lines of the captured
    error output that contain both 'error CS7036' and 'RedactArea', where
    the file a line names is the one of its first location
    [name(row,col):], with [name] a text without colon that ends with
    '.cs'; and the resulting file system is that of one call of
    [fix_file] per path. *)
Theorem phase2_processes_error_files :
  forall (test_dir_join : string -> string)
         (sorted : list string -> list string)
         (relative_to_root : string -> option string)
         (f : Fs.fs) (stderr : string),
    (forall l, Permutation (sorted l) l) ->
    (forall p, In p (error_files test_dir_join stderr) ->
               relative_to_root p <> None) ->
    exists g done total,
      patch_phase test_dir_join sorted relative_to_root f stderr
      = Some (g, done, total)
      /\ NoDup done
      /\ (forall p,
            In p done
            <-> exists line name,
                  names_file stderr line name /\ p = test_dir_join name)
      /\ g = fix_each done f.
Proof.
  intros test_dir_join sorted relative_to_root f stderr Hs Hr.
  unfold patch_phase.
  destruct (process_all relative_to_root
              (sorted (error_files test_dir_join stderr)) f) as [total E].
  { intros p Hp. apply Hr. now apply (Permutation_in _ (Hs _)). }
  exists (fix_each (sorted (error_files test_dir_join stderr)) f),
         (sorted (error_files test_dir_join stderr)), total.
  split; [exact E |]. split; [| split].
  - apply (Permutation_NoDup (Permutation_sym (Hs _))).
    apply error_files_nodup.
  - intros p. rewrite <- error_files_in. split.
    + apply Permutation_in, Hs.
    + apply Permutation_in, Permutation_sym, Hs.
  - reflexivity.
Qed.

Lemma phase2_processes_error_files_witness :
  exists g done total,
    patch_phase join_example sorted_example relative_example tests_example
                stderr_example
    = Some (g, done, total)
    /\ NoDup done
    /\ (forall p,
          In p done
          <-> exists line name,
                names_file stderr_example line name /\ p = join_example name)
    /\ g = fix_each done tests_example
    /\ done = ["/p/PdfEditor.Tests/A.cs"]
    /\ Fs.read "/p/PdfEditor.Tests/A.cs" g
       = Some "svc.RedactArea(page, area, pdfPath);"
    /\ Fs.read "/p/PdfEditor.Tests/B.cs" g
       = Some "svc.RedactArea(page, area);".
Proof.
  destruct (phase2_processes_error_files join_example sorted_example
              relative_example tests_example stderr_example)
    as (g & done & total & E & ND & Hin & Hg).
  - intros l. apply Permutation_refl.
  - intros p Hp. vm_compute in Hp. destruct Hp as [<- | []].
    vm_compute. discriminate.
  - exists g, done, total.
    split; [exact E |]. split; [exact ND |]. split; [exact Hin |].
    split; [exact Hg |].
    vm_compute in E. injection E as <- <- <-.
    repeat split; reflexivity.
Defined.

End ErrorFileFacts.

(** * The final fixer: which lines it changes, and the names it inserts *)

Module FinalLineFacts.
Import Re ReSpec ReProps ReFacts ReTac GreedyProps GreedyFacts FinderProps
  FinderFacts FinalProps FinalFacts FrameProps FrameFacts IdemFacts
  CallProps CallFacts WriteProps WriteFacts FixAllFinal FinalLineProps.

(** ** One line *)

Lemma fix_line_count (path_var line : string) :
  snd (fix_line path_var line) = 0 \/ snd (fix_line path_var line) = 1.
Proof.
  destruct (fix_line_cases path_var line); cbn [snd]; auto.
Qed.

Lemma fix_line_same (path_var line : string) :
  snd (fix_line path_var line) = 0 -> fst (fix_line path_var line) = line.
Proof.
  destruct (fix_line_cases path_var line); cbn [fst snd];
    [reflexivity | discriminate | discriminate].
Qed.

Lemma fix_line_differs (path_var line : string) :
  Str.count nl line = 0 ->
  snd (fix_line path_var line) = 1 -> fst (fix_line path_var line) <> line.
Proof.
  intros Hnl H E. pose proof (fix_line_commas path_var line Hnl) as C.
  rewrite E, H in C. lia.
Qed.

(** X1: the final fixer fixes a line through its pattern with
    [renderDpi:] or its pattern with a positional DPI only; where neither
    matches, the line is returned as it is with no fix, so that a call
    with two arguments is never given the path variable, although a
    branch of [fix_file] is written for it. *)
Theorem final_fixer_leaves_two_argument_calls :
  forall path_var line : string,
    search pattern_renderdpi line = None ->
    search pattern_positional line = None ->
    fix_line path_var line = (line, 0).
Proof.
  intros path_var line H1 H2.
  destruct (fix_line_cases path_var line) as [| m _ _ H | m _ _ _ H];
    [reflexivity | congruence | congruence].
Qed.

Lemma final_fixer_leaves_two_argument_calls_witness :
  fix_line "pdfPath" "    service.RedactArea(page, area);"
  = ("    service.RedactArea(page, area);", 0).
Proof.
  apply final_fixer_leaves_two_argument_calls; vm_compute; reflexivity.
Defined.

(** ** All lines *)

Lemma fix_lines_changes (path_var : string) (lines : list string) :
  Forall (fun l => Str.count nl l = 0) lines ->
  List.length
    (filter (fun ab => negb (String.eqb (fst ab) (snd ab)))
            (combine lines (fst (fix_lines path_var lines))))
  = snd (fix_lines path_var lines).
Proof.
  induction 1 as [|line rest Hl _ IH]; [reflexivity |].
  rewrite fix_lines_cons. cbn [fst snd combine filter].
  destruct (fix_line_count path_var line) as [Z | O]; rewrite ?Z, ?O.
  - rewrite (fix_line_same _ _ Z), String.eqb_refl. cbn [negb]. exact IH.
  - destruct (String.eqb_spec line (fst (fix_line path_var line))) as [E | _].
    + now elim (fix_line_differs path_var line Hl O).
    + cbn [negb List.length]. now rewrite IH.
Qed.

Lemma split_transform (path_var content : string) :
  Str.count nl path_var = 0 ->
  Str.split nl (fst (transform path_var content))
  = fst (fix_lines path_var (Str.split nl content)).
Proof.
  intros HP. rewrite transform_eq. cbn [fst]. unfold newline. fold nl.
  apply StrFacts.split_join.
  - apply fix_lines_nonempty, StrFacts.split_nonempty.
  - apply fix_lines_newline_free; [exact HP | apply StrFacts.split_no_sep].
Qed.

(** X2: the final fixer works line by line and keeps the lines apart: the
    lines of its output are the fixed lines of its input, one for one, so
    the output has as many lines as the input, and the number of fixes it
    reports is the number of lines that differ. *)
Theorem final_fixer_counts_changed_lines :
  forall content : string,
    let path_var := find_path_variables content in
    let output := fst (transform path_var content) in
    let fixes := snd (transform path_var content) in
    Str.split nl output = fst (fix_lines path_var (Str.split nl content))
    /\ List.length (Str.split nl output)
       = List.length (Str.split nl content)
    /\ fixes = Phase3Main.changes content output.
Proof.
  intros content path_var output fixes.
  assert (HP : Str.count nl path_var = 0).
  { apply identifier_excludes; [reflexivity |].
    apply find_path_variables_identifier. }
  assert (S : Str.split nl output
              = fst (fix_lines path_var (Str.split nl content)))
    by (now apply split_transform).
  split; [exact S | split].
  - rewrite S. apply fix_lines_length.
  - unfold Phase3Main.changes. fold nl. rewrite S.
    rewrite fix_lines_changes by apply StrFacts.split_no_sep.
    unfold fixes. now rewrite transform_eq.
Qed.

(** ** The names the two other finders return *)

Lemma found_vars_accepted (content : string) :
  Forall (fun v => mem v refused = false) (found_vars content).
Proof.
  unfold found_vars, path_patterns. simpl flat_map. rewrite app_nil_r.
  repeat (apply Forall_app; split);
    apply Forall_forall; intros v Hv;
    apply filter_In in Hv as [_ Hv];
    now apply negb_true_iff in Hv.
Qed.

Lemma mem_in (x : string) (l : list string) : mem x l = true <-> In x l.
Proof.
  unfold mem. rewrite existsb_exists. split.
  - intros (y & Hy & E). apply String.eqb_eq in E. now subst.
  - intros H. exists x. split; [exact H | apply String.eqb_refl].
Qed.

(** X3: the finders of fix_redactarea_calls.py and of the final fixer
    return an identifier, whatever the content, so the name can stand in
    a replacement as it is; the finder of the final fixer never returns
    one of the three names it refuses. *)
Theorem patch_finders_return_identifiers :
  forall content : string,
    Spec.is_identifier (FixRedactAreaCalls.find_path_variable content) = true
    /\ Spec.is_identifier (find_path_variables content) = true
    /\ ~ In (find_path_variables content) refused.
Proof.
  intros content.
  split; [apply calls_finder_identifier |].
  split; [apply find_path_variables_identifier |].
  unfold find_path_variables.
  pose proof (found_vars_accepted content) as F.
  destruct (found_vars content) as [|v0 found]; [| destruct (find _ _) eqn:E].
  - cbn. intuition discriminate.
  - apply find_some in E as [Hin _].
    repeat (destruct Hin as [<- | Hin]; [cbn; intuition discriminate |]).
    contradiction.
  - inversion F as [|? ? H0 _]; subst. intros Hin.
    apply mem_in in Hin. congruence.
Qed.

End FinalLineFacts.

(** * Phase 2: what [fix_file] writes, and the end of [main] *)

Module Phase2RunFacts.
Import Re ReSpec ReProps ReFacts ReTac GreedyProps GreedyFacts FinderProps
  FinderFacts FinalProps FinalFacts FrameProps FrameFacts IdemFacts
  WriteProps WriteFacts Phase2Props Phase2Facts Fs FsFacts Phase2RunProps.

(** ** The replacement by spans *)

Lemma phase2_var_no_comma (content : string) :
  Str.count Phase2.comma (Phase2.find_path_variable content) = 0.
Proof.
  apply identifier_excludes; [reflexivity |].
  apply (phase2_acceptable content).
Qed.

(** X4: phase 2 replaces the matches of its pattern from the last to the
    first, by their offsets in the text it read; the text it writes is
    the text it read with every match replaced by the call with the path
    variable as third argument and the text between the matches kept, and
    the number of fixes it returns is the number of matches, which is the
    number of commas it adds. *)
Theorem phase2_replaces_every_match :
  forall (f : fs) (file_path content : string),
    read file_path f = Some content ->
    let path_var := Phase2.find_path_variable content in
    let matches := finditer Phase2.pattern content in
    exists tail new_content,
      content = rebuild m_text matches tail
      /\ new_content = rebuild (Phase2.replacement path_var) matches tail
      /\ Str.count Phase2.comma new_content
         = Str.count Phase2.comma content + List.length matches
      /\ Phase2.fix_file f file_path
         = match matches with
           | [] => (f, 0)
           | _ :: _ =>
               (write file_path new_content
                      (write (file_path ++ ".phase2.bak") content f),
                List.length matches)
           end.
Proof.
  intros f file_path content R path_var matches.
  destruct (finditer_fuel_rebuild _ phase2_never_empty
              (S (String.length content)) content) as [tail Ho].
  fold (finditer Phase2.pattern content) in Ho. fold matches in Ho.
  exists tail, (rebuild (Phase2.replacement path_var) matches tail).
  split; [exact Ho | split; [reflexivity | split]].
  - rewrite rebuild_commas
      by (intros m Hin; exact (finditer_search _ _ _ Hin)).
    rewrite <- Ho. unfold path_var. rewrite phase2_var_no_comma. lia.
  - unfold Phase2.fix_file. rewrite R. cbv zeta. fold path_var. fold matches.
    pose proof (replace_spans path_var (Phase2.replacement path_var)
                  (fun _ => eq_refl) matches "" tail) as Q.
    simpl in Q. rewrite <- Ho in Q.
    assert (L : forall base ms,
               List.length (Phase2.spans base ms) = List.length ms).
    { intros base ms. revert base.
      induction ms as [|m ms IH]; intros base; simpl; [reflexivity |].
      now rewrite IH. }
    rewrite Q, L.
    destruct matches as [|m0 ms]; [reflexivity |].
    now destruct (Phase2.spans 0 (m0 :: ms)) eqn:Es.
Qed.

Lemma phase2_replaces_every_match_witness :
  let content := "var pdfPath = f; svc.RedactArea(page, area); done();" in
  let matches := finditer Phase2.pattern content in
  exists tail new_content,
    content = rebuild m_text matches tail
    /\ new_content = rebuild (Phase2.replacement "pdfPath") matches tail
    /\ Str.count Phase2.comma new_content = 2
    /\ Phase2.fix_file one_call "/p/PdfEditor.Tests/A.cs"
       = (write "/p/PdfEditor.Tests/A.cs" new_content
            (write "/p/PdfEditor.Tests/A.cs.phase2.bak" content one_call),
          1).
Proof.
  exact (phase2_replaces_every_match one_call "/p/PdfEditor.Tests/A.cs"
           "var pdfPath = f; svc.RedactArea(page, area); done();" eq_refl).
Defined.

(** ** The second build and the backups *)

Lemma remove_matching_read (pred : string -> bool) (g : fs) (p : string) :
  read p (fold_left (fun h b => remove b h) (filter pred (map fst g)) g)
  = if pred p then None else read p g.
Proof.
  rewrite read_remove_all.
  destruct (existsb (String.eqb p) (filter pred (map fst g))) eqn:E.
  - apply existsb_exists in E as (q & Hin & Eq).
    apply String.eqb_eq in Eq. subst q.
    apply filter_In in Hin as [_ B]. now rewrite B.
  - destruct (pred p) eqn:B; [| reflexivity].
    destruct (read p g) as [c|] eqn:R; [| reflexivity].
    exfalso. apply read_some_in in R.
    assert (X : existsb (String.eqb p) (filter pred (map fst g)) = true).
    { apply existsb_exists. exists p. split; [| apply String.eqb_refl].
      apply filter_In. now split. }
    congruence.
Qed.

(** X5: when [main] of phase 2 returns, both builds have run to an exit
    and the patching has ended; [main] returns 0 exactly when the second
    build returned 0, and then no [.phase2.bak] file is left under the
    test directory while every other file is as the patching left it;
    with another return code it returns 1 and the file system is as the
    patching left it.  No exception of a build is caught: a timeout of
    the second build leaves [main] without a return value. *)
Theorem phase2_main_reports_second_build :
  forall (test_dir : string) (test_dir_join : string -> string)
         (sorted : list string -> list string)
         (relative_to_root : string -> option string)
         (f : fs) (first second : FixRedactAreaCalls.build_outcome),
    let run := Phase2Main.main test_dir test_dir_join sorted
                               relative_to_root f first second in
    (forall h code,
        run = Some (h, code) ->
        exists rc1 stderr g done total rc2 stderr2,
          first = FixRedactAreaCalls.Exited rc1 stderr
          /\ Phase2.patch_phase test_dir_join sorted relative_to_root f stderr
             = Some (g, done, total)
          /\ second = FixRedactAreaCalls.Exited rc2 stderr2
          /\ (code = 0 <-> rc2 = 0%Z) /\ (code = 1 <-> rc2 <> 0%Z)
          /\ (rc2 = 0%Z ->
              forall p, read p h
                        = if Phase2Main.is_backup test_dir p then None
                          else read p g)
          /\ (rc2 <> 0%Z -> h = g))
    /\ (second = FixRedactAreaCalls.TimeoutExpired -> run = None).
Proof.
  intros test_dir test_dir_join sorted relative_to_root f first second run.
  subst run. unfold Phase2Main.main. split.
  - intros h code H.
    destruct first as [rc1 stderr | |]; try discriminate.
    destruct (Phase2.patch_phase _ _ _ f stderr) as [[[g done] total]|] eqn:E;
      [| discriminate].
    destruct second as [rc2 stderr2 | |]; try discriminate.
    exists rc1, stderr, g, done, total, rc2, stderr2.
    split; [reflexivity | split; [exact E | split; [reflexivity |]]].
    destruct (Z.eqb_spec rc2 0) as [-> | N]; injection H as <- <-.
    + split; [tauto |]. split; [split; [discriminate | intros X; now elim X] |].
      split; [| intros X; now elim X].
      intros _ p. apply remove_matching_read.
    + split; [split; [discriminate | contradiction] |].
      split; [tauto |]. split; [contradiction | reflexivity].
  - intros ->. destruct first as [rc1 stderr | |]; try reflexivity.
    now destruct (Phase2.patch_phase _ _ _ f stderr) as [[[g done] total]|].
Qed.

Lemma phase2_main_reports_second_build_witness :
  exists h g done total,
    Phase2Main.main "/p/PdfEditor.Tests" (fun name => name) (fun l => l)
                    (fun p => Some p) one_call
                    (FixRedactAreaCalls.Exited 1 one_error)
                    (FixRedactAreaCalls.Exited 0 "")
    = Some (h, 0)
    /\ Phase2.patch_phase (fun name => name) (fun l => l) (fun p => Some p)
                          one_call one_error
       = Some (g, done, total)
    /\ read "/p/PdfEditor.Tests/A.cs.phase2.bak" g
       = Some "var pdfPath = f; svc.RedactArea(page, area); done();"
    /\ read "/p/PdfEditor.Tests/A.cs.phase2.bak" h = None.
Proof.
  destruct (Phase2Main.main "/p/PdfEditor.Tests" (fun name => name)
              (fun l => l) (fun p => Some p) one_call
              (FixRedactAreaCalls.Exited 1 one_error)
              (FixRedactAreaCalls.Exited 0 "")) as [[h code]|] eqn:Run;
    [| vm_compute in Run; discriminate].
  destruct (proj1 (phase2_main_reports_second_build
                     "/p/PdfEditor.Tests" (fun name => name) (fun l => l)
                     (fun p => Some p) one_call
                     (FixRedactAreaCalls.Exited 1 one_error)
                     (FixRedactAreaCalls.Exited 0 "")) h code Run)
    as (rc1 & stderr & g & done & total & rc2 & stderr2
        & E1 & E2 & E3 & Hc & _ & Hrm & _).
  injection E1 as <- <-. injection E3 as <- <-.
  exists h, g, done, total.
  rewrite (proj2 Hc eq_refl).
  split; [reflexivity | split; [exact E2 | split]].
  - vm_compute in E2. injection E2 as <- _ _. reflexivity.
  - now rewrite (Hrm eq_refl).
Defined.

End Phase2RunFacts.

(** * fix_redactarea_calls.py: the value [main] returns *)

Module ExitFacts.
Import Fs FsFacts FixRedactAreaCalls BuildProps BuildFacts.

Lemma fix_keeps_files (g : fs) (q x : string) :
  read x g <> None -> read x (fst (fix_redactarea_calls g q)) <> None.
Proof.
  intros H. unfold fix_redactarea_calls.
  destruct (read q g) as [original|]; [| exact H].
  destruct (fix_content original) as [content n].
  destruct (String.eqb content original); [exact H |]. cbn [fst].
  destruct (String.eqb_spec q x) as [-> | N1];
    [rewrite read_write_eq; discriminate |].
  rewrite read_write_ne by exact N1.
  destruct (String.eqb_spec (q ++ ".bak") x) as [<- | N2];
    [rewrite read_write_eq; discriminate |].
  now rewrite read_write_ne by exact N2.
Qed.

Lemma fix_no_error (g : fs) (q : string) :
  read q g <> None -> snd (snd (fix_redactarea_calls g q)) = 0.
Proof.
  intros H. unfold fix_redactarea_calls.
  destruct (read q g) as [original|]; [| now elim H].
  destruct (fix_content original) as [content n].
  now destruct (String.eqb content original).
Qed.

Lemma step_no_error (g : fs) (fixes errors : nat) (q : string) :
  read q g <> None ->
  snd (step (g, fixes, errors) q) = errors
  /\ fst (fst (step (g, fixes, errors) q)) = fst (fix_redactarea_calls g q).
Proof.
  intros H. pose proof (fix_no_error g q H) as E. unfold step.
  destruct (fix_redactarea_calls g q) as [g' [n e]]. cbn [fst snd] in *.
  subst e. now destruct (0 <? n).
Qed.

Lemma process_no_error (files : list string) (g : fs) (fixes errors : nat) :
  Forall (fun q => read q g <> None) files ->
  snd (fold_left step files (g, fixes, errors)) = errors.
Proof.
  revert g fixes errors.
  induction files as [|q files IH]; intros g fixes errors H; [reflexivity |].
  inversion H as [|? ? Hq Hrest]; subst. cbn [fold_left].
  destruct (step_no_error g fixes errors q Hq) as [E1 E2].
  destruct (step (g, fixes, errors) q) as [[g' fixes'] errors'].
  cbn [fst snd] in *. subst errors' g'.
  apply IH. revert Hrest. apply Forall_impl.
  intros x. apply fix_keeps_files.
Qed.

Lemma cs_files_readable (root : string) (f : fs) :
  Forall (fun q => read q f <> None) (cs_files root f).
Proof.
  apply Forall_forall. intros q H. unfold cs_files in H.
  apply filter_In in H as [_ H]. apply andb_prop in H as [_ H].
  destruct (read q f); [discriminate | discriminate].
Qed.

(** X6: the value [main] of fix_redactarea_calls.py returns does not tell
    whether the compilation succeeded: when no file with a call is found
    it returns 0 without a build; otherwise it returns 0 whenever the
    build ran to an exit, whatever the return code, and 1 when the build
    timed out or raised an exception. *)
Theorem calls_main_exit_status :
  forall (project_root : string) (f : fs) (build : build_outcome),
    let r := main project_root f build in
    (cs_files project_root f = [] ->
     run_built r = false /\ run_exit r = 0 /\ run_fs r = f)
    /\ (cs_files project_root f <> [] ->
        run_built r = true
        /\ run_exit r = match build with
                        | Exited _ _ => 0
                        | TimeoutExpired => 1
                        | Raised => 1
                        end).
Proof.
  intros project_root f build r. subst r. unfold main. split.
  - intros ->. auto.
  - intros N.
    pose proof (process_no_error (cs_files project_root f) f 0 0
                  (cs_files_readable project_root f)) as E.
    unfold process_files.
    destruct (cs_files project_root f) as [|q files]; [now elim N |].
    destruct (fold_left step (q :: files) (f, 0, 0)) as [[g fixes] errors].
    cbn [snd] in E. subst errors.
    destruct build as [rc stderr | |]; [| auto | auto].
    now destruct (Z.eqb rc 0).
Qed.

Lemma calls_main_exit_status_witness :
  run_built (main "/p" two_files (Exited 1 "error CS7036")) = true
  /\ run_exit (main "/p" two_files (Exited 1 "error CS7036")) = 0.
Proof.
  apply (proj2 (calls_main_exit_status "/p" two_files
                  (Exited 1 "error CS7036"))).
  vm_compute. discriminate.
Defined.

End ExitFacts.

(** * The loops of [main] over a list of files: what they leave alone *)

Module LoopFacts.
Import Fs FsFacts LoopProps.

Section Loop.

Variable suffix : string.
Variable process : fs -> string -> fs.
Hypothesis process_frame :
  forall g q x, x <> q -> x <> q ++ suffix -> read x (process g q) = read x g.

Lemma pass_frame (g : fs) (q x : string) :
  x <> q -> x <> q ++ suffix -> read x (pass process g q) = read x g.
Proof.
  intros N1 N2. unfold pass.
  destruct (negb (exists_ q g)); [reflexivity | now apply process_frame].
Qed.

Lemma pass_missing (g : fs) (q : string) :
  read q g = None -> pass process g q = g.
Proof. intros H. unfold pass, exists_. now rewrite H. Qed.

Lemma loop_frame (paths : list string) (g : fs) (x : string) :
  (forall q, In q paths -> x <> q /\ x <> q ++ suffix) ->
  read x (fold_left (pass process) paths g) = read x g.
Proof.
  revert g. induction paths as [|q paths IH]; intros g H; [reflexivity |].
  cbn [fold_left]. rewrite IH by (intros q' Hq; apply H; now right).
  destruct (H q (or_introl eq_refl)) as [N1 N2]. now apply pass_frame.
Qed.

Lemma loop_missing (paths : list string) (g : fs) (x : string) :
  read x g = None ->
  (forall q, In q paths -> x <> q ++ suffix) ->
  read x (fold_left (pass process) paths g) = None.
Proof.
  revert g. induction paths as [|q paths IH]; intros g R H; [exact R |].
  cbn [fold_left]. apply IH; [| intros q' Hq; apply H; now right].
  destruct (String.eqb_spec x q) as [-> | N].
  - now rewrite pass_missing.
  - rewrite pass_frame; [exact R | exact N | apply H; now left].
Qed.

Lemma loop_no_backup (paths : list string) (g : fs) (x : string) :
  read x g = None ->
  (forall q, In q paths -> x <> q ++ suffix /\ x ++ suffix <> q) ->
  read (x ++ suffix) (fold_left (pass process) paths g)
  = read (x ++ suffix) g.
Proof.
  revert g. induction paths as [|q paths IH]; intros g R H; [reflexivity |].
  cbn [fold_left].
  destruct (H q (or_introl eq_refl)) as [N1 N2].
  destruct (String.eqb_spec x q) as [-> | N].
  - rewrite pass_missing by exact R.
    apply IH; [exact R | intros q' Hq; apply H; now right].
  - rewrite IH.
    + apply pass_frame; [exact N2 |].
      intros E. apply app_inv_tail in E. contradiction.
    + rewrite pass_frame; [exact R | exact N | exact N1].
    + intros q' Hq; apply H; now right.
Qed.

Lemma loop_leaves_alone (paths : list string) (f : fs) :
  (forall q q', In q paths -> In q' paths ->
                q <> q' ++ suffix) ->
  leaves_alone suffix paths f (fold_left (pass process) paths f).
Proof.
  intros D. split.
  - intros x H. now apply loop_frame.
  - intros q Hq R. split.
    + apply loop_missing; [exact R | intros q' Hq'; now apply D].
    + apply loop_no_backup; [exact R |].
      intros q' Hq'. split; [now apply D |].
      intros E. symmetry in E. revert E. now apply D.
Qed.

(** the text of a file after its turn, and the number counted for it *)
Variable result : string -> string.
Variable changed : string -> bool.
Variable count : string -> nat.
Hypothesis process_at :
  forall g q c,
    read q g = Some c ->
    read q (process g q) = Some (result c)
    /\ read (q ++ suffix) (process g q)
       = if changed c then Some c else read (q ++ suffix) g.

Lemma loop_result (paths : list string) (f : fs) (q c : string) :
  NoDup paths ->
  (forall q q', In q paths -> In q' paths -> q <> q' ++ suffix) ->
  In q paths -> read q f = Some c ->
  let h := fold_left (pass process) paths f in
  read q h = Some (result c)
  /\ read (q ++ suffix) h = if changed c then Some c else read (q ++ suffix) f.
Proof.
  intros ND D Hq R h. subst h.
  destruct (in_split _ _ Hq) as (l1 & l2 & ->).
  apply NoDup_remove_2 in ND.
  assert (N1 : forall q', In q' l1 -> q <> q')
    by (intros q' H ->; apply ND, in_or_app; now left).
  assert (N2 : forall q', In q' l2 -> q <> q')
    by (intros q' H ->; apply ND, in_or_app; now right).
  assert (In1 : forall q', In q' l1 -> In q' (l1 ++ q :: l2))
    by (intros; apply in_or_app; now left).
  assert (In2 : forall q', In q' l2 -> In q' (l1 ++ q :: l2))
    by (intros; apply in_or_app; right; now right).
  assert (B : forall q', In q' (l1 ++ q :: l2) ->
                         q ++ suffix <> q' /\ (q <> q' -> q ++ suffix <> q' ++ suffix)).
  { intros q' H. split.
    - intros E. symmetry in E. revert E. now apply D.
    - intros N E. apply app_inv_tail in E. contradiction. }
  rewrite fold_left_app. cbn [fold_left].
  set (g := fold_left (pass process) l1 f).
  assert (Rg : read q g = Some c).
  { unfold g. rewrite loop_frame; [exact R |].
    intros q' H. split; [now apply N1 | apply D; auto]. }
  assert (Bg : read (q ++ suffix) g = read (q ++ suffix) f).
  { unfold g. apply loop_frame. intros q' H.
    destruct (B q' (In1 _ H)) as [B1 B2]. split; [exact B1 | apply B2; auto]. }
  assert (P : pass process g q = process g q).
  { unfold pass, exists_. now rewrite Rg. }
  destruct (process_at g q c Rg) as [P1 P2].
  split.
  - rewrite loop_frame; [now rewrite P |].
    intros q' H. split; [now apply N2 | apply D; auto].
  - rewrite loop_frame; [rewrite P, P2, Bg; reflexivity |].
    intros q' H. destruct (B q' (In2 _ H)) as [B1 B2].
    split; [exact B1 | apply B2; auto].
Qed.

Lemma turns_fs (paths : list string) (st : fs * nat) :
  fst (fold_left (turn process count) paths st)
  = fold_left (pass process) paths (fst st).
Proof.
  revert st. induction paths as [|q paths IH]; intros st; [reflexivity |].
  cbn [fold_left]. now rewrite IH.
Qed.

Lemma turns_total (paths : list string) (st : fs * nat) :
  NoDup paths ->
  (forall q q', In q paths -> In q' paths -> q <> q' ++ suffix) ->
  snd (fold_left (turn process count) paths st)
  = snd st + list_sum (map (counted count (fst st)) paths).
Proof.
  revert st. induction paths as [|q paths IH]; intros st ND D.
  - cbn. lia.
  - cbn [fold_left map]. inversion ND as [|? ? Hq ND']; subst.
    rewrite IH; [| exact ND' | intros; apply D; now right].
    cbn [turn fst snd].
    assert (E : map (counted count (pass process (fst st) q)) paths
                = map (counted count (fst st)) paths).
    { apply map_ext_in. intros q' H. unfold counted.
      rewrite pass_frame; [reflexivity | |].
      - intros ->. contradiction.
      - apply D; [now right | now left]. }
    rewrite E. unfold list_sum. cbn [fold_right]. lia.
Qed.

End Loop.

Lemma no_backup_listed_paths (dir suffix : string) (rels : list string) :
  no_backup_listed suffix rels = true ->
  forall q q', In q (map (fun rel => dir ++ "/" ++ rel) rels) ->
               In q' (map (fun rel => dir ++ "/" ++ rel) rels) ->
               q <> q' ++ suffix.
Proof.
  intros H q q' Hq Hq'.
  apply in_map_iff in Hq as (rel & <- & Hrel).
  apply in_map_iff in Hq' as (rel' & <- & Hrel').
  unfold no_backup_listed in H. rewrite forallb_forall in H.
  specialize (H rel Hrel). rewrite forallb_forall in H.
  specialize (H rel' Hrel'). apply negb_true_iff in H.
  intros E. rewrite StrFacts.app_assoc in E.
  apply StrFacts.app_inv_head in E. cbn in E. injection E as E. subst rel.
  now rewrite String.eqb_refl in H.
Qed.

Lemma distinct_nodup (l : list string) : distinct l = true -> NoDup l.
Proof.
  induction l as [|x l IH]; intros H; [constructor |].
  cbn in H. apply andb_true_iff in H as [H1 H2]. constructor; [| now apply IH].
  intros Hin. apply negb_true_iff in H1.
  assert (E : existsb (String.eqb x) l = true).
  { apply existsb_exists. exists x. split; [exact Hin | apply String.eqb_refl]. }
  congruence.
Qed.

Lemma distinct_paths (dir : string) (rels : list string) :
  distinct rels = true -> NoDup (map (fun rel => dir ++ "/" ++ rel) rels).
Proof.
  intros H. apply distinct_nodup in H.
  induction H as [|x l Hx ND IH]; [constructor |].
  cbn [map]. constructor; [| exact IH].
  intros Hin. apply in_map_iff in Hin as (y & E & Hy).
  apply StrFacts.app_inv_head in E. cbn in E. injection E as E. now subst y.
Qed.

Lemma suffix_not_self (q suffix : string) : suffix <> "" -> q ++ suffix <> q.
Proof.
  intros N E. apply N.
  assert (L : String.length (q ++ suffix) = String.length q) by now rewrite E.
  rewrite StrFacts.length_app in L. apply StrFacts.length_zero. lia.
Qed.

(** a loop body that rewrites a file when [changed] holds of its text,
    after a backup *)
Section Patch.

Variable suffix : string.
Variable process : fs -> string -> fs.
Variable result : string -> string.
Variable changed : string -> bool.
Hypothesis suffix_nonempty : suffix <> "".
Hypothesis result_same : forall o, changed o = false -> result o = o.
Hypothesis process_eq :
  forall g q,
    process g q
    = match read q g with
      | None => g
      | Some o =>
          if changed o then write q (result o) (write (q ++ suffix) o g)
          else g
      end.

Lemma patch_frame (g : fs) (q x : string) :
  x <> q -> x <> q ++ suffix -> read x (process g q) = read x g.
Proof.
  intros N1 N2. rewrite process_eq.
  destruct (read q g) as [o|]; [| reflexivity].
  destruct (changed o); [| reflexivity].
  rewrite read_write_ne by congruence. now rewrite read_write_ne by congruence.
Qed.

Lemma patch_at (g : fs) (q c : string) :
  read q g = Some c ->
  read q (process g q) = Some (result c)
  /\ read (q ++ suffix) (process g q)
     = if changed c then Some c else read (q ++ suffix) g.
Proof.
  intros R. rewrite process_eq, R.
  destruct (changed c) eqn:C.
  - split; [apply read_write_eq |].
    rewrite read_write_ne by (intros E; symmetry in E; revert E;
                              now apply suffix_not_self).
    apply read_write_eq.
  - split; [| reflexivity]. now rewrite result_same.
Qed.

(** the whole loop, from the file system before it *)
Lemma patch_loop (paths : list string) (f : fs) (count : string -> nat) :
  NoDup paths ->
  (forall q q', In q paths -> In q' paths -> q <> q' ++ suffix) ->
  let st := fold_left (turn process count) paths (f, 0) in
  (forall q c, In q paths -> read q f = Some c ->
               read q (fst st) = Some (result c)
               /\ read (q ++ suffix) (fst st)
                  = if changed c then Some c else read (q ++ suffix) f)
  /\ leaves_alone suffix paths f (fst st)
  /\ snd st = list_sum (map (counted count f) paths).
Proof.
  intros ND D st. unfold st. rewrite turns_fs. cbn [fst].
  split; [| split].
  - intros q c Hq R.
    now apply (loop_result suffix process patch_frame result changed patch_at).
  - now apply loop_leaves_alone; [apply patch_frame |].
  - rewrite (turns_total suffix process patch_frame); [reflexivity | exact ND | exact D].
Qed.

End Patch.

Lemma changes_same (c : string) : Phase3Main.changes c c = 0.
Proof.
  unfold Phase3Main.changes.
  induction (Str.split "010" c) as [|x l IH]; [reflexivity |].
  cbn. now rewrite String.eqb_refl.
Qed.

End LoopFacts.

(** * What a run of phase 3, of phase 4 and of the final fixer does to the
    listed files *)

Module MainFacts.
Import Fs FsFacts LoopProps LoopFacts MainProps.

Lemma phase3_step (root : string) (st : fs * nat) (rel : string) :
  Phase3Main.step root st rel
  = turn Phase3.process_file
         (fun o => Phase3Main.changes o (Phase3.fix_content o))
         st (Phase3Main.path_of root rel).
Proof.
  destruct st as [g t]. unfold Phase3Main.step, turn, pass, counted.
  cbn [fst snd]. unfold Phase3.process_file, exists_.
  destruct (read (Phase3Main.path_of root rel) g) as [o|]; cbn [negb].
  - destruct (negb (Phase3.fix_content o =? o)%string) eqn:E.
    + reflexivity.
    + apply negb_false_iff, String.eqb_eq in E. rewrite E, changes_same.
      now rewrite Nat.add_0_r.
  - now rewrite Nat.add_0_r.
Qed.

Lemma phase4_step (root : string) (st : fs * nat) (rel : string) :
  Phase4Main.step root st rel
  = turn Phase4.process_file
         (fun o => Phase3Main.changes o (Phase4.fix_content o))
         st (Phase4Main.path_of root rel).
Proof.
  destruct st as [g t]. unfold Phase4Main.step, turn, pass, counted.
  cbn [fst snd]. unfold Phase4.process_file, exists_, Phase4Main.changes.
  destruct (read (Phase4Main.path_of root rel) g) as [o|]; cbn [negb].
  - destruct (negb (Phase4.fix_content o =? o)%string) eqn:E.
    + reflexivity.
    + apply negb_false_iff, String.eqb_eq in E. rewrite E, changes_same.
      now rewrite Nat.add_0_r.
  - now rewrite Nat.add_0_r.
Qed.

Lemma final_step (root : string) (st : fs * nat) (rel : string) :
  FixAllFinalMain.step root st rel
  = turn (fun g q => fst (FixAllFinal.fix_file g q))
         (fun o => snd (FixAllFinal.transform
                          (FixAllFinal.find_path_variables o) o))
         st (FixAllFinalMain.path_of root rel).
Proof.
  destruct st as [g t]. unfold FixAllFinalMain.step, turn, pass, counted.
  cbn [fst snd]. unfold FixAllFinal.fix_file, exists_.
  destruct (read (FixAllFinalMain.path_of root rel) g) as [o|]; cbn [negb].
  - destruct (FixAllFinal.transform (FixAllFinal.find_path_variables o) o)
      as [new_content fixes]. cbn [snd].
    destruct fixes as [|n]; cbn [Nat.eqb Nat.ltb Nat.leb fst].
    + now rewrite Nat.add_0_r.
    + reflexivity.
  - now rewrite Nat.add_0_r.
Qed.

Lemma fold_steps {A : Type} (step : fs * nat -> A -> fs * nat)
      (turn' : fs * nat -> string -> fs * nat) (path : A -> string)
      (rels : list A) (st : fs * nat) :
  (forall st rel, step st rel = turn' st (path rel)) ->
  fold_left step rels st = fold_left turn' (map path rels) st.
Proof.
  intros H. revert st. induction rels as [|r rels IH]; intros st;
    [reflexivity |].
  cbn [fold_left map]. now rewrite H, IH.
Qed.

Lemma in_paths (dir : string) (rels : list string) (rel : string) :
  In rel rels -> In (dir ++ "/" ++ rel) (map (fun r => dir ++ "/" ++ r) rels).
Proof. intros H. apply in_map_iff. now exists rel. Qed.

Lemma sum_paths (dir : string) (rels : list string) (count : string -> nat)
      (f : fs) :
  list_sum (map (counted count f) (map (fun r => dir ++ "/" ++ r) rels))
  = list_sum (map (fun rel => counted count f (dir ++ "/" ++ rel)) rels).
Proof. now rewrite map_map. Qed.

(** the three conclusions of a run, for a list of relative paths *)
Lemma run_outcome (dir suffix : string) (rels : list string)
      (process : fs -> string -> fs) (result : string -> string)
      (changed : string -> bool) (count : string -> nat) (f : fs) :
  suffix <> "" ->
  (forall o, changed o = false -> result o = o) ->
  (forall g q,
      process g q
      = match read q g with
        | None => g
        | Some o =>
            if changed o then write q (result o) (write (q ++ suffix) o g)
            else g
        end) ->
  distinct rels = true ->
  no_backup_listed suffix rels = true ->
  let path := fun rel => dir ++ "/" ++ rel in
  let st := fold_left (turn process count) (map path rels) (f, 0) in
  (forall rel c, In rel rels -> read (path rel) f = Some c ->
                 read (path rel) (fst st) = Some (result c)
                 /\ read (path rel ++ suffix) (fst st)
                    = if changed c then Some c
                      else read (path rel ++ suffix) f)
  /\ (forall rel, In rel rels -> read (path rel) f = None ->
                  read (path rel) (fst st) = None
                  /\ read (path rel ++ suffix) (fst st)
                     = read (path rel ++ suffix) f)
  /\ (forall x, (forall rel, In rel rels ->
                             x <> path rel /\ x <> path rel ++ suffix) ->
                read x (fst st) = read x f)
  /\ snd st = list_sum (map (fun rel => counted count f (path rel)) rels).
Proof.
  intros Hs Hr Hp Hd Hb path st.
  destruct (patch_loop suffix process result changed Hs Hr Hp
                       (map path rels) f count
                       (distinct_paths dir rels Hd)
                       (no_backup_listed_paths dir suffix rels Hb))
    as (A & [B1 B2] & C).
  fold st in A, B1, B2, C.
  split; [| split; [| split]].
  - intros rel c Hin R. apply A; [now apply in_paths | exact R].
  - intros rel Hin R. apply B2; [now apply in_paths | exact R].
  - intros x H. apply B1. intros q Hq.
    apply in_map_iff in Hq as (rel & <- & Hrel). now apply H.
  - rewrite C. apply sum_paths.
Qed.

(** X7.  A run of phase 3 and a run of phase 4, from the file system [f]
    before it.  Every listed file that exists holds [fix_content] of its
    text afterwards, and its backup holds the text it had when
    [fix_content] changes it; otherwise the backup path is as before.  A
    listed file that does not exist is not created and gets no backup.
    Every path that is neither a listed file nor the backup of one reads
    as before.  The total that [main] prints is the sum, over the listed
    files that exist, of the number of lines that differ between the text
    and [fix_content] of it. *)
Theorem phase3_phase4_run_outcome :
  forall (project_root : string) (f : fs),
    (let path := Phase3Main.path_of project_root in
     let h := fst (Phase3Main.main project_root f) in
     (forall rel original,
         In rel Phase3Main.files -> read (path rel) f = Some original ->
         read (path rel) h = Some (Phase3.fix_content original)
         /\ read (path rel ++ ".p3.bak") h
            = if negb (Phase3.fix_content original =? original)%string
              then Some original else read (path rel ++ ".p3.bak") f)
     /\ (forall rel,
            In rel Phase3Main.files -> read (path rel) f = None ->
            read (path rel) h = None
            /\ read (path rel ++ ".p3.bak") h = read (path rel ++ ".p3.bak") f)
     /\ (forall x,
            (forall rel, In rel Phase3Main.files ->
                         x <> path rel /\ x <> path rel ++ ".p3.bak") ->
            read x h = read x f)
     /\ snd (Phase3Main.main project_root f)
        = list_sum
            (map (fun rel =>
                    match read (path rel) f with
                    | Some original =>
                        Phase3Main.changes original
                                           (Phase3.fix_content original)
                    | None => 0
                    end) Phase3Main.files))
    /\
    (let path := Phase4Main.path_of project_root in
     let h := fst (Phase4Main.main project_root f) in
     (forall rel original,
         In rel Phase4Main.files_to_fix -> read (path rel) f = Some original ->
         read (path rel) h = Some (Phase4.fix_content original)
         /\ read (path rel ++ ".p4.bak") h
            = if negb (Phase4.fix_content original =? original)%string
              then Some original else read (path rel ++ ".p4.bak") f)
     /\ (forall rel,
            In rel Phase4Main.files_to_fix -> read (path rel) f = None ->
            read (path rel) h = None
            /\ read (path rel ++ ".p4.bak") h = read (path rel ++ ".p4.bak") f)
     /\ (forall x,
            (forall rel, In rel Phase4Main.files_to_fix ->
                         x <> path rel /\ x <> path rel ++ ".p4.bak") ->
            read x h = read x f)
     /\ snd (Phase4Main.main project_root f)
        = list_sum
            (map (fun rel =>
                    match read (path rel) f with
                    | Some original =>
                        Phase3Main.changes original
                                           (Phase4.fix_content original)
                    | None => 0
                    end) Phase4Main.files_to_fix)).
Proof.
  intros root f. split.
  - cbv zeta. unfold Phase3Main.main.
    rewrite (fold_steps (Phase3Main.step root) _ (Phase3Main.path_of root)
                        Phase3Main.files (f, 0) (phase3_step root)).
    apply (run_outcome (Phase3Main.TEST_DIR root) ".p3.bak" Phase3Main.files
                       Phase3.process_file Phase3.fix_content
                       (fun o => negb (Phase3.fix_content o =? o)%string)).
    + discriminate.
    + intros o H. now apply negb_false_iff, String.eqb_eq in H.
    + intros g q. reflexivity.
    + now vm_compute.
    + now vm_compute.
  - cbv zeta. unfold Phase4Main.main.
    rewrite (fold_steps (Phase4Main.step root) _ (Phase4Main.path_of root)
                        Phase4Main.files_to_fix (f, 0) (phase4_step root)).
    apply (run_outcome (Phase4Main.TEST_DIR root) ".p4.bak"
                       Phase4Main.files_to_fix
                       Phase4.process_file Phase4.fix_content
                       (fun o => negb (Phase4.fix_content o =? o)%string)).
    + discriminate.
    + intros o H. now apply negb_false_iff, String.eqb_eq in H.
    + intros g q. reflexivity.
    + now vm_compute.
    + now vm_compute.
Qed.

Lemma listed_in_phase3 : In "UI/ViewModelIntegrationTests.cs" Phase3Main.files.
Proof. unfold Phase3Main.files. repeat (try (left; reflexivity); right). Qed.

Lemma phase3_phase4_run_outcome_witness :
  read listed_test (fst (Phase3Main.main "/p" listed_project))
  = Some (Phase3.fix_content "s.RedactArea(page, new Rect(1, 2, 3, 4));")
  /\ read "/p/PdfEditor.Tests/Notes.txt" (fst (Phase4Main.main "/p" listed_project))
     = Some "RedactArea(page, area);".
Proof.
  destruct (phase3_phase4_run_outcome "/p" listed_project)
    as [(A & _) (_ & _ & C & _)].
  split.
  - exact (proj1 (A "UI/ViewModelIntegrationTests.cs" _
                    listed_in_phase3 eq_refl)).
  - apply (C "/p/PdfEditor.Tests/Notes.txt").
    intros rel H. unfold Phase4Main.files_to_fix in H. cbn [In] in H.
    repeat (destruct H as [<- | H]; [split; vm_compute; discriminate |]).
    contradiction.
Defined.

(** X8.  A run of the final fixer, from the file system [f] before it.
    Every listed file with a line that [fix_file] fixes holds the joined
    new lines afterwards and its backup holds the text it had; a listed
    file without such a line is left as it is, and so is its backup path.
    A listed file that does not exist is not created and gets no backup.
    Every path below the test directory that is neither a listed file nor
    the backup of one reads as before.  The total of [main] is the sum of
    the fixes of the listed files that exist. *)
Theorem final_run_outcome :
  forall (project_root : string) (f : fs),
    let path := FixAllFinalMain.path_of project_root in
    let h := fst (FixAllFinalMain.main project_root f) in
    let fixed := fun original =>
      FixAllFinal.transform (FixAllFinal.find_path_variables original)
                            original in
    (forall rel original,
        In rel FixAllFinalMain.files_to_fix ->
        read (path rel) f = Some original ->
        read (path rel) h
        = Some (if snd (fixed original) =? 0 then original
                else fst (fixed original))
        /\ read (path rel ++ ".final.bak") h
           = if snd (fixed original) =? 0
             then read (path rel ++ ".final.bak") f else Some original)
    /\ (forall rel,
           In rel FixAllFinalMain.files_to_fix -> read (path rel) f = None ->
           read (path rel) h = None
           /\ read (path rel ++ ".final.bak") h
              = read (path rel ++ ".final.bak") f)
    /\ (forall x,
           under (FixAllFinalMain.TEST_DIR project_root) x = true ->
           (forall rel, In rel FixAllFinalMain.files_to_fix ->
                        x <> path rel /\ x <> path rel ++ ".final.bak") ->
           read x h = read x f)
    /\ snd (FixAllFinalMain.main project_root f)
       = list_sum
           (map (fun rel =>
                   match read (path rel) f with
                   | Some original => snd (fixed original)
                   | None => 0
                   end) FixAllFinalMain.files_to_fix).
Proof.
  intros root f. cbv zeta. unfold FixAllFinalMain.main.
  rewrite (fold_steps (FixAllFinalMain.step root) _
                      (FixAllFinalMain.path_of root)
                      FixAllFinalMain.files_to_fix (f, 0) (final_step root)).
  set (fixed := fun o =>
         FixAllFinal.transform (FixAllFinal.find_path_variables o) o).
  destruct (run_outcome (FixAllFinalMain.TEST_DIR root) ".final.bak"
              FixAllFinalMain.files_to_fix
              (fun g q => fst (FixAllFinal.fix_file g q))
              (fun o => if snd (fixed o) =? 0 then o else fst (fixed o))
              (fun o => negb (snd (fixed o) =? 0))
              (fun o => snd (fixed o)) f) as (A & B & C & D).
  - discriminate.
  - intros o H. apply negb_false_iff in H. now rewrite H.
  - intros g q. unfold FixAllFinal.fix_file.
    destruct (read q g) as [o|]; [| reflexivity].
    unfold fixed.
    destruct (FixAllFinal.transform (FixAllFinal.find_path_variables o) o)
      as [new_content fixes]. cbn [fst snd].
    now destruct (fixes =? 0).
  - now vm_compute.
  - now vm_compute.
  - split; [| split; [| split]].
    + intros rel o Hin R. destruct (A rel o Hin R) as [A1 A2].
      split; [exact A1 |]. refine (eq_trans A2 _).
      unfold fixed.
      destruct (snd (FixAllFinal.transform
                       (FixAllFinal.find_path_variables o) o) =? 0);
        reflexivity.
    + exact B.
    + intros x _ H. now apply C.
    + exact D.
Qed.

Lemma listed_in_final :
  In "UI/ViewModelIntegrationTests.cs" FixAllFinalMain.files_to_fix.
Proof.
  unfold FixAllFinalMain.files_to_fix. repeat (try (left; reflexivity); right).
Qed.

Lemma final_run_outcome_witness :
  read listed_test (fst (FixAllFinalMain.main "/p" dpi_project))
  = Some "s.RedactArea(page, area, pdfPath, renderDpi: 150);"
  /\ read (listed_test ++ ".final.bak") (fst (FixAllFinalMain.main "/p" dpi_project))
     = Some "s.RedactArea(page, area, renderDpi: 150);"
  /\ read "/p/PdfEditor.Tests/Notes.txt"
          (fst (FixAllFinalMain.main "/p" dpi_project))
     = Some "RedactArea(page, area);".
Proof.
  destruct (final_run_outcome "/p" dpi_project) as (A & _ & C & _).
  destruct (A "UI/ViewModelIntegrationTests.cs"
              "s.RedactArea(page, area, renderDpi: 150);"
              listed_in_final eq_refl)
    as [A1 A2].
  split; [| split].
  - refine (eq_trans A1 _). vm_compute. reflexivity.
  - refine (eq_trans A2 _). vm_compute. reflexivity.
  - apply (C "/p/PdfEditor.Tests/Notes.txt"); [reflexivity |].
    intros rel H. unfold FixAllFinalMain.files_to_fix in H. cbn [In] in H.
    repeat (destruct H as [<- | H]; [split; vm_compute; discriminate |]).
    contradiction.
Defined.

End MainFacts.

(** * Lines: [readlines] and [''.join] *)

Module LinesFacts.
Import Lines LinesProps.

Lemma concat_cons (x : string) (l : list string) :
  Str.concat (x :: l) = x ++ Str.concat l.
Proof. reflexivity. Qed.

Lemma concat_readlines (s : string) : Str.concat (readlines s) = s.
Proof.
  induction s as [|a s IH]; [reflexivity |].
  cbn [readlines]. destruct (Ascii.eqb a "010").
  - rewrite concat_cons, IH. reflexivity.
  - destruct (readlines s) as [|l ls].
    + cbn in IH. now subst s.
    + rewrite concat_cons in *. cbn. now rewrite IH.
Qed.

Lemma readlines_line (l s : string) :
  is_line l = true -> readlines (l ++ s) = l :: readlines s.
Proof.
  induction l as [|a l IH]; intros H; [discriminate |].
  cbn [is_line] in H. cbn [String.append readlines].
  destruct (Ascii.eqb a "010") eqn:E.
  - destruct l; [reflexivity | discriminate].
  - now rewrite (IH H).
Qed.

Lemma readlines_lines (ls : list string) (s : string) :
  forallb is_line ls = true ->
  readlines (Str.concat ls ++ s) = (ls ++ readlines s)%list.
Proof.
  induction ls as [|l ls IH]; intros H; [reflexivity |].
  cbn [forallb] in H. apply andb_true_iff in H as [H1 H2].
  rewrite concat_cons, StrFacts.app_assoc, readlines_line by exact H1.
  now rewrite IH.
Qed.

Lemma one_line_app (s t : string) :
  one_line (s ++ t) = one_line s && one_line t.
Proof. apply StrFacts.forallb_app. Qed.

Lemma is_line_nl (t : string) :
  one_line t = true -> is_line (t ++ String "010"%char EmptyString) = true.
Proof.
  induction t as [|a t IH]; intros H; [reflexivity |].
  cbn in H. apply andb_true_iff in H as [H1 H2].
  cbn [String.append is_line]. apply negb_true_iff in H1. rewrite H1.
  now apply IH.
Qed.

End LinesFacts.

(** * Whole tables: the bodies of all pages together *)

Module TableFacts.
Import Wiki WikiProps WikiFacts Lines LinesProps LinesFacts TableProps.

Lemma last_default (x d d' : entry) (r : list entry) :
  last (x :: r) d = last (x :: r) d'.
Proof.
  revert x. induction r as [|y r IH]; intros x; [reflexivity |].
  change (last (y :: r) d = last (y :: r) d'). apply IH.
Qed.

Lemma last_cons (e e' : entry) (rest : list entry) :
  last (e' :: rest) e = last rest e'.
Proof.
  destruct rest as [|x r]; [reflexivity |].
  change (last (x :: r) e = last (x :: r) e'). apply last_default.
Qed.

Lemma chain_end (e : entry) (rest : list entry) :
  chain e rest = true -> (e_start e <= e_end e <= e_end (last rest e))%Z.
Proof.
  revert e. induction rest as [|e' rest IH]; intros e H.
  - cbn in H. rewrite andb_true_r in H. apply Z.leb_le in H. cbn. lia.
  - cbn [chain] in H. apply andb_true_iff in H as [H1 H2].
    apply andb_true_iff in H2 as [H2 H3].
    apply Z.leb_le in H1. apply Z.eqb_eq in H2.
    specialize (IH e' H3).
    rewrite last_cons. lia.
Qed.

Lemma chain_bodies (clamp : bool) (lines : list string) (e : entry)
      (rest : list entry) :
  (1 <= e_start e)%Z -> chain e rest = true ->
  Str.concat (map (page_content clamp lines) (e :: rest))
  = Str.concat (Spec.source_lines lines (e_start e)
                  (Spec.last_line clamp (Z.of_nat (List.length lines))
                                  (last rest e))).
Proof.
  revert e. induction rest as [|e' rest IH]; intros e Hs H.
  - cbn [map last]. unfold Str.concat at 1. cbn [fold_right].
    rewrite StrFacts.app_nil_r. apply page_content_lines; [exact Hs |].
    pose proof (chain_end e [] H). cbn in H0. lia.
  - pose proof (chain_end e (e' :: rest) H) as B.
    cbn [chain] in H. apply andb_true_iff in H as [H1 H2].
    apply andb_true_iff in H2 as [H2 H3].
    apply Z.leb_le in H1. apply Z.eqb_eq in H2.
    pose proof (chain_end e' rest H3) as B'.
    change (map (page_content clamp lines) (e :: e' :: rest))
      with (page_content clamp lines e
            :: map (page_content clamp lines) (e' :: rest)).
    unfold Str.concat at 1. cbn [fold_right].
    fold (Str.concat (map (page_content clamp lines) (e' :: rest))).
    rewrite (IH e') by (try exact H3; lia).
    rewrite page_content_lines by lia.
    rewrite <- concat_app. f_equal. rewrite last_cons.
    set (z := last rest e') in *.
    pose (e'' := ((e_start e', e_end z, "", "") : entry)).
    assert (P : (e_start e'' <= e_end e'')%Z)
      by (unfold e'', e_start, e_end; cbn [fst snd];
          unfold e_start, e_end in B'; lia).
    exact (contiguous_lines clamp lines e e'' Hs H1 H2 P).
Qed.

Lemma table_chain (clamp : bool) (lines : list string) (first : entry)
      (rest : list entry) :
  chained (first :: rest) = true ->
  Str.concat (map (page_content clamp lines) (first :: rest))
  = Str.concat (Spec.source_lines lines (e_start first)
                  (Spec.last_line clamp (Z.of_nat (List.length lines))
                                  (last rest first))).
Proof.
  intros H. cbn [chained] in H.
  apply andb_true_iff in H as [H1 H2]. apply Z.leb_le in H1.
  now apply chain_bodies.
Qed.

Lemma source_lines_from_one (lines : list string) (b : Z) :
  Spec.source_lines lines 1 (Z.min b (Z.of_nat (List.length lines)))
  = firstn (Z.to_nat b) lines.
Proof.
  rewrite source_lines_firstn by lia. cbn [Z.sub Z.to_nat skipn Z.opp
                                                 Z.add Z.pos_sub].
  change (Z.to_nat (1 - 1)) with 0. cbn [skipn].
  destruct (Z.le_gt_cases b (Z.of_nat (List.length lines))) as [H|H].
  - rewrite Z.min_l by lia. f_equal. lia.
  - rewrite Z.min_r by lia. rewrite !firstn_all2 by lia. reflexivity.
Qed.

Lemma source_lines_snoc (lines : list string) (x : string) (a b : Z) :
  (1 <= a)%Z -> (b <= Z.of_nat (List.length lines))%Z ->
  Spec.source_lines (lines ++ [x]) a b = Spec.source_lines lines a b.
Proof.
  intros Ha Hb. rewrite !source_lines_firstn by lia.
  rewrite skipn_app, firstn_app, length_skipn.
  replace (Z.to_nat (b - a + 1) - (List.length lines - Z.to_nat (a - 1)))
    with 0 by lia.
  cbn [firstn]. now rewrite List.app_nil_r.
Qed.

Lemma split_loop_bodies st idx parent clamp lines sections :
  forall rest i,
    Forall2 (fun page body =>
               exists header footer, snd page = header ++ body ++ footer)
            (split_loop st idx parent clamp lines sections i rest)
            (map (page_content clamp lines) rest).
Proof.
  induction rest as [|e rest IH]; intros i; cbn [split_loop map];
    constructor; [| apply IH].
  unfold write_wiki_page. cbn [snd]. eauto.
Qed.

(** X9.  The bodies of a whole table.  When the first entry starts at
    line 1 or later and every entry starts where the one before it ends,
    with [start <= end], the bodies of the pages, put together in the
    order of the table, are the lines of the document from the start of
    the first entry through the last line of the last entry, each line
    once: no line between two pages is lost and none is on two pages. *)
Theorem table_bodies_partition :
  forall (clamp : bool) (lines : list string) (first : entry)
         (rest : list entry),
    chained (first :: rest) = true ->
    Str.concat (map (page_content clamp lines) (first :: rest))
    = Str.concat (Spec.source_lines lines (e_start first)
                    (Spec.last_line clamp (Z.of_nat (List.length lines))
                                    (last rest first))).
Proof.
  intros clamp lines first rest H. cbn [chained] in H.
  apply andb_true_iff in H as [H1 H2]. apply Z.leb_le in H1.
  now apply chain_bodies.
Qed.

Lemma table_bodies_partition_witness :
  Str.concat (map (page_content true twelve)
                  SplitPdfSpecV3.CHAPTER_10_SECTIONS)
  = "ijk".
Proof.
  unfold SplitPdfSpecV3.CHAPTER_10_SECTIONS.
  match goal with
  | |- Str.concat (map _ (?first :: ?rest)) = _ =>
      refine (eq_trans (table_bodies_partition true twelve first rest
                                               eq_refl) _)
  end.
  reflexivity.
Defined.

(** X10.  split-pdf-spec.py as a whole, on the text of its input file.
    Every page of [main] is a header, the body of its chapter and a
    footer; the sixteen bodies, in order, put together are the first
    18368 lines of the text; when the text has no more lines than that,
    they are the text itself, so that the split loses and repeats
    nothing. *)
Theorem chapters_cover_document :
  forall text : string,
    let lines := readlines text in
    let bodies := map (page_content false lines) SplitPdfSpec.CHAPTERS in
    Forall2 (fun page body =>
               exists header footer, snd page = header ++ body ++ footer)
            (SplitPdfSpec.main lines) bodies
    /\ Str.concat bodies = Str.concat (firstn (Z.to_nat 18368) lines)
    /\ ((Z.of_nat (List.length lines) <= 18368)%Z ->
        Str.concat bodies = text).
Proof.
  intros text lines bodies.
  assert (E : Str.concat bodies
              = Str.concat (firstn (Z.to_nat 18368) lines)).
  { unfold bodies, SplitPdfSpec.CHAPTERS.
    rewrite table_chain by reflexivity.
    cbn [last]. unfold Spec.last_line, e_start, e_end. cbn [fst snd].
    change (18369 - 1)%Z with 18368%Z.
    now rewrite source_lines_from_one. }
  split; [| split].
  - apply split_loop_bodies.
  - exact E.
  - intros H. rewrite E, firstn_all2 by lia. apply concat_readlines.
Qed.

Lemma chapters_cover_document_witness :
  Str.concat (map (page_content false (readlines ("a" ++ nl ++ "b" ++ nl)))
                  SplitPdfSpec.CHAPTERS)
  = "a" ++ nl ++ "b" ++ nl.
Proof.
  apply (proj2 (proj2 (chapters_cover_document ("a" ++ nl ++ "b" ++ nl)))).
  cbn. lia.
Defined.

(** X11.  The splitters that compute [min(end, total_lines)] never put
    the last line of their source on a page: for an entry with [start]
    and [end] at least 1, the body taken from a source is the body that
    split-pdf-spec.py, which does not clamp, takes from the source
    without its last line. *)
Theorem clamp_drops_last_line :
  forall (lines : list string) (last_line : string) (e : entry),
    (1 <= e_start e)%Z -> (1 <= e_end e)%Z ->
    page_content true (lines ++ [last_line]) e = page_content false lines e.
Proof.
  intros lines x e Hs He. rewrite !page_content_lines by assumption.
  unfold Spec.last_line. rewrite length_app. cbn [List.length].
  rewrite source_lines_snoc by lia.
  f_equal. f_equal. lia.
Qed.

Lemma clamp_drops_last_line_witness :
  page_content true (["a"; "b"] ++ ["c"]) (1, 9, "F", "T")%Z = "ab".
Proof.
  refine (eq_trans (clamp_drops_last_line ["a"; "b"] "c" (1, 9, "F", "T")%Z
                      _ _) _).
  - unfold e_start. cbn. lia.
  - unfold e_end. cbn. lia.
  - reflexivity.
Defined.

End TableFacts.

(** * A page that one splitter writes and another one reads *)

Module PageFacts.
Import Wiki WikiProps WikiFacts Lines LinesProps LinesFacts TableProps
  TableFacts PageProps.

Lemma nav_header_lines st idx parent title prev next :
  nav_header st idx parent title prev next
  = Str.concat (header_lines st idx parent title prev next).
Proof.
  unfold nav_header, header_lines, nav_line.
  destruct parent as [p|]; cbn [List.app Str.concat fold_right];
    repeat rewrite StrFacts.app_assoc; repeat rewrite StrFacts.app_nil_r;
    reflexivity.
Qed.

Lemma nav_footer_lines st idx prev next :
  nav_footer st idx prev next = Str.concat (footer_lines st idx prev next).
Proof.
  unfold nav_footer, footer_lines, nav_line.
  cbn [Str.concat fold_right].
  repeat rewrite StrFacts.app_assoc; repeat rewrite StrFacts.app_nil_r;
    reflexivity.
Qed.

Lemma one_line_prev st prev :
  one_line_opt prev = true -> one_line (prev_link st prev) = true.
Proof.
  intros H. unfold prev_link, link_target.
  destruct prev as [p|]; [| reflexivity]. cbn in H.
  destruct (Str.truthy p); [| reflexivity].
  destruct st; rewrite !one_line_app, H; reflexivity.
Qed.

Lemma one_line_next st next :
  one_line_opt next = true -> one_line (next_link st next) = true.
Proof.
  intros H. unfold next_link, link_target.
  destruct next as [p|]; [| reflexivity]. cbn in H.
  destruct (Str.truthy p); [| reflexivity].
  destruct st; rewrite !one_line_app, H; reflexivity.
Qed.

Lemma one_line_index st idx :
  one_line idx = true -> one_line (index_link st idx) = true.
Proof.
  intros H. unfold index_link.
  destruct st; rewrite !one_line_app, H; reflexivity.
Qed.

Lemma nav_line_line st idx prev next :
  one_line idx = true -> one_line_opt prev = true ->
  one_line_opt next = true ->
  is_line (nav_line st idx prev next) = true.
Proof.
  intros Hi Hp Hn. unfold nav_line.
  rewrite <- !StrFacts.app_assoc. apply is_line_nl.
  rewrite !one_line_app, one_line_prev, one_line_index, one_line_next
    by assumption.
  reflexivity.
Qed.

Lemma header_lines_complete st idx parent title prev next :
  one_line title = true -> one_line idx = true ->
  one_line_opt parent = true -> one_line_opt prev = true ->
  one_line_opt next = true ->
  forallb is_line (header_lines st idx parent title prev next) = true.
Proof.
  intros Ht Hi Hpa Hp Hn. unfold header_lines.
  rewrite !forallb_app. cbn [forallb].
  rewrite nav_line_line by assumption.
  assert (T : is_line ("# " ++ title ++ nl) = true).
  { rewrite <- StrFacts.app_assoc. apply is_line_nl.
    now rewrite one_line_app, Ht. }
  rewrite T.
  destruct parent as [p|]; [| reflexivity].
  cbn [forallb]. cbn in Hpa.
  assert (P : is_line ("> **Part of**: [[" ++ p ++ "]]" ++ nl) = true).
  { rewrite <- !StrFacts.app_assoc. apply is_line_nl.
    now rewrite !one_line_app, Hpa. }
  rewrite P. reflexivity.
Qed.

Lemma footer_lines_complete st idx prev next :
  one_line idx = true -> one_line_opt prev = true ->
  one_line_opt next = true ->
  forallb is_line (footer_lines st idx prev next) = true.
Proof.
  intros Hi Hp Hn. unfold footer_lines. cbn [forallb].
  rewrite nav_line_line by assumption. reflexivity.
Qed.

Lemma header_length st idx parent title prev next :
  List.length (header_lines st idx parent title prev next)
  = match parent with Some _ => 8 | None => 6 end.
Proof. unfold header_lines. now destruct parent. Qed.

Lemma page_lines st idx parent filename title prev next body :
  one_line title = true -> one_line idx = true ->
  one_line_opt parent = true -> one_line_opt prev = true ->
  one_line_opt next = true ->
  forallb is_line body = true ->
  readlines (snd (write_wiki_page st idx parent filename title
                                  (Str.concat body) prev next))
  = (header_lines st idx parent title prev next ++ body
     ++ footer_lines st idx prev next)%list.
Proof.
  intros Ht Hi Hpa Hp Hn Hb. unfold write_wiki_page. cbn [snd].
  rewrite nav_header_lines, nav_footer_lines.
  rewrite readlines_lines by now apply header_lines_complete.
  rewrite readlines_lines by exact Hb.
  rewrite <- (StrFacts.app_nil_r (Str.concat (footer_lines st idx prev next))).
  rewrite readlines_lines by now apply footer_lines_complete.
  cbn [readlines]. now rewrite List.app_nil_r.
Qed.

Lemma source_lines_shift (h body f : list string) (a b : Z) :
  (Z.of_nat (List.length h) + 1 <= a)%Z ->
  (b <= Z.of_nat (List.length h) + Z.of_nat (List.length body))%Z ->
  Spec.source_lines (h ++ body ++ f) a b
  = Spec.source_lines body (a - Z.of_nat (List.length h))
                      (b - Z.of_nat (List.length h)).
Proof.
  intros Ha Hb. rewrite !source_lines_firstn by lia.
  rewrite skipn_app. rewrite skipn_all2 by lia. cbn [List.app].
  replace (Z.to_nat (a - 1) - List.length h)
    with (Z.to_nat (a - Z.of_nat (List.length h) - 1)) by lia.
  rewrite skipn_app, firstn_app, length_skipn.
  replace (Z.to_nat (b - a + 1)
           - (List.length body
              - Z.to_nat (a - Z.of_nat (List.length h) - 1)))
    with 0 by lia.
  cbn [firstn]. rewrite List.app_nil_r. f_equal. lia.
Qed.

(** X12.  Reading back a page.  When the title, the index, the parent
    and the neighbours hold no newline and the body is made of complete
    lines, the text that [write_wiki_page] writes reads back, by
    [readlines], as the lines of the header (six, or eight with a
    "Part of" line), the lines of the body and the five lines of the
    footer.  So a later splitter that takes lines [start] to [end - 1] of
    such a page, both within the body, takes lines [start - h] to
    [end - 1 - h] of the body, where [h] is the number of header lines. *)
Theorem written_page_reads_back :
  forall (st : style) (index_page : string) (parent : option string)
         (filename title : string) (prev next : option string)
         (body : list string),
    one_line title = true -> one_line index_page = true ->
    one_line_opt parent = true -> one_line_opt prev = true ->
    one_line_opt next = true ->
    forallb is_line body = true ->
    let page := snd (write_wiki_page st index_page parent filename title
                                     (Str.concat body) prev next) in
    let h := match parent with Some _ => 8%Z | None => 6%Z end in
    readlines page
    = (header_lines st index_page parent title prev next ++ body
       ++ footer_lines st index_page prev next)%list
    /\ Z.of_nat (List.length (readlines page))
       = (h + Z.of_nat (List.length body) + 5)%Z
    /\ (forall e : entry,
           (h + 1 <= e_start e)%Z ->
           (e_start e <= e_end e)%Z ->
           (e_end e <= h + Z.of_nat (List.length body) + 1)%Z ->
           page_content true (readlines page) e
           = Str.concat (Spec.source_lines body (e_start e - h)
                                           (e_end e - 1 - h))).
Proof.
  intros st idx parent filename title prev next body Ht Hi Hpa Hp Hn Hb
         page h.
  assert (R := page_lines st idx parent filename title prev next body
                          Ht Hi Hpa Hp Hn Hb).
  fold page in R.
  assert (Hh : Z.of_nat (List.length
                           (header_lines st idx parent title prev next)) = h)
    by (rewrite header_length; unfold h; now destruct parent).
  assert (Hpos : (6 <= h)%Z) by (unfold h; destruct parent; lia).
  assert (Len : Z.of_nat (List.length (readlines page))
                = (h + Z.of_nat (List.length body) + 5)%Z).
  { rewrite R, !length_app. cbn [List.length footer_lines]. lia. }
  split; [exact R | split; [exact Len |]].
  intros e Hs Hm He.
  rewrite page_content_lines by lia. unfold Spec.last_line.
  rewrite Len, Z.min_l by lia. rewrite R.
  rewrite source_lines_shift by lia. rewrite Hh. reflexivity.
Qed.

Lemma written_page_reads_back_witness :
  List.length (readlines chapter_page) = 14
  /\ page_content true (readlines chapter_page) (8, 10, "F", "T")%Z
     = "y" ++ nl ++ "z" ++ nl.
Proof.
  destruct (written_page_reads_back Markdown "PDF-Spec-Index" None
              "PDF-Spec-10-Rendering" "Rendering"
              (Some "PDF-Spec-09-Text") None three_lines
              eq_refl eq_refl eq_refl eq_refl eq_refl eq_refl)
    as (R & _ & S).
  split.
  - unfold chapter_page, SplitPdfSpec.write_wiki_page. rewrite R. reflexivity.
  - unfold chapter_page, SplitPdfSpec.write_wiki_page.
    refine (eq_trans (S (8, 10, "F", "T")%Z _ _ _) _).
    + unfold e_start. cbn. lia.
    + unfold e_start, e_end. cbn. lia.
    + unfold e_end. cbn. lia.
    + reflexivity.
Defined.

End PageFacts.

(** * Phase 4, line by line *)

Module Phase4LineFacts.
Import Re ReSpec ReProps ReFacts FinderProps FinderFacts IdemFacts Phase4.

(** a captured group is part of the matched text: a character that the
    text does not hold is in no group *)
Lemma groups_within (ch : ascii) (r : regex) (u s : string) (c c' : caps) :
  Matches r u s c c' ->
  Str.count ch u = 0 ->
  (forall n, Str.count ch (group n c) = 0) ->
  forall n, Str.count ch (group n c') = 0.
Proof.
  induction 1 as [ | | r1 r2 u1 u2 s c c1 c2 _ IH1 _ IH2 | | |
                   | r u1 u2 s c c1 c2 _ _ IH1 _ IH2
                   | k r u s c c' _ IH | ]; intros Hu Hc n; auto.
  - rewrite StrFacts.count_app in Hu. apply IH2; [lia |]. apply IH1; [lia |].
    exact Hc.
  - rewrite StrFacts.count_app in Hu. apply IH2; [lia |]. apply IH1; [lia |].
    exact Hc.
  - cbn [group]. destruct (Nat.eqb k n); [exact Hu | now apply IH].
Qed.

Lemma search_groups (ch : ascii) (r : regex) (line : string) (m : match_obj) :
  search r line = Some m -> Str.count ch line = 0 ->
  forall n, Str.count ch (m_group m n) = 0.
Proof.
  intros H Hl n. apply search_sound in H as [E M].
  rewrite E, !StrFacts.count_app in Hl.
  destruct n as [|n]; cbn [m_group]; [lia |].
  apply (groups_within ch _ _ _ _ _ M); [lia | reflexivity].
Qed.

Ltac count_pieces :=
  repeat first [ rewrite StrFacts.count_app
               | progress cbn [Str.count Ascii.eqb Bool.eqb] ].

Lemma phase4_line_newline_free (path_var line : string) :
  Str.count "010"%char line = 0 -> Str.count "010"%char path_var = 0 ->
  Str.count "010"%char (fix_line path_var line) = 0.
Proof.
  intros Hl Hp. unfold fix_line. cbv zeta.
  repeat match goal with
         | |- context [match search ?p line with _ => _ end] =>
             let S := fresh "S" in
             destruct (search p line) eqn:S
         | |- context [if ?b then _ else _] => destruct b
         end;
    try exact Hl;
    count_pieces;
    repeat match goal with
           | S : search _ line = Some ?m |- context [m_group ?m ?n] =>
               rewrite (search_groups "010"%char _ line m S Hl n)
           end;
    rewrite ?Hp; reflexivity.
Qed.

Lemma combine_map_changed (f : string -> string) (lines : list string) :
  List.length
    (filter (fun ab => negb (String.eqb (fst ab) (snd ab)))
            (combine lines (map f lines)))
  = List.length (filter (fun line => negb (String.eqb line (f line))) lines).
Proof.
  induction lines as [|x l IH]; [reflexivity |].
  cbn [map combine filter fst snd].
  destruct (negb (x =? f x)%string); cbn [List.length]; now rewrite IH.
Qed.

(** X13.  Phase 4 works line by line and keeps the lines apart: the lines
    of [fix_content] of a text are [fix_line] of its lines, one for one,
    so that the number of lines that [main] counts as fixed for a file is
    the number of lines that [fix_line] changes. *)
Theorem phase4_works_line_by_line :
  forall content : string,
    let path_var := find_path_var content in
    let lines := Str.split "010"%char content in
    Str.split "010"%char (fix_content content) = map (fix_line path_var) lines
    /\ Phase4Main.changes content (fix_content content)
       = List.length
           (filter (fun line =>
                      negb (String.eqb line (fix_line path_var line)))
                   lines).
Proof.
  intros content path_var lines.
  assert (Hp : Str.count "010"%char path_var = 0).
  { apply identifier_excludes; [reflexivity |].
    apply (phase4_acceptable content). }
  assert (S : Str.split "010"%char (fix_content content)
              = map (fix_line path_var) lines).
  { unfold fix_content. apply StrFacts.split_join.
    - pose proof (StrFacts.split_nonempty "010"%char content) as N.
      fold lines in N |- *. destruct lines; [now elim N | discriminate].
    - apply Forall_map.
      eapply Forall_impl; [| apply StrFacts.split_no_sep].
      intros l Hl. cbv beta. now apply phase4_line_newline_free. }
  split; [exact S |].
  unfold Phase4Main.changes, Phase3Main.changes. rewrite S.
  apply combine_map_changed.
Qed.

End Phase4LineFacts.
